(** * easystaff-helper-bot: the rate cache, the reconciler, the refresh path
      and the connection bootstrap, embedded and verified

    The bot is Python.  Its [float] is IEEE binary64, which is the kernel's
    primitive [float]; Python integers are [Z]; exceptions are values of
    [exn] carried by [result]; the cache file, the reply channel and the
    admin notifications are an explicit [world] threaded by a small state
    and exception monad.  Library calls the bot relies on ([decimal],
    [json], [datetime], [float.__repr__]) are modelled next to the code
    that calls them.

    The admin notifications, the error handler, the database connection
    wrapper and the two commands each keep a log of the calls they make
    to the bot or to the driver; the two rate parsers work on [str] as a
    list of code points, with the interpreter's character tables as a
    parameter. *)

From Stdlib Require Import ZArith NArith QArith Qabs Floats Ascii String List Lia Bool.
From stdpp Require Import gmap strings list.

Set Warnings "-register-all,-inexact-float".
Close Scope Q_scope.

(** ** Python exceptions and results *)

Module Py.

(** The exception classes the embedded code raises or names in an
    [except] clause. *)
Inductive exn_class :=
| Exception
| ValueError
| JSONDecodeError
| UnicodeDecodeError
| TypeError
| ArithmeticError
| ZeroDivisionError
| OverflowError
| InvalidOperation
| OSError
| PermissionError
| RuntimeError
| RecursionError.

(** [parent c]: the direct base class ([IOError] is an alias of
    [OSError]; [json.JSONDecodeError] and [UnicodeDecodeError] both derive
    from [ValueError]; [decimal.InvalidOperation] is an
    [ArithmeticError]; [PermissionError] is an [OSError] and
    [RecursionError] a [RuntimeError]). *)
Definition parent (c : exn_class) : option exn_class :=
  match c with
  | Exception => None
  | ValueError | TypeError | ArithmeticError | OSError | RuntimeError => Some Exception
  | JSONDecodeError | UnicodeDecodeError => Some ValueError
  | ZeroDivisionError | OverflowError | InvalidOperation => Some ArithmeticError
  | PermissionError => Some OSError
  | RecursionError => Some RuntimeError
  end.

Definition exn_class_eqb (a b : exn_class) : bool :=
  match a, b with
  | Exception, Exception | ValueError, ValueError
  | JSONDecodeError, JSONDecodeError | UnicodeDecodeError, UnicodeDecodeError
  | TypeError, TypeError | ArithmeticError, ArithmeticError
  | ZeroDivisionError, ZeroDivisionError | OverflowError, OverflowError
  | InvalidOperation, InvalidOperation | OSError, OSError
  | PermissionError, PermissionError
  | RuntimeError, RuntimeError | RecursionError, RecursionError => true
  | _, _ => false
  end.

(** [issubclass c base], by walking up the (depth at most 3) hierarchy. *)
Fixpoint issubclass_fuel (fuel : nat) (c base : exn_class) : bool :=
  exn_class_eqb c base ||
  match fuel, parent c with
  | S fuel', Some p => issubclass_fuel fuel' p base
  | _, _ => false
  end.

Definition issubclass := issubclass_fuel 3.

Record exn := mk_exn { cls : exn_class; msg : string }.

(** [isinstance e (c1, c2, ...)] *)
Definition isinstance (e : exn) (bases : list exn_class) : bool :=
  existsb (issubclass (cls e)) bases.

Inductive result (A : Type) :=
| Ok (a : A)
| Raise (e : exn).
Arguments Ok {A} a.
Arguments Raise {A} e.

(** Sequencing stops at the first exception; [x ← r; k] is stdpp's
    notation for it. *)
#[export] Instance result_ret : MRet result := @Ok.
#[export] Instance result_bind : MBind result :=
  fun A B (k : A -> result B) (r : result A) =>
    match r with
    | Ok a => k a
    | Raise e => Raise e
    end.

(** [try: body except (bases): handler] *)
Definition try_except {A} (body : result A) (bases : list exn_class)
           (handler : exn -> result A) : result A :=
  match body with
  | Ok a => Ok a
  | Raise e => if isinstance e bases then handler e else Raise e
  end.

End Py.

Import Py.

(** ** Python's [float] *)

Module PyFloat.

(** [bool(x)]: a float is falsy exactly when it compares equal to zero
    (so both zeros are falsy and NaN is truthy). *)
Definition truthy (x : float) : bool := negb (x =? 0)%float.

(** The builtin [min(a, b)] keeps [a] unless [b < a]; [max(a, b)] keeps
    [a] unless [b > a]. *)
Definition py_min (a b : float) : float := if (b <? a)%float then b else a.
Definition py_max (a b : float) : float := if (a <? b)%float then b else a.

(** [float(n)] for a Python integer: the nearest binary64 (ties to
    even), [OverflowError] when that is not finite. *)
Definition of_int (n : Z) : result float :=
  let f := SF2Prim (binary_normalize prec emax n 0%Z false) in
  if is_infinity f
  then Raise (mk_exn OverflowError "int too large to convert to float")
  else Ok f.

(** [x > 0] *)
Definition positive (x : float) : Prop := (0 <? x)%float = true.

End PyFloat.

(** ** The [decimal] module, as far as [trunc2] and the invoicing hint use it *)

Module PyDecimal.

(** A [Decimal] is a sign, a coefficient and an exponent, or one of the
    special values ([True] is the minus sign). *)
Inductive decimal :=
| Finite (sign : bool) (coeff : N) (exp : Z)
| Infinity (sign : bool)
| NaN.

Inductive rounding := ROUND_DOWN | ROUND_HALF_UP.

(** The default context: 28 digits, exponents up to 999999. *)
Definition prec : Z := 28.
Definition Emax : Z := 999999.

(** [len(self._int)]: the number of decimal digits of the coefficient
    (the coefficient [0] is the one-digit string ['0']). *)
Fixpoint ndigits_fuel (fuel : nat) (c : N) : Z :=
  match fuel with
  | O => 1
  | S fuel' => if (c <? 10)%N then 1 else 1 + ndigits_fuel fuel' (c / 10)%N
  end.

Definition ndigits (c : N) : Z := ndigits_fuel (N.size_nat c) c.

(** [self.adjusted()]: the exponent of the most significant digit. *)
Definition adjusted (c : N) (e : Z) : Z := e + ndigits c - 1.

Definition invalid_operation {A} (why : string) : result A :=
  Raise (mk_exn InvalidOperation why).

(** [self._rescale(exp, rounding)] on a non-zero finite value: pad with
    zeros when no digit is lost; otherwise drop the last [exp - e]
    digits, and under [ROUND_HALF_UP] add one when the first dropped
    digit is 5 or more ([ROUND_DOWN] never adds). *)
Definition rescale (c : N) (e : Z) (exp : Z) (r : rounding) : N :=
  if (exp <=? e)%Z then (c * 10 ^ Z.to_N (e - exp))%N
  else
    let unit := (10 ^ Z.to_N (exp - e))%N in
    let kept := (c / unit)%N in
    let dropped := (c mod unit)%N in
    match r with
    | ROUND_DOWN => kept
    | ROUND_HALF_UP => if (unit <=? 2 * dropped)%N then (kept + 1)%N else kept
    end.

(** [self.quantize(Decimal(10) ** exp, rounding=r)] in the default
    context, for a target exponent inside the context's range (the code
    uses [-2] and [0]).  A quiet NaN passes through; an infinity, or a
    result that needs more than [prec] digits, signals
    [InvalidOperation], which the default context traps. *)
Definition quantize (d : decimal) (exp : Z) (r : rounding) : result decimal :=
  match d with
  | NaN => Ok NaN
  | Infinity _ => invalid_operation "quantize with one INF"
  | Finite s c e =>
      if (c =? 0)%N then Ok (Finite s 0 exp)
      else if (Emax <? adjusted c e)%Z
      then invalid_operation "exponent of quantize result too large for current context"
      else if (prec <? adjusted c e - exp + 1)%Z
      then invalid_operation "quantize result has too many digits for current context"
      else
        let c' := rescale c e exp r in
        if (Emax <? adjusted c' exp)%Z
        then invalid_operation "exponent of quantize result too large for current context"
        else if (prec <? ndigits c')%Z
        then invalid_operation "quantize result has too many digits for current context"
        else Ok (Finite s c' exp)
  end.

(** [int(d)]: truncation toward zero; NaN and the infinities cannot be
    converted. *)
Definition to_int (d : decimal) : result Z :=
  match d with
  | NaN => Raise (mk_exn ValueError "cannot convert NaN to integer")
  | Infinity _ => Raise (mk_exn OverflowError "cannot convert Infinity to integer")
  | Finite s c e =>
      let n := if (0 <=? e)%Z then (c * 10 ^ Z.to_N e)%N else (c / 10 ^ Z.to_N (- e))%N in
      Ok (if s then (- Z.of_N n)%Z else Z.of_N n)
  end.

(** [float(d)]: the binary64 nearest to the decimal (ties to even), the
    sign of a zero kept. *)
Definition to_float (d : decimal) : float :=
  match d with
  | NaN => nan
  | Infinity s => if s then neg_infinity else infinity
  | Finite s c e =>
      match c with
      | N0 => if s then (-0)%float else 0%float
      | Npos p =>
          if (0 <=? e)%Z
          then SF2Prim (binary_normalize FloatOps.prec emax
                          ((if s then Z.neg p else Z.pos p) * 10 ^ e)%Z
                          0%Z false)
          else SF2Prim (SFdiv FloatOps.prec emax
                          (S754_finite s p 0%Z)
                          (S754_finite false (Z.to_pos (10 ^ (- e))) 0%Z))
      end
  end.

(** The value of a finite decimal as a rational number. *)
Definition value (d : decimal) : Q :=
  match d with
  | Finite s c e =>
      let m := if s then (- Z.of_N c)%Z else Z.of_N c in
      if (0 <=? e)%Z then inject_Z (m * 10 ^ e) else (m # Z.to_pos (10 ^ (- e)))%Q
  | _ => 0
  end.

End PyDecimal.

(** ** [str(x)] for a float, read back by [Decimal(...)] *)

Module FloatRepr.
Import PyDecimal.
Local Open Scope Z_scope.

(** [float.__repr__] prints the shortest digit string that reads back as
    the same binary64, and among the shortest the one nearest to it.
    For [x = m * 2^e > 0] every quantity below is a numerator over the
    common denominator [den]: [num] is [x] itself, [lo] and [hi] are the
    midpoints to the neighbouring floats (they read back as [x] exactly
    when [m] is even). *)
Record interval := { num : Z; den : Z; lo : Z; hi : Z; closed : bool }.

Definition rounding_interval (m : positive) (e : Z) : interval :=
  let s := Z.max 0 (2 - e) in
  let up := 2 ^ (e + s - 1) in
  let down := if (Z.pos m =? 2 ^ 52) && (-1074 <? e) then 2 ^ (e + s - 2) else up in
  {| num := Z.pos m * 2 ^ (e + s); den := 2 ^ s;
     lo := Z.pos m * 2 ^ (e + s) - down; hi := Z.pos m * 2 ^ (e + s) + up;
     closed := Z.even (Z.pos m) |}.

(** [num / den < 10 ^ p] *)
Definition below_pow10 (i : interval) (p : Z) : bool :=
  if 0 <=? p then num i <? den i * 10 ^ p else num i * 10 ^ (- p) <? den i.

(** The position of the decimal point: the [p] with
    [10^(p-1) <= x < 10^p], found upward from an underestimate taken
    from the bit lengths ([log10 2] is a little under [0.30103]). *)
Fixpoint decpt_from (fuel : nat) (p : Z) (i : interval) : Z :=
  match fuel with
  | O => p
  | S fuel' => if below_pow10 i p then p else decpt_from fuel' (p + 1) i
  end.

Definition decpt (i : interval) : Z :=
  decpt_from 8 ((Z.log2 (num i) - Z.log2 (den i) - 1) * 30103 / 100000 - 1) i.

(** The [n]-digit candidates around [x] are [d * 10^(p-n)] for [d] the
    floor of [x / 10^(p-n)] and its successor; one is printed when it
    lies in the rounding interval. *)
Definition candidate (i : interval) (p : Z) (n : Z) : option Z :=
  let q := p - n in
  let A := if 0 <=? q then den i * 10 ^ q else den i in
  let B := if 0 <=? q then 1 else 10 ^ (- q) in
  let inside d :=
    if closed i then (lo i * B <=? d * A) && (d * A <=? hi i * B)
    else (lo i * B <? d * A) && (d * A <? hi i * B) in
  let d0 := (num i * B) / A in
  let below := num i * B - d0 * A in
  let above := (d0 + 1) * A - num i * B in
  match inside d0, inside (d0 + 1) with
  | true, true =>
      if below <? above then Some d0
      else if above <? below then Some (d0 + 1)
      else Some (if Z.even d0 then d0 else d0 + 1)
  | true, false => Some d0
  | false, true => Some (d0 + 1)
  | false, false => None
  end.

Fixpoint shortest_from (fuel : nat) (n : Z) (i : interval) (p : Z) : Z * Z :=
  match fuel with
  | O => ((num i * 10 ^ (n - p)) / den i, p - n)
  | S fuel' =>
      match candidate i p n with
      | Some d => (d, p - n)
      | None => shortest_from fuel' (n + 1) i p
      end
  end.

(** Trailing zeros are not printed. *)
Fixpoint strip_zeros (fuel : nat) (d q : Z) : Z * Z :=
  match fuel with
  | O => (d, q)
  | S fuel' => if (d mod 10 =? 0) && negb (d =? 0) then strip_zeros fuel' (d / 10) (q + 1) else (d, q)
  end.

(** The digits [d] and exponent [q] of [repr(x)], [x = d * 10^q]. *)
Definition shortest (m : positive) (e : Z) : Z * Z :=
  let i := rounding_interval m e in
  let '(d, q) := shortest_from 17 1 i (decpt i) in
  strip_zeros 17 d q.

(** [Decimal(str(x))].  [str] writes the digits in positional notation
    when the decimal point falls within [-4 < decpt <= 16], with [.0]
    appended to an integer, and in exponent notation otherwise; [Decimal]
    keeps the digits written and counts those after the point. *)
Definition Decimal_of_str (x : float) : decimal :=
  match Prim2SF x with
  | S754_nan => NaN
  | S754_infinity s => Infinity s
  | S754_zero s => Finite s 0 (-1)
  | S754_finite s m e =>
      let '(d, q) := shortest m e in
      let point := q + ndigits (Z.to_N d) in
      if (-4 <? point) && (point <=? 16) && (0 <=? q)
      then Finite s (Z.to_N (d * 10 ^ (q + 1))) (-1)
      else Finite s (Z.to_N d) q
  end.

(** The exact value of a finite float. *)
Definition exact_value (x : float) : Q :=
  match Prim2SF x with
  | S754_finite s m e =>
      let n := if s then Z.neg m else Z.pos m in
      if 0 <=? e then inject_Z (n * 2 ^ e) else (n # Z.to_pos (2 ^ (- e)))%Q
  | _ => 0%Q
  end.

(** [f"{x:.2f}"], as the decimal whose digits are printed: the exact
    value of [x] rounded to two decimal places, ties to even. *)
Definition format_2f (x : float) : decimal :=
  match Prim2SF x with
  | S754_nan => NaN
  | S754_infinity s => Infinity s
  | S754_zero s => Finite s 0 (-2)
  | S754_finite s m e =>
      let num := Z.pos m * 100 * (if 0 <=? e then 2 ^ e else 1) in
      let den := if 0 <=? e then 1 else 2 ^ (- e) in
      let q := num / den in
      let r := num mod den in
      let n := if 2 * r <? den then q
               else if den <? 2 * r then q + 1
               else if Z.even q then q else q + 1 in
      Finite s (Z.to_N n) (-2)
  end.

End FloatRepr.

(** ** JSON values, which are also the Python values the cache holds *)

Module Json.

(** What [json.load] returns: [None], [bool], [int], [float], [str],
    [list] or [dict] (string keys, the last duplicate wins). *)
Inductive json :=
| JNull
| JBool (b : bool)
| JInt (n : Z)
| JFloat (x : float)
| JStr (s : string)
| JArr (l : list json)
| JObj (m : gmap string json).

(** [d.get(key)]: [None] when the key is missing. *)
Definition get (d : gmap string json) (key : string) : json :=
  default JNull (d !! key).

(** [bool(v)] *)
Definition truthy (v : json) : bool :=
  match v with
  | JNull => false
  | JBool b => b
  | JInt n => negb (n =? 0)%Z
  | JFloat x => PyFloat.truthy x
  | JStr s => negb (String.eqb s "")
  | JArr l => match l with [] => false | _ => true end
  | JObj m => negb (bool_decide (m = ∅))
  end.

(** [v == 0] *)
Definition equals_zero (v : json) : bool :=
  match v with
  | JBool b => negb b
  | JInt n => (n =? 0)%Z
  | JFloat x => (x =? 0)%float
  | _ => false
  end.

Definition type_error {A} (why : string) : result A := Raise (mk_exn TypeError why).
Definition zero_division {A} (why : string) : result A := Raise (mk_exn ZeroDivisionError why).

(** [x / v] for a float [x]: true division by a float, an int or a
    bool (converted to float first); anything else is a [TypeError]. *)
Definition truediv (x : float) (v : json) : result float :=
  match v with
  | JFloat y => if (y =? 0)%float then zero_division "float division by zero" else Ok (x / y)%float
  | JInt n =>
      y ← PyFloat.of_int n;
      if (n =? 0)%Z then zero_division "float division by zero" else Ok (x / y)%float
  | JBool b => if b then Ok (x / 1)%float else zero_division "float division by zero"
  | _ => type_error "unsupported operand type(s) for /"
  end.

End Json.

(** ** [datetime]: UTC timestamps and their ISO-8601 text *)

Module PyDatetime.
Local Open Scope N_scope.

(** An aware datetime in UTC, as [datetime.now(timezone.utc)] returns. *)
Record datetime := mk_datetime {
  year : N; month : N; day : N;
  hour : N; minute : N; second : N; microsecond : N }.

Definition is_leap (y : N) : bool :=
  ((y mod 4 =? 0) && negb (y mod 100 =? 0)) || (y mod 400 =? 0).

Definition days_in_month (y m : N) : N :=
  if m =? 2 then (if is_leap y then 29 else 28)
  else if (m =? 4) || (m =? 6) || (m =? 9) || (m =? 11) then 30
  else 31.

(** The ranges the [datetime] constructor enforces. *)
Definition valid (d : datetime) : bool :=
  (1 <=? year d) && (year d <=? 9999) &&
  (1 <=? month d) && (month d <=? 12) &&
  (1 <=? day d) && (day d <=? days_in_month (year d) (month d)) &&
  (hour d <? 24) && (minute d <? 60) && (second d <? 60) &&
  (microsecond d <? 1000000).

Definition digit (n : N) : ascii := ascii_of_N (48 + n).

(** [n] written with exactly [w] digits, zero padded. *)
Fixpoint zfill (w : nat) (n : N) : list ascii :=
  match w with
  | O => []
  | S w' => digit (n / 10 ^ N.of_nat w') :: zfill w' (n mod 10 ^ N.of_nat w')
  end.

Definition digit_value (c : ascii) : option N :=
  let n := N_of_ascii c in
  if (48 <=? n) && (n <=? 57) then Some (n - 48) else None.

(** Read exactly [w] digits. *)
Fixpoint read_digits (w : nat) (acc : N) (s : list ascii) : option (N * list ascii) :=
  match w with
  | O => Some (acc, s)
  | S w' =>
      match s with
      | [] => None
      | c :: s' =>
          match digit_value c with
          | Some v => read_digits w' (acc * 10 + v) s'
          | None => None
          end
      end
  end.

Definition expect (c : ascii) (s : list ascii) : option (list ascii) :=
  match s with
  | c' :: s' => if Ascii.eqb c c' then Some s' else None
  | [] => None
  end.

Definition chars (s : string) : list ascii := list_ascii_of_string s.

(** [d.isoformat()] for an aware UTC datetime:
    [YYYY-MM-DDTHH:MM:SS[.ffffff]+00:00], the fraction left out when the
    microsecond is zero. *)
Definition isoformat (d : datetime) : string :=
  string_of_list_ascii
    (zfill 4 (year d) ++ chars "-" ++ zfill 2 (month d) ++ chars "-" ++ zfill 2 (day d)
     ++ chars "T" ++ zfill 2 (hour d) ++ chars ":" ++ zfill 2 (minute d) ++ chars ":"
     ++ zfill 2 (second d)
     ++ (if microsecond d =? 0 then [] else chars "." ++ zfill 6 (microsecond d))
     ++ chars "+00:00").

(** The optional fraction of a second: 6 or 3 digits after a point. *)
Definition read_fraction (s : list ascii) : option (N * list ascii) :=
  match expect "." s with
  | None => Some (0, s)
  | Some s1 =>
      match read_digits 6 0 s1 with
      | Some r => Some r
      | None =>
          match read_digits 3 0 s1 with
          | Some (ms, s2) => Some (ms * 1000, s2)
          | None => None
          end
      end
  end.

(** The optional UTC offset [+HH:MM] or [-HH:MM], in minutes. *)
Definition read_offset (s : list ascii) : option (option Z) :=
  match s with
  | [] => Some None
  | sign :: s1 =>
      if Ascii.eqb sign "+" || Ascii.eqb sign "-" then
        match read_digits 2 0 s1 with
        | Some (hh, s2) =>
            match expect ":" s2 with
            | Some s3 =>
                match read_digits 2 0 s3 with
                | Some (mm, []) =>
                    if (hh <? 24) && (mm <? 60) then
                      let minutes := Z.of_N (hh * 60 + mm) in
                      Some (Some (if Ascii.eqb sign "-" then (- minutes)%Z else minutes))
                    else None
                | _ => None
                end
            | None => None
            end
        | None => None
        end
      else None
  end.

(** [datetime.fromisoformat(s)] on the full form
    [YYYY-MM-DD?HH:MM:SS[.fff[fff]][+HH:MM]] ([?] is any one
    separator character): the datetime and its UTC offset in minutes
    ([None] for a naive one).  [None] stands for [ValueError]; the
    shorter forms the library also reads are not modelled and count as
    an error here. *)
Definition fromisoformat (s : string) : option (datetime * option Z) :=
  y ← read_digits 4 0 (chars s);
  s1 ← expect "-" y.2;
  mo ← read_digits 2 0 s1;
  s2 ← expect "-" mo.2;
  d ← read_digits 2 0 s2;
  match d.2 with
  | [] => None
  | _ :: s3 =>
      h ← read_digits 2 0 s3;
      s4 ← expect ":" h.2;
      mi ← read_digits 2 0 s4;
      s5 ← expect ":" mi.2;
      se ← read_digits 2 0 s5;
      us ← read_fraction se.2;
      off ← read_offset us.2;
      let dt := mk_datetime y.1 mo.1 d.1 h.1 mi.1 se.1 us.1 in
      if valid dt then Some (dt, off) else None
  end.

End PyDatetime.

(** ** utils/formatters.py *)

Module Formatters.
Import PyDecimal PyDatetime Json.

(** [trunc2(x)]:
    [d = Decimal(str(x)).quantize(Decimal("0.00"), rounding=ROUND_DOWN)],
    then [float(d)] with a negative zero normalised. *)
Definition trunc2_decimal (x : float) : result decimal :=
  quantize (FloatRepr.Decimal_of_str x) (-2) ROUND_DOWN.

Definition trunc2 (x : float) : result float :=
  d ← trunc2_decimal x;
  let val := to_float d in
  Ok (if (val =? 0)%float then 0%float else val).

(** [str.strip()] on ASCII text. *)
Definition is_space (c : ascii) : bool :=
  let n := N_of_ascii c in
  ((9 <=? n) && (n <=? 13) || (28 <=? n) && (n <=? 32))%N.

Fixpoint lstrip (s : list ascii) : list ascii :=
  match s with
  | c :: s' => if is_space c then lstrip s' else s
  | [] => []
  end.

Definition strip (s : list ascii) : list ascii := rev (lstrip (rev (lstrip s))).

(** [if s.endswith("Z"): s = s[:-1] + "+00:00"] *)
Definition zulu_to_offset (s : list ascii) : list ascii :=
  match rev s with
  | c :: r => if Ascii.eqb c "Z" then rev r ++ chars "+00:00" else s
  | [] => s
  end.

(** [format_datetime(dt_str)] up to the [datetime.fromisoformat(s)] it
    formats: [None] where it falls back to the default text (a falsy
    or non-string argument, or a string that does not parse).  The
    conversion to the server time zone and [strftime] are not modelled. *)
Definition format_datetime_parsed (dt_str : json) : option (datetime * option Z) :=
  match dt_str with
  | JStr s =>
      if String.eqb s "" then None
      else fromisoformat (string_of_list_ascii (zulu_to_offset (strip (chars s))))
  | _ => None
  end.

End Formatters.

(** ** database/repositories/cache_repo.py *)

Module CacheRepository.
Import Json PyDatetime.

(** The bytes of the cache file, by what [json.load] does with them.
    Reading them as UTF-8 fails; or the text is not a JSON document
    (empty, truncated, garbage, a leading byte order mark); or it is a
    document nested deeper than the interpreter's recursion limit
    allows; or it is a document with an integer literal of more than
    4300 digits, which [int] refuses; or [json.load] returns the value
    [v]. *)
Inductive content :=
| Undecodable
| Malformed
| TooDeep
| HugeInteger
| Document (v : json).

(** The cache path.  Its directory cannot be searched, so that the
    [stat] of the path itself is refused; or nothing is there; or
    something is there that cannot be opened for reading (a directory, a
    file without read permission); or a file. *)
Inductive file_state :=
| Unsearchable
| Absent
| Unreadable
| Stored (c : content).

(** [self.cache_path.exists()]: [Path.exists] answers [False] for a
    missing path and lets every other error of [stat] through (this is
    pathlib up to Python 3.12; from 3.13 on it answers [False] for those
    errors too, and [Unsearchable] then behaves as [Absent]). *)
Definition file_exists (f : file_state) : result bool :=
  match f with
  | Unsearchable => Raise (mk_exn PermissionError "[Errno 13] Permission denied")
  | Absent => Ok false
  | _ => Ok true
  end.

(** [with open(self.cache_path, 'r', encoding='utf-8') as f:
       data = json.load(f)] *)
Definition open_and_json_load (f : file_state) : result json :=
  match f with
  | Unsearchable => Raise (mk_exn PermissionError "[Errno 13] Permission denied")
  | Absent => Raise (mk_exn OSError "No such file or directory")
  | Unreadable => Raise (mk_exn OSError "Permission denied")
  | Stored Undecodable => Raise (mk_exn UnicodeDecodeError "'utf-8' codec can't decode byte")
  | Stored Malformed => Raise (mk_exn JSONDecodeError "Expecting value")
  | Stored TooDeep => Raise (mk_exn RecursionError "maximum recursion depth exceeded")
  | Stored HugeInteger =>
      Raise (mk_exn ValueError "Exceeds the limit (4300 digits) for integer string conversion")
  | Stored (Document v) => Ok v
  end.

(** [CacheRepository.load]: the test of [exists()] stands before the
    [try]. *)
Definition load (f : file_state) : result (gmap string json) :=
  there ← file_exists f;
  if negb there then Ok ∅
  else
    try_except
      (data ← open_and_json_load f;
       Ok (match data with JObj d => d | _ => ∅ end))
      [JSONDecodeError; OSError]
      (fun _ => Ok ∅).

(** What the file system does to one [save]: nothing, or [mkdir]
    fails, or [open(..., 'w')] fails, or the write (or the flush on
    close) fails after [open] has truncated the file. *)
Inductive disk_fault := NoFault | MkdirFails | OpenFails | WriteFails.

(** The record [save] writes: [{"rate": rate, "updated_at":
    datetime.now(timezone.utc).isoformat()}]. *)
Definition record (rate : float) (now : datetime) : gmap string json :=
  <["updated_at" := JStr (isoformat now)]> (<["rate" := JFloat rate]> ∅).

(** The [try] block of [save]: [mkdir], [open] for writing (which
    truncates), [json.dump].  What [json.dump] writes for a float and an
    ISO timestamp, [json.load] reads back as the same record. *)
Definition write_record (rate : float) (now : datetime) (fault : disk_fault)
           (f : file_state) : result unit * file_state :=
  match fault with
  | MkdirFails => (Raise (mk_exn OSError "mkdir failed"), f)
  | OpenFails => (Raise (mk_exn OSError "open failed"), f)
  | WriteFails => (Raise (mk_exn OSError "No space left on device"), Stored Malformed)
  | NoFault => (Ok (), Stored (Document (JObj (record rate now))))
  end.

(** [CacheRepository.save]: [True], or [False] on [IOError]. *)
Definition save (rate : float) (now : datetime) (fault : disk_fault)
           (f : file_state) : result bool * file_state :=
  let '(r, f') := write_record rate now fault f in
  (try_except (_ ← r; Ok true) [OSError] (fun _ => Ok false), f').

End CacheRepository.

(** ** The world the handlers run in *)

Module World.
Import Json PyDatetime CacheRepository.

(** The figures of a successful reply (lines 157-165 of the handler). *)
Record conversion := mk_conversion {
  eur_xe_show : float;
  eur_easy_show : float;
  percent_diff : float;
  used_value_show : float;
  rounded_to_use : Z;
  easy_rate : json;
  updated_at : json }.

(** The texts the conversion handler replies with. *)
Inductive reply :=
| MustBePositive        (* "The amount must be a positive number greater than zero." *)
| MinimumAmount         (* "The minimum amount for conversion is 10,000 RUB." *)
| OnlyNumber            (* "Please use only the number" *)
| ReceivingRate         (* "Receiving the Easystaff rate, please wait." *)
| FailedEasystaff       (* "Failed to get the Easystaff rate. Try again later." *)
| ZeroInvalidRate       (* "Received a zero/invalid rate. Try again later." *)
| Converted (c : conversion).

(** The texts the scheduler sends to the administrators. *)
Inductive notice :=
| UpdateSuccess (context : string) (rate : float)
| InvalidRateReceived (context : string) (rate : option float)
| UpdateFailed (context : string) (error_text : string).

(** What a run does to the outside, in order: the calls it makes,
    whether or not they return. *)
Inductive event :=
| StatsUpdated                             (* self.stats.update_user_stats(...) *)
| XeRequested (amount : float)             (* self.xe.get_rate(amount) *)
| EasystaffRequested                       (* self.easystaff.get_rate() *)
| CacheSaved (rate : float) (ok : bool)    (* self.cache.save(rate) *)
| Replied (r : reply)                      (* message.reply(...) *)
| ErrorHandled (e : exn)                   (* handle_error(message, e, ...) *)
| AdminsNotified (n : notice).             (* self.notify.notify_admins(...) *)

Record world := mk_world { cache_file : file_state; journal : list event }.

(** What the collaborators answer during one run: the two providers,
    the clock read by [save], and the file system's behaviour on that
    write. *)
Record services := mk_services {
  xe_get_rate : float -> result float;
  easystaff_get_rate : result (option float);
  utc_now : datetime;
  disk : disk_fault }.

(** State and exceptions: an exception keeps the world reached so far. *)
Definition M (A : Type) : Type := world -> result A * world.

#[export] Instance M_ret : MRet M := fun A a w => (Ok a, w).
#[export] Instance M_bind : MBind M :=
  fun A B (k : A -> M B) (m : M A) w =>
    match m w with
    | (Ok a, w') => k a w'
    | (Raise e, w') => (Raise e, w')
    end.

Definition lift {A} (r : result A) : M A := fun w => (r, w).

Definition emit (ev : event) : M unit :=
  fun w => (Ok (), mk_world (cache_file w) (journal w ++ [ev])).

(** [try: body except Exception as e: handler(e)] *)
Definition try_except_M {A} (body : M A) (handler : exn -> M A) : M A :=
  fun w =>
    match body w with
    | (Ok a, w') => (Ok a, w')
    | (Raise e, w') => if isinstance e [Exception] then handler e w' else (Raise e, w')
    end.

(** [self.cache.load() or {}] *)
Definition cache_load : M (gmap string json) :=
  fun w => (load (cache_file w), w).

(** [self.cache.save(rate)] *)
Definition cache_save (svc : services) (rate : float) : M bool :=
  fun w =>
    match save rate (utc_now svc) (disk svc) (cache_file w) with
    | (Ok ok, f') => (Ok ok, mk_world f' (journal w ++ [CacheSaved rate ok]))
    | (Raise e, f') => (Raise e, mk_world f' (journal w))
    end.

(** The Telegram side of one request.  [stats_update] is [None] when
    the handler has no statistics repository, and otherwise what
    [update_user_stats] does; [reply_result j r] is what
    [message.reply] does when called with the text [r] after the events
    [j]; [handle_error_result j e] is what [handle_error] does when
    called with [e] after the events [j] (it swallows the failures of
    its admin alerts and ends with a [message.reply] of its own, which
    may raise). *)
Record chat := mk_chat {
  stats_update : option (result unit);
  reply_result : list event -> reply -> result unit;
  handle_error_result : list event -> exn -> result unit }.

(** [await message.reply(...)] *)
Definition message_reply (ch : chat) (r : reply) : M unit :=
  fun w => (reply_result ch (journal w) r,
            mk_world (cache_file w) (journal w ++ [Replied r])).

(** [await handle_error(message, e, self.notify.bot, ...)] *)
Definition handle_error (ch : chat) (e : exn) : M unit :=
  fun w => (handle_error_result ch (journal w) e,
            mk_world (cache_file w) (journal w ++ [ErrorHandled e])).

(** [try: body except (bases): handler(e)] *)
Definition try_except_for {A} (bases : list exn_class) (body : M A)
           (handler : exn -> M A) : M A :=
  fun w =>
    match body w with
    | (Ok a, w') => (Ok a, w')
    | (Raise e, w') => if isinstance e bases then handler e w' else (Raise e, w')
    end.

End World.

(** ** handlers/message_handlers.py *)

Module MessageHandler.
Import Json PyDecimal CacheRepository World Formatters PyFloat.

(** The incoming message, as far as the handler reads it:
    [float(message.text)], which is the amount, or the [ValueError] of a
    text that is not a number. *)
Record message := mk_message { float_of_text : result float }.

(** Lines 93-100: the amount, or the reply that rejects it. *)
Definition validate_input (m : message) : result (reply + float) :=
  try_except
    (rub_amount ← float_of_text m;
     if (rub_amount <=? 0)%float then Ok (inl MustBePositive)
     else if (rub_amount <? 10000)%float then Ok (inl MinimumAmount)
     else Ok (inr rub_amount))
    [ValueError]
    (fun _ => Ok (inl OnlyNumber)).

(** Line 130: [(rub_amount / easy_rate) if easy_rate else 0.0] *)
Definition eur_easy_raw (rub_amount : float) (easy_rate : json) : result float :=
  if Json.truthy easy_rate then truediv rub_amount easy_rate else Ok 0%float.

(** Line 133: [not a or a <= 0 or not b or b <= 0] *)
Definition raw_invalid (eur_xe_raw eur_easy_raw : float) : bool :=
  negb (PyFloat.truthy eur_xe_raw) || (eur_xe_raw <=? 0)%float ||
  negb (PyFloat.truthy eur_easy_raw) || (eur_easy_raw <=? 0)%float.

(** Lines 137-139. *)
Definition diff (eur_xe_raw eur_easy_raw : float) : float :=
  abs (eur_xe_raw - eur_easy_raw).

Definition percent_diff (eur_xe_raw eur_easy_raw : float) : float :=
  (diff eur_xe_raw eur_easy_raw / py_min eur_xe_raw eur_easy_raw * 100)%float.

Definition used_value_raw (eur_xe_raw eur_easy_raw : float) : float :=
  if (percent_diff eur_xe_raw eur_easy_raw <=? 10)%float
  then py_max eur_xe_raw eur_easy_raw
  else py_min eur_xe_raw eur_easy_raw.

(** Lines 149-151: [int(Decimal(str(x)).quantize(Decimal("1"),
    rounding=ROUND_HALF_UP))] *)
Definition rounded_to_use (x : float) : result Z :=
  d ← quantize (FloatRepr.Decimal_of_str x) 0 ROUND_HALF_UP;
  to_int d.

(** Lines 59-74: [_update_user_stats]. *)
Definition _update_user_stats (ch : chat) : M unit :=
  match stats_update ch with
  | None => mret ()
  | Some outcome =>
      try_except_M (_ ← emit StatsUpdated; lift outcome) (handle_error ch)
  end.

(** Lines 95-100: the reply that rejects the amount.  The first two are
    awaited inside the [try] whose [except ValueError] sends the third;
    the third is awaited in that [except] clause. *)
Definition reject (ch : chat) (rejection : reply) : M unit :=
  match rejection with
  | OnlyNumber => message_reply ch OnlyNumber
  | _ =>
      try_except_for [ValueError] (message_reply ch rejection)
                     (fun _ => message_reply ch OnlyNumber)
  end.

(** Lines 129-165: from the two raw inputs to the reply. *)
Definition reconcile (ch : chat) (rub_amount eur_xe_raw : float) (easy_rate : json)
           (cache : gmap string json) : M unit :=
  eur_easy ← lift (eur_easy_raw rub_amount easy_rate);
  if raw_invalid eur_xe_raw eur_easy then message_reply ch ZeroInvalidRate
  else
    let used := used_value_raw eur_xe_raw eur_easy in
    eur_xe_show ← lift (trunc2 eur_xe_raw);
    eur_easy_show ← lift (trunc2 eur_easy);
    used_value_show ← lift (trunc2 used);
    rounded ← lift (rounded_to_use used);
    message_reply ch (Converted
      (mk_conversion eur_xe_show eur_easy_show (percent_diff eur_xe_raw eur_easy)
                     used_value_show rounded easy_rate (get cache "updated_at"))).

(** Lines 102-165: the [try] block. *)
Definition convert (svc : services) (ch : chat) (rub_amount : float) : M unit :=
  _ ← emit (XeRequested rub_amount);
  eur_xe_raw ← lift (xe_get_rate svc rub_amount);
  cache ← cache_load;
  match get cache "rate" with
  | JNull =>
      _ ← message_reply ch ReceivingRate;
      _ ← emit EasystaffRequested;
      fetched ← lift (easystaff_get_rate svc);
      match fetched with
      | None => message_reply ch FailedEasystaff
      | Some rate =>
          _ ← cache_save svc rate;
          cache' ← cache_load;
          reconcile ch rub_amount eur_xe_raw (JFloat rate) cache'
      end
  | easy_rate => reconcile ch rub_amount eur_xe_raw easy_rate cache
  end.

(** Lines 92-170: the validation, then the [try] block with its
    [except Exception] clause. *)
Definition handle_text (svc : services) (ch : chat) (m : message) : M unit :=
  v ← lift (validate_input m);
  match v with
  | inl rejection => reject ch rejection
  | inr rub_amount => try_except_M (convert svc ch rub_amount) (handle_error ch)
  end.

(** [MessageHandler.handle_conversion] *)
Definition handle_conversion (svc : services) (ch : chat) (m : message) : M unit :=
  _ ← _update_user_stats ch;
  handle_text svc ch m.

End MessageHandler.

(** ** services/scheduler.py *)

Module Scheduler.
Import Json CacheRepository World.

(** [rate and rate > 0] *)
Definition rate_usable (rate : option float) : bool :=
  match rate with
  | None => false
  | Some r => PyFloat.truthy r && (0 <? r)%float
  end.

(** [str(e)[:200]] *)
Definition error_text (e : exn) : string := String.substring 0 200 (msg e).

(** Lines 177-192: what the task does with the fetched rate. *)
Definition use_rate (svc : services) (context : string) (rate : option float) : M unit :=
  match rate with
  | Some r =>
      if rate_usable rate then
        _ ← cache_save svc r;
        emit (AdminsNotified (UpdateSuccess context r))
      else emit (AdminsNotified (InvalidRateReceived context rate))
  | None => emit (AdminsNotified (InvalidRateReceived context rate))
  end.

(** Lines 194-202: the [except Exception] branch. *)
Definition report_failure (context : string) (e : exn) : M unit :=
  emit (AdminsNotified (UpdateFailed context (error_text e))).

(** [Scheduler._update_rate] *)
Definition _update_rate (svc : services) (context : string) : M unit :=
  try_except_M
    (_ ← emit EasystaffRequested;
     rate ← lift (easystaff_get_rate svc);
     use_rate svc context rate)
    (report_failure context).

End Scheduler.

(** ** main.py: [connect_with_retries] *)

Module Main.
Import PyFloat.
Local Open Scope Z_scope.

(** What the loop does that the caller can observe: how many times
    [make_conn] was awaited and the delays slept, in order. *)
Record trace := mk_trace { attempts : Z; sleeps : list float }.

(** [random.uniform(a, b)] is [a + (b - a) * random()]; [r] is the
    number [random()] drew from the interval from 0 to 1. *)
Definition uniform (a b r : float) : float := (a + (b - a) * r)%float.

(** [min(cap, base * (2 ** (attempt - 1))) * random.uniform(1.0, 1.4)]:
    the power is an [int], converted to float by the multiplication. *)
Definition delay (base cap : float) (attempt : Z) (r : float) : result float :=
  power ← of_int (2 ^ (attempt - 1));
  Ok (py_min cap (base * power) * uniform 1 1.4 r)%float.

(** The body of [for attempt in range(1, retries + 1)], [fuel] being the
    iterations left.  [make_conn n] is the outcome of the [n]-th call,
    [random n] the number [random()] draws after it failed. *)
Fixpoint retry_loop {A} (make_conn : Z -> result A) (random : Z -> float)
         (retries : Z) (base cap : float)
         (fuel : nat) (attempt : Z) (tr : trace) : result (option A) * trace :=
  match fuel with
  | O => (Ok None, tr)
  | S fuel' =>
      let tr1 := mk_trace (attempts tr + 1) (sleeps tr) in
      match make_conn attempt with
      | Ok conn => (Ok (Some conn), tr1)
      | Raise e =>
          if negb (isinstance e [Exception]) then (Raise e, tr1)
          else if attempt =? retries then (Raise e, tr1)
          else
            match delay base cap attempt (random attempt) with
            | Raise e' => (Raise e', tr1)
            | Ok d =>
                retry_loop make_conn random retries base cap fuel' (attempt + 1)
                           (mk_trace (attempts tr1) (sleeps tr1 ++ [d]))
            end
      end
  end.

(** [connect_with_retries(make_conn, retries, base, cap)]; a loop that
    runs out returns [None]. *)
Definition connect_with_retries {A} (make_conn : Z -> result A) (random : Z -> float)
           (retries : Z) (base cap : float) : result (option A) * trace :=
  retry_loop make_conn random retries base cap (Z.to_nat retries) 1 (mk_trace 0 []).

(** The values [main] calls it with: [retries=6, base=0.5, cap=5.0]. *)
Definition default_retries : Z := 6.
Definition default_base : float := 0.5%float.
Definition default_cap : float := 5%float.

End Main.

(** ** Refresh tasks on the event loop *)

Module EventLoop.
Import CacheRepository World Scheduler.

(** The bot runs on one asyncio event loop: a coroutine is left only at
    an [await].  [_update_rate] awaits the provider, and later the
    notification; [self.cache.save] in between is an ordinary call.  So
    one refresh is two uninterrupted segments: up to the
    [await self.easystaff.get_rate()], and from its result to the end
    (no file access follows the second [await]). *)
Definition segment := world -> world.

Definition request : segment :=
  fun w => (emit EasystaffRequested w).2.

Definition resume (svc : services) (context : string) : segment :=
  fun w =>
    (try_except_M (rate ← lift (easystaff_get_rate svc); use_rate svc context rate)
                  (report_failure context) w).2.

Definition refresh (svc : services) (context : string) : list segment :=
  [request; resume svc context].

(** Every order in which the loop can run the segments of two tasks. *)
Fixpoint interleavings {A} (l : list A) : list A -> list (list A) :=
  fix inner (r : list A) : list (list A) :=
    match l, r with
    | [], _ => [r]
    | _, [] => [l]
    | x :: l', y :: r' =>
        map (cons x) (interleavings l' r) ++ map (cons y) (inner r')
    end.

Definition run (schedule : list segment) (w : world) : world :=
  fold_left (fun w s => s w) schedule w.

(** What a reader ([load]) gets after the first [n] segments of a
    schedule. *)
Definition observe (schedule : list segment) (n : nat) (w : world) :=
  load (cache_file (run (take n schedule) w)).

End EventLoop.

(** ** What the spec means by the smaller and the larger of two values *)

Module Spec.



(** The fetched rate when the fetch returned one that is strictly
    positive; [None] when the fetch raised, returned nothing, or returned
    a rate that is not above zero. *)
Definition strictly_positive_rate (fetch : result (option float)) : option float :=
  match fetch with
  | Ok (Some r) => if (0 <? r)%float then Some r else None
  | _ => None
  end.

(** The notifications that report a failed refresh. *)
Definition reports_failure (n : World.notice) : Prop :=
  match n with
  | World.UpdateSuccess _ _ => False
  | _ => True
  end.

(** [2^k] as a float, and the delay of the retry policy after failed
    attempt [n] with jitter [u]:
    [min(cap_delay, base_delay * 2^(n-1)) * u]. *)
Definition pow2 (k : Z) : float :=
  SF2Prim (binary_normalize prec emax (2 ^ k)%Z 0%Z false).

Definition backoff_delay (base cap : float) (n : Z) (u : float) : float :=
  (PyFloat.py_min cap (base * pow2 (n - 1)) * u)%float.

(** The magnitude [c * 10^e] of a finite decimal, as a rational. *)
Definition magnitude (c : N) (e : Z) : Q :=
  if (0 <=? e)%Z then inject_Z (Z.of_N c * 10 ^ e)
  else (Z.of_N c # Z.to_pos (10 ^ (- e)))%Q.

(** The file states one refresh can leave behind: its own complete
    record, or, when its write failed after [open], a truncated file. *)
Definition written_by (svc : World.services) (f : CacheRepository.file_state) : Prop :=
  exists r, World.easystaff_get_rate svc = Ok (Some r) /\ PyFloat.positive r /\
    ((World.disk svc = CacheRepository.NoFault /\ f = CacheRepository.Stored (CacheRepository.Document (Json.JObj (CacheRepository.record r (World.utc_now svc))))) \/
     (World.disk svc = CacheRepository.WriteFails /\ f = CacheRepository.Stored CacheRepository.Malformed)).


(** The events that reach neither provider and do not write the cache. *)
Definition reaches_no_provider (ev : World.event) : Prop :=
  match ev with
  | World.XeRequested _ | World.EasystaffRequested | World.CacheSaved _ _ => False
  | _ => True
  end.

End Spec.

(** ** services/notification.py *)

Module NotificationService.

(** The prefix of every admin message, as the bytes of the source
    literal. *)
Definition bell : string :=
  string_of_list_ascii (map ascii_of_nat [195; 176; 197; 184; 226; 128; 186; 197; 189]%nat).

(** [f"<bell> {message}"] *)
Definition prefixed (message : string) : string := bell ++ " " ++ message.

(** Whether a call returned. *)
Definition succeeded {A} (r : result A) : bool :=
  match r with Ok _ => true | Raise _ => false end.

(** One [self.bot.send_message(admin_id, text)] and how it ended. *)
Record delivery := mk_delivery { admin_id : Z; text : string; delivered : bool }.

(** The two counters of the loop and the sends made so far. *)
Record batch := mk_batch { success_count : Z; fail_count : Z; deliveries : list delivery }.

(** The body of [for admin_id in Settings.ADMIN_IDS]: the send inside
    [try], the counters on either side.  [send_message i] is the outcome of
    the bot's [i]-th send of this batch (counted from 0). *)
Definition send_one (send_message : nat -> Z -> string -> result unit)
           (message : string) (b : batch) (admin : Z) : result batch :=
  let sent := mk_delivery admin (prefixed message) in
  try_except
    (_ ← send_message (length (deliveries b)) admin (prefixed message);
     Ok (mk_batch (success_count b + 1) (fail_count b) (deliveries b ++ [sent true])))
    [Exception]
    (fun _ => Ok (mk_batch (success_count b) (fail_count b + 1) (deliveries b ++ [sent false]))).

Fixpoint send_all (send_message : nat -> Z -> string -> result unit)
         (message : string) (admins : list Z) (b : batch) : result batch :=
  match admins with
  | [] => Ok b
  | admin :: rest =>
      b' ← send_one send_message message b admin;
      send_all send_message message rest b'
  end.

(** [NotificationService.notify_admins(message)]; the value returned here
    is what the method logs in its summary line. *)
Definition notify_admins (send_message : nat -> Z -> string -> result unit)
           (ADMIN_IDS : list Z) (message : string) : result batch :=
  match ADMIN_IDS with
  | [] => Ok (mk_batch 0 0 [])
  | _ => send_all send_message message ADMIN_IDS (mk_batch 0 0 [])
  end.

(** The sends of a complete batch: one to each administrator, in the
    order of [ADMIN_IDS], each marked with how that send ended. *)
Definition one_send_each (send_message : nat -> Z -> string -> result unit)
           (ADMIN_IDS : list Z) (message : string) : list delivery :=
  imap (fun i admin =>
          mk_delivery admin (prefixed message)
                      (succeeded (send_message i admin (prefixed message))))
       ADMIN_IDS.

End NotificationService.

(** ** handlers/error_handler.py *)

Module ErrorHandler.

(** The message that triggered the error, as far as [handle_error] reads
    it, and the exception with its [hash]. *)
Record incoming := mk_incoming { from_user_id : Z; chat_id : Z; message_text : string }.

(** [hash(error) % 1000000]: Python's [%] takes the sign of the divisor. *)
Definition error_id (hash : Z) : Z := (hash mod 1000000)%Z.

(** The text sent to an administrator, by its fields. *)
Record alert := mk_alert {
  alert_id : Z; alert_user : Z; alert_type : exn_class; alert_text : string;
  alert_context : string }.

(** [context or 'n/a'] *)
Definition context_or_na (context : string) : string :=
  if String.eqb context "" then "n/a" else context.

Inductive action :=
| AdminAlert (admin : Z) (a : alert) (ok : bool)   (* bot.send_message(admin_id, text) *)
| Slept (seconds : float)                          (* sleep(0.05) *)
| UserReply (id : Z).                              (* message.reply(...) *)

(** The body of [for i, admin_id in enumerate(Settings.ADMIN_IDS)]; [total]
    is [len(Settings.ADMIN_IDS)]. *)
Definition alert_one (send_message : Z -> Z -> alert -> result unit) (a : alert)
           (total : Z) (i : Z) (admin : Z) (log : list action) : result unit * list action :=
  let '(r, log1) :=
    match send_message i admin a with
    | Ok _ => (Ok (), log ++ [AdminAlert admin a true])
    | Raise e =>
        if isinstance e [Exception] then (Ok (), log ++ [AdminAlert admin a false])
        else (Raise e, log ++ [AdminAlert admin a false])
    end in
  match r with
  | Ok _ => if (i + 1 <? total)%Z then (Ok (), log1 ++ [Slept 0.05]) else (Ok (), log1)
  | Raise e => (Raise e, log1)
  end.

Fixpoint alert_all (send_message : Z -> Z -> alert -> result unit) (a : alert)
         (total : Z) (i : Z) (admins : list Z) (log : list action) : result unit * list action :=
  match admins with
  | [] => (Ok (), log)
  | admin :: rest =>
      match alert_one send_message a total i admin log with
      | (Ok _, log') => alert_all send_message a total (i + 1) rest log'
      | (Raise e, log') => (Raise e, log')
      end
  end.

(** [handle_error(message, error, bot, context)]; [hash] is [hash(error)],
    [reply] the outcome of the final [message.reply]. *)
Definition handle_error (send_message : Z -> Z -> alert -> result unit)
           (reply : result unit) (ADMIN_IDS : list Z)
           (message : incoming) (error : exn) (hash : Z) (context : string)
  : result unit * list action :=
  let id := error_id hash in
  let a := mk_alert id (from_user_id message) (cls error) (msg error) (context_or_na context) in
  match alert_all send_message a (Z.of_nat (length ADMIN_IDS)) 0 ADMIN_IDS [] with
  | (Ok _, log) => (reply, log ++ [UserReply id])
  | (Raise e, log) => (Raise e, log)
  end.

(** A pause of 0.05 s between two consecutive alerts, none after the
    last. *)
Fixpoint paced (alerts : list action) : list action :=
  match alerts with
  | [] => []
  | x :: rest =>
      match rest with
      | [] => [x]
      | _ => x :: Slept 0.05 :: paced rest
      end
  end.

(** One alert to each administrator, in the order of [ADMIN_IDS]. *)
Definition one_alert_each (send_message : Z -> Z -> alert -> result unit) (a : alert)
           (ADMIN_IDS : list Z) : list action :=
  imap (fun i admin =>
          AdminAlert admin a
                     (NotificationService.succeeded (send_message (Z.of_nat i) admin a)))
       ADMIN_IDS.

End ErrorHandler.

(** ** database/connection_async.py *)

Module AsyncDatabaseConnection.

(** A driver connection object, by the order in which
    [asyncmy.connect] made it. *)
Definition handle := nat.

(** The driver calls the wrapper makes, in order. *)
Inductive call :=
| EnsureClosed (h : handle)       (* conn.ensure_closed() *)
| Connect (made : option handle)  (* asyncmy.connect: the connection, or a failure *)
| Ping (h : handle)               (* conn.ping(reconnect=True) *)
| CursorOpened (h : handle)       (* conn.cursor() *)
| CursorClosed (h : handle).      (* cur.close() *)

(** What the driver answers; each answer may depend on the calls made
    before it. *)
Record driver := mk_driver {
  asyncmy_connect : list call -> result handle;
  ensure_closed : list call -> handle -> result unit;
  ping : list call -> handle -> result unit;
  cursor_close : list call -> handle -> result unit }.

(** [self.conn] and the calls made so far. *)
Record db := mk_db { conn : option handle; calls : list call }.

Definition D (A : Type) : Type := db -> result A * db.

(** [AsyncDatabaseConnection.connect] *)
Definition connect (drv : driver) : D unit :=
  fun s =>
    let s1 :=
      match conn s with
      | Some h =>
          (* try: await self.conn.ensure_closed()  except Exception: pass *)
          match try_except (ensure_closed drv (calls s) h) [Exception] (fun _ => Ok ()) with
          | Ok _ => (Ok (), mk_db (conn s) (calls s ++ [EnsureClosed h]))
          | Raise e => (Raise e, mk_db (conn s) (calls s ++ [EnsureClosed h]))
          end
      | None => (Ok (), s)
      end in
    match s1 with
    | (Raise e, s') => (Raise e, s')
    | (Ok _, s') =>
        match asyncmy_connect drv (calls s') with
        | Ok h => (Ok (), mk_db (Some h) (calls s' ++ [Connect (Some h)]))
        | Raise e => (Raise e, mk_db (conn s') (calls s' ++ [Connect None]))
        end
    end.

(** [AsyncDatabaseConnection.ensure_connected]: both [except] clauses
    of the ping reconnect (they differ in the log line only). *)
Definition ensure_connected (drv : driver) : D unit :=
  fun s =>
    match conn s with
    | None => connect drv s
    | Some h =>
        let s1 := mk_db (conn s) (calls s ++ [Ping h]) in
        match ping drv (calls s) h with
        | Ok _ => (Ok (), s1)
        | Raise e => if isinstance e [Exception] then connect drv s1 else (Raise e, s1)
        end
    end.

(** [AsyncDatabaseConnection.cursor] *)
Definition cursor : D handle :=
  fun s =>
    match conn s with
    | None => (Raise (mk_exn RuntimeError "Connection is not established. Call connect() first."), s)
    | Some h => (Ok h, mk_db (conn s) (calls s ++ [CursorOpened h]))
    end.

(** [async with self.get_cursor() as cur: body(cur)]: the health check,
    the cursor, the block, and [cur.close()] in [finally] (an exception
    of the block is logged and raised again; one raised by [close]
    replaces it). *)
Definition get_cursor {A} (drv : driver) (body : handle -> D A) : D A :=
  fun s =>
    match ensure_connected drv s with
    | (Raise e, s1) => (Raise e, s1)
    | (Ok _, s1) =>
        match cursor s1 with
        | (Raise e, s2) => (Raise e, s2)
        | (Ok cur, s2) =>
            let '(r, s3) := body cur s2 in
            let s4 := mk_db (conn s3) (calls s3 ++ [CursorClosed cur]) in
            match cursor_close drv (calls s3) cur with
            | Ok _ => (r, s4)
            | Raise e => (Raise e, s4)
            end
        end
    end.

(** [AsyncDatabaseConnection.close] *)
Definition close (drv : driver) : D unit :=
  fun s =>
    match conn s with
    | None => (Ok (), s)
    | Some h =>
        (* try: ensure_closed  except Exception: log  finally: self.conn = None *)
        (try_except (ensure_closed drv (calls s) h) [Exception] (fun _ => Ok ()),
         mk_db None (calls s ++ [EnsureClosed h]))
    end.

End AsyncDatabaseConnection.

(** ** handlers/commands.py *)

Module Commands.

(** The texts the two commands answer with. *)
Inductive answer :=
| Greeting                       (* "Enter the amount in rubles to convert to EUR:" *)
| TakeAWalk                      (* "Take a walk." *)
| DatabaseDisabled               (* "The database is disabled." *)
| RepositoryNotInitialized       (* "Database unavailable: repository not initialized." *)
| ErrorRetrieving (error_text : string)   (* "Error retrieving statistics: " + str(e)[:200] *)
| Statistics (table : string).   (* the header, one line per active user, the footer *)

Inductive action :=
| Answered (a : answer)          (* message.answer(...) *)
| StatsUpdated                   (* stats_repo.update_user_stats(message.from_user) *)
| StatsQueried.                  (* stats_repo.get_stats() *)

(** The dictionary [get_stats] returned, by what lines 159-196 make of
    it: the text of the table, or the exception that the formatting of a
    row raises. *)
Record stats := mk_stats { formatted : result string }.

(** The repository, when there is one: what its two methods do on this
    call. *)
Record repository := mk_repository {
  update_user_stats : result unit;
  get_stats : result stats }.

Definition C (A : Type) : Type := list action -> result A * list action.

(** [await message.answer(...)]; [message_answer log a] is what the
    call does when made with the text [a] after the actions [log]. *)
Definition say (message_answer : list action -> answer -> result unit) (a : answer) : C unit :=
  fun log => (message_answer log a, log ++ [Answered a]).

(** [cmd_start] *)
Definition cmd_start (message_answer : list action -> answer -> result unit)
           (USE_DB : bool) (stats_repo : option repository) : C unit :=
  fun log =>
    match say message_answer Greeting log with
    | (Raise e, log1) => (Raise e, log1)
    | (Ok _, log1) =>
        if negb USE_DB then (Ok (), log1)
        else
          match stats_repo with
          | None => (Ok (), log1)
          | Some repo =>
              (try_except (update_user_stats repo) [Exception] (fun _ => Ok ()),
               log1 ++ [StatsUpdated])
          end
    end.

(** [cmd_stats]; [user_id] is [message.from_user.id]. *)
Definition cmd_stats (message_answer : list action -> answer -> result unit)
           (ADMIN_IDS : gset Z) (USE_DB : bool) (stats_repo : option repository)
           (user_id : Z) : C unit :=
  fun log =>
    if negb (bool_decide (user_id ∈ ADMIN_IDS)) then say message_answer TakeAWalk log
    else if negb USE_DB then say message_answer DatabaseDisabled log
    else
      match stats_repo with
      | None => say message_answer RepositoryNotInitialized log
      | Some repo =>
          let log1 := log ++ [StatsQueried] in
          match get_stats repo with
          | Raise e =>
              if isinstance e [Exception]
              then say message_answer (ErrorRetrieving (String.substring 0 200 (msg e))) log1
              else (Raise e, log1)
          | Ok st =>
              match formatted st with
              | Raise e => (Raise e, log1)
              | Ok table => say message_answer (Statistics table) log1
              end
          end
      end.

End Commands.

(** ** Python's [str], as far as the two rate parsers use it *)

Module PyStr.
Local Open Scope N_scope.

(** A [str] is a sequence of Unicode code points. *)
Definition char := N.
Definition str := list char.

Definition SPACE : char := 32.
Definition COMMA : char := 44.
Definition MINUS : char := 45.
Definition DOT : char := 46.
Definition NBSP : char := 160.     (* U+00A0 *)
Definition NNBSP : char := 8239.   (* U+202F *)

(** The character tables of the interpreter's Unicode database that the
    parsers consult. *)
Record unicode := mk_unicode {
  isdigit : char -> bool;     (* [ch.isdigit()] *)
  isdecimal : char -> bool;   (* the class [\d] of [re] *)
  isspace : char -> bool }.   (* [ch.isspace()], also the class [\s] of [re] *)

(** The range [0-9]. *)
Definition ascii_digit (c : char) : bool := (48 <=? c) && (c <=? 57).

(** What the proofs use of the tables: the ASCII digits are digits of
    both kinds, and no whitespace character is a digit, a dot, a comma or
    a minus sign. *)
Record plain (u : unicode) : Prop := mk_plain {
  ascii_digits_known :
    forall c, ascii_digit c = true -> isdigit u c = true /\ isdecimal u c = true;
  spaces_apart :
    forall c, isspace u c = true ->
              isdigit u c = false /\ c <> DOT /\ c <> COMMA /\ c <> MINUS }.

(** The characters of a plainly written number: a digit or one of the
    two separators. *)
Definition number_char (c : char) : Prop := ascii_digit c = true \/ c = COMMA \/ c = DOT.

(** The tables cut down to ASCII and the two no-break spaces. *)
Definition ascii_tables : unicode :=
  mk_unicode ascii_digit ascii_digit
             (fun c => (9 <=? c) && (c <=? 13) || (28 <=? c) && (c <=? 32) ||
                       (c =? NBSP) || (c =? NNBSP)).

(** [str] literals for examples: the code points of an ASCII string. *)
Definition of_string (s : string) : str := map N_of_ascii (list_ascii_of_string s).

(** [s.strip()] *)
Fixpoint lstrip (u : unicode) (s : str) : str :=
  match s with
  | c :: s' => if isspace u c then lstrip u s' else s
  | [] => []
  end.

Definition strip (u : unicode) (s : str) : str := rev (lstrip u (rev (lstrip u s))).

(** [s.replace(c, "")] and [s.replace(c, d)] for one-character strings. *)
Definition remove (c : char) (s : str) : str := List.filter (fun x => negb (x =? c)) s.

Definition replace (c d : char) (s : str) : str := map (fun x => if x =? c then d else x) s.

(** [c in s] and [s.count(c)] *)
Definition contains (c : char) (s : str) : bool := existsb (N.eqb c) s.

Definition count (c : char) (s : str) : nat := length (List.filter (N.eqb c) s).

(** [s.rfind(c)]: the last index of [c], or [-1]. *)
Fixpoint rfind_from (c : char) (s : str) (i found : Z) : Z :=
  match s with
  | [] => found
  | x :: s' => rfind_from c s' (i + 1)%Z (if x =? c then i else found)
  end.

Definition rfind (c : char) (s : str) : Z := rfind_from c s 0%Z (-1)%Z.

(** [s.split(c)] *)
Fixpoint split (c : char) (s : str) : list str :=
  match s with
  | [] => [[]]
  | x :: s' =>
      if x =? c then [] :: split c s'
      else
        match split c s' with
        | part :: parts => (x :: part) :: parts
        | [] => [[x]]
        end
  end.

(** [s.isdigit()]: every character is a digit and there is at least one. *)
Definition str_isdigit (u : unicode) (s : str) : bool :=
  match s with
  | [] => false
  | _ => forallb (isdigit u) s
  end.

End PyStr.

(** ** services/converters/xe_service.py: [_normalize_number] *)

Module XeService.
Import PyStr.
Local Open Scope N_scope.

(** [re.sub(r"[^\d,.\-\s\u00A0\u202F]", "", s)] *)
Definition keep_number_chars (u : unicode) (s : str) : str :=
  List.filter (fun c => isdecimal u c || (c =? COMMA) || (c =? DOT) || (c =? MINUS) ||
                        isspace u c || (c =? NBSP) || (c =? NNBSP)) s.

(** Lines 38-69: which separator is the decimal point. *)
Definition resolve_separators (u : unicode) (s : str) : str :=
  let has_comma := contains COMMA s in
  let has_dot := contains DOT s in
  if has_comma && has_dot then
    if (rfind COMMA s <? rfind DOT s)%Z then remove COMMA s
    else replace COMMA DOT (remove DOT s)
  else if has_comma then
    match split COMMA s with
    | [p0; right_part] =>
        if str_isdigit u p0 && str_isdigit u right_part then
          if (length right_part =? 2)%nat then p0 ++ [DOT] ++ right_part
          else if (length right_part =? 3)%nat then p0 ++ right_part
          else p0 ++ [DOT] ++ right_part
        else replace COMMA DOT s
    | _ => replace COMMA DOT s
    end
  else if has_dot then
    match split DOT s with
    | [p0; right_part] =>
        if str_isdigit u p0 && str_isdigit u right_part then
          if (length right_part =? 3)%nat then p0 ++ right_part else s
        else s
    | _ => s
    end
  else s.

(** [re.sub(r"[^0-9.\-]", "", s)] *)
Definition keep_ascii_number (s : str) : str :=
  List.filter (fun c => ascii_digit c || (c =? DOT) || (c =? MINUS)) s.

(** Lines 74-76: all dots but the last are dropped. *)
Definition single_dot (s : str) : str :=
  if (1 <? count DOT s)%nat then
    let last := Z.to_nat (rfind DOT s) in
    remove DOT (take last s) ++ drop last s
  else s.

(** The text [_normalize_number] hands to [float]. *)
Definition normalized (u : unicode) (text : str) : str :=
  let s := strip u text in
  let s := keep_number_chars u s in
  let s := remove NNBSP (remove NBSP (remove SPACE s)) in
  let s := resolve_separators u s in
  let s := keep_ascii_number s in
  single_dot s.

(** [_normalize_number(text)], [float] being the builtin. *)
Definition _normalize_number (u : unicode) (float : str -> result PrimFloat.float)
           (text : str) : result PrimFloat.float :=
  float (normalized u text).

End XeService.

(** ** services/converters/easystaff_service.py: [_parse_rate_text] *)

Module EasystaffService.
Import PyStr.
Local Open Scope N_scope.

(** Lines 47-49: [(text or "").strip()], the three space characters
    removed, the comma made a dot. *)
Definition unspaced (u : unicode) (text : option str) : str :=
  replace COMMA DOT (remove NNBSP (remove NBSP (remove SPACE (strip u (default [] text))))).

(** Lines 51-54: the loop that keeps digits, dots and a minus that comes
    before anything kept. *)
Definition keep (u : unicode) (filtered : str) (ch : char) : str :=
  if isdigit u ch || (ch =? DOT) || ((ch =? MINUS) && match filtered with [] => true | _ => false end)
  then filtered ++ [ch]
  else filtered.

Definition cleaned (u : unicode) (text : option str) : str :=
  fold_left (keep u) (unspaced u text) [].

(** [_parse_rate_text(text)] *)
Definition _parse_rate_text (u : unicode) (float : str -> result PrimFloat.float)
           (text : option str) : result PrimFloat.float :=
  float (cleaned u text).

End EasystaffService.

Module Zulu.
Import PyDatetime.

(** The date and time of [d] in the form [isoformat] writes them,
    without the offset, and the same followed by the UTC designator
    [Z]. *)
Definition local_part (d : datetime) : list ascii :=
  zfill 4 (year d) ++ chars "-" ++ zfill 2 (month d) ++ chars "-" ++ zfill 2 (day d)
  ++ chars "T" ++ zfill 2 (hour d) ++ chars ":" ++ zfill 2 (minute d) ++ chars ":"
  ++ zfill 2 (second d)
  ++ (if (microsecond d =? 0)%N then [] else chars "." ++ zfill 6 (microsecond d)).

Definition zulu (d : datetime) : list ascii := local_part d ++ chars "Z".

End Zulu.

(** * Theorems *)

(** ** The order of binary64 values *)

Section FloatOrder.

Lemma Prim2SF_zero : Prim2SF 0%float = S754_zero false.
Proof. reflexivity. Qed.

Lemma SFcompare_antisym (x y : spec_float) (c : comparison) :
  SFcompare x y = Some c -> SFcompare y x = Some (CompOpp c).
Proof.
  destruct x as [sx|sx| |sx mx ex], y as [sy|sy| |sy my ey]; simpl;
    try discriminate; intros H; inversion H; clear H; subst;
    try (destruct sx; reflexivity); try (destruct sy; reflexivity);
    try (destruct sx, sy; reflexivity).
  destruct sx, sy; try reflexivity.
  - rewrite (Z.compare_antisym ex ey).
    destruct (Z.compare ex ey); simpl; try reflexivity.
    rewrite (Pos.compare_cont_antisym mx my Eq). simpl.
    destruct (Pos.compare_cont Eq my mx); reflexivity.
  - rewrite (Z.compare_antisym ex ey).
    destruct (Z.compare ex ey); simpl; try reflexivity.
    rewrite (Pos.compare_cont_antisym mx my Eq). simpl.
    destruct (Pos.compare_cont Eq my mx); reflexivity.
Qed.

(** A float above zero is neither zero nor at most zero, and is not NaN. *)
Lemma positive_not_zero (x : float) :
  PyFloat.positive x -> (x =? 0)%float = false /\ (x <=? 0)%float = false.
Proof.
  unfold PyFloat.positive. rewrite FloatAxioms.ltb_spec, FloatAxioms.eqb_spec, FloatAxioms.leb_spec, Prim2SF_zero.
  unfold SFltb, SFeqb, SFleb.
  destruct (Prim2SF x) as [s|s| |s m e]; simpl; try discriminate;
    destruct s; simpl; try discriminate; auto.
Qed.








End FloatOrder.

(** ** Reconciliation (message_handlers.py, lines 133-139) *)


(** The two sample pairs of the spec's test list, on the code: 100 against
    105 diverge by 5 percent (the difference over the smaller value) and
    105 is recommended; 100 against 130 diverge by 30 percent and 100 is
    recommended. *)
Example reconcile_100_105 :
  MessageHandler.percent_diff 100 105 = 5%float /\
  MessageHandler.used_value_raw 100 105 = 105%float.
Proof. split; reflexivity. Qed.

Example reconcile_100_130 :
  MessageHandler.percent_diff 100 130 = 30%float /\
  MessageHandler.used_value_raw 100 130 = 100%float.
Proof. split; reflexivity. Qed.

(** ** Running the handlers *)

Lemma issubclass_Exception (c : exn_class) : issubclass c Exception = true.
Proof. destruct c; reflexivity. Qed.

Lemma every_exn_is_an_Exception (e : exn) : isinstance e [Exception] = true.
Proof. destruct e as [[] m]; reflexivity. Qed.

Ltac run_M :=
  unfold World.try_except_M, World.cache_load, World.cache_save, World.lift, World.emit,
    mbind, mret, World.M_bind, World.M_ret, Py.result_bind, Py.result_ret; simpl.

(** ** The rate cache (cache_repo.py) *)

(** C2.  A cache file whose bytes are not valid UTF-8 makes [load] raise:
    the [UnicodeDecodeError] of the read is neither a [JSONDecodeError] nor
    an [IOError], so the [except] clause lets it through. *)
Theorem load_raises_on_undecodable_file :
  exists e,
    CacheRepository.load (CacheRepository.Stored CacheRepository.Undecodable) = Raise e /\
    cls e = UnicodeDecodeError.
Proof. eexists. split; reflexivity. Qed.

(** ** The refresh path (scheduler.py, lines 137-202) *)

Lemma truthy_and_positive (r : float) :
  PyFloat.truthy r && (0 <? r)%float = (0 <? r)%float.
Proof.
  unfold PyFloat.truthy. destruct (0 <? r)%float eqn:E.
  - destruct (positive_not_zero r E) as [-> _]. reflexivity.
  - apply andb_false_r.
Qed.

Lemma save_never_raises (rate : float) (now : PyDatetime.datetime)
      (fault : CacheRepository.disk_fault) (f : CacheRepository.file_state) :
  exists ok, (CacheRepository.save rate now fault f).1 = Ok ok.
Proof. destruct fault; simpl; eauto. Qed.

(** C8.  One refresh, for every answer of the provider.  When the fetch
    returned a strictly positive rate, that rate is saved and success is
    notified.  In every other case (the fetch raised, returned nothing, or
    returned a rate that is not above zero) the cache file is left as it
    was, nothing is saved, and the administrators get a failure notice. *)
Theorem refresh_saves_only_positive_rate
        (svc : World.services) (context : string) (w : World.world) :
  match Spec.strictly_positive_rate (World.easystaff_get_rate svc) with
  | Some r =>
      exists ok,
        CacheRepository.save r (World.utc_now svc) (World.disk svc) (World.cache_file w) =
          (Ok ok, (CacheRepository.save r (World.utc_now svc) (World.disk svc)
                     (World.cache_file w)).2) /\
        Scheduler._update_rate svc context w =
          (Ok (), World.mk_world
                    (CacheRepository.save r (World.utc_now svc) (World.disk svc)
                       (World.cache_file w)).2
                    (World.journal w ++
                       [World.EasystaffRequested; World.CacheSaved r ok;
                        World.AdminsNotified (World.UpdateSuccess context r)]))
  | None =>
      exists n,
        Spec.reports_failure n /\
        Scheduler._update_rate svc context w =
          (Ok (), World.mk_world (World.cache_file w)
                    (World.journal w ++ [World.EasystaffRequested; World.AdminsNotified n]))
  end.
Proof.
  unfold Spec.strictly_positive_rate, Scheduler._update_rate.
  destruct (World.easystaff_get_rate svc) as [[r|]|e] eqn:Hfetch.
  - destruct (0 <? r)%float eqn:Hpos.
    + destruct (save_never_raises r (World.utc_now svc) (World.disk svc) (World.cache_file w))
        as [ok Hok].
      exists ok. split.
      * destruct (CacheRepository.save _ _ _ _) as [res f']. simpl in Hok. now subst.
      * run_M. rewrite truthy_and_positive, Hpos. run_M.
        destruct (CacheRepository.save _ _ _ _) as [res f']. simpl in Hok. subst res. simpl.
        now rewrite <- !app_assoc.
    + eexists. split; cycle 1.
      { run_M. rewrite truthy_and_positive, Hpos. run_M. now rewrite <- !app_assoc. }
      exact I.
  - eexists. split; cycle 1.
    { run_M. now rewrite <- !app_assoc. }
    exact I.
  - eexists. split; cycle 1.
    { run_M. rewrite issubclass_Exception.
      unfold Scheduler.report_failure. run_M. now rewrite <- !app_assoc. }
    exact I.
Qed.

(** ** The guarded division (message_handlers.py, lines 129-134) *)

Lemma equals_zero_falsy (v : Json.json) :
  Json.equals_zero v = true -> Json.truthy v = false.
Proof.
  destruct v; simpl; try discriminate.
  - now destruct b.
  - now intros ->.
  - unfold PyFloat.truthy. now intros ->.
Qed.

(** The guard makes the division total on a zero rate: the raw value is
    [0.0]. *)
Lemma guarded_division_of_zero_rate (rub_amount : float) (v : Json.json) :
  Json.equals_zero v = true -> MessageHandler.eur_easy_raw rub_amount v = Ok 0%float.
Proof.
  intros H. unfold MessageHandler.eur_easy_raw. now rewrite (equals_zero_falsy v H).
Qed.

(** Whatever the rate is, line 130 does not raise [ZeroDivisionError]. *)
Lemma guarded_division_never_divides_by_zero (rub_amount : float) (v : Json.json) (e : exn) :
  MessageHandler.eur_easy_raw rub_amount v = Raise e -> cls e <> ZeroDivisionError.
Proof.
  unfold MessageHandler.eur_easy_raw.
  destruct v; simpl; try discriminate.
  - destruct b; discriminate.
  - destruct (n =? 0)%Z eqn:E; simpl; [discriminate|].
    unfold mbind, result_bind. destruct (PyFloat.of_int n) as [y|e'] eqn:Ey.
    + discriminate.
    + intros [= <-]. unfold PyFloat.of_int in Ey.
      destruct (is_infinity _); [|discriminate]. now inversion Ey.
  - unfold PyFloat.truthy. destruct (x =? 0)%float; simpl; discriminate.
  - destruct (negb (s =? "")%string); [intros [= <-]|]; discriminate.
  - destruct l; [discriminate|]. intros [= <-]. discriminate.
  - destruct (negb (bool_decide (m = ∅))); [intros [= <-]|]; discriminate.
Qed.

Lemma raw_invalid_zero (eur_xe_raw : float) :
  MessageHandler.raw_invalid eur_xe_raw 0 = true.
Proof.
  unfold MessageHandler.raw_invalid.
  destruct (negb (PyFloat.truthy eur_xe_raw)), (eur_xe_raw <=? 0)%float; reflexivity.
Qed.

Lemma load_after_save (rate : float) (now : PyDatetime.datetime)
      (fault : CacheRepository.disk_fault) (f : CacheRepository.file_state)
      (d : gmap string Json.json) :
  CacheRepository.load f = Ok d ->
  exists d', CacheRepository.load (CacheRepository.save rate now fault f).2 = Ok d'.
Proof. intros H. destruct fault; simpl; eauto. Qed.

(** ** ISO-8601 timestamps: printing and reading back *)

Section Timestamps.
Import PyDatetime.
Local Open Scope N_scope.

Lemma digit_cases (n : N) : n < 10 -> In n (map N.of_nat (seq 0 10)).
Proof. intros H. cbn. lia. Qed.

Ltac each_digit n H :=
  apply digit_cases in H; cbn in H;
  repeat (destruct H as [<-|H]; [reflexivity|]); destruct H.

Lemma digit_value_digit (n : N) : n < 10 -> digit_value (digit n) = Some n.
Proof. intros H. each_digit n H. Qed.

Lemma digit_not_space (n : N) : n < 10 -> Formatters.is_space (digit n) = false.
Proof. intros H. each_digit n H. Qed.

(** Reading [w] digits gives back the number [zfill] wrote. *)
Lemma read_digits_zfill (w : nat) (n acc : N) (rest : list ascii) :
  n < 10 ^ N.of_nat w ->
  read_digits w acc (zfill w n ++ rest) = Some (acc * 10 ^ N.of_nat w + n, rest).
Proof.
  revert n acc. induction w as [|w IH]; intros n acc Hn.
  - simpl in *. f_equal. f_equal. lia.
  - cbn [zfill read_digits app].
    assert (Hpow : 10 ^ N.of_nat (S w) = 10 * 10 ^ N.of_nat w).
    { rewrite Nat2N.inj_succ, N.pow_succ_r'. reflexivity. }
    assert (Hpos : 10 ^ N.of_nat w <> 0) by (apply N.pow_nonzero; lia).
    assert (Hq : n / 10 ^ N.of_nat w < 10).
    { apply N.Div0.div_lt_upper_bound. lia. }
    rewrite (digit_value_digit _ Hq).
    rewrite IH by (apply N.mod_lt; exact Hpos).
    f_equal. f_equal. rewrite Hpow.
    pose proof (N.div_mod n (10 ^ N.of_nat w) Hpos). nia.
Qed.

Lemma read_digits_zfill0 (w : nat) (n : N) (rest : list ascii) :
  n < 10 ^ N.of_nat w ->
  read_digits w 0 (zfill w n ++ rest) = Some (n, rest).
Proof. intros H. rewrite read_digits_zfill by exact H. reflexivity. Qed.

Lemma valid_bounds (d : datetime) :
  valid d = true ->
  year d < 10 ^ N.of_nat 4 /\ month d < 10 ^ N.of_nat 2 /\ day d < 10 ^ N.of_nat 2 /\
  hour d < 10 ^ N.of_nat 2 /\ minute d < 10 ^ N.of_nat 2 /\ second d < 10 ^ N.of_nat 2 /\
  microsecond d < 10 ^ N.of_nat 6.
Proof.
  unfold valid. rewrite !andb_true_iff, !N.leb_le, !N.ltb_lt.
  intros [[[[[[[[[? ?] ?] ?] ?] Hday] ?] ?] ?] ?].
  assert (days_in_month (year d) (month d) <= 31).
  { unfold days_in_month. repeat match goal with |- context [if ?b then _ else _] => destruct b end; lia. }
  change (10 ^ N.of_nat 4) with 10000. change (10 ^ N.of_nat 2) with 100.
  change (10 ^ N.of_nat 6) with 1000000. lia.
Qed.

(** [fromisoformat] reads back what [isoformat] printed, as UTC. *)
Lemma fromisoformat_isoformat (d : datetime) :
  valid d = true -> fromisoformat (isoformat d) = Some (d, Some 0%Z).
Proof.
  intros Hv. destruct (valid_bounds d Hv) as (Hy & Hmo & Hd & Hh & Hmi & Hs & Hus).
  unfold fromisoformat, isoformat, chars.
  rewrite list_ascii_of_string_of_list_ascii.
  rewrite (read_digits_zfill0 4 _ _ Hy).
  cbn [mbind option_bind fst snd app list_ascii_of_string expect Ascii.eqb Bool.eqb].
  rewrite (read_digits_zfill0 2 _ _ Hmo).
  cbn [mbind option_bind fst snd app list_ascii_of_string expect Ascii.eqb Bool.eqb].
  rewrite (read_digits_zfill0 2 _ _ Hd).
  cbn [mbind option_bind fst snd app list_ascii_of_string expect Ascii.eqb Bool.eqb].
  rewrite (read_digits_zfill0 2 _ _ Hh).
  cbn [mbind option_bind fst snd app list_ascii_of_string expect Ascii.eqb Bool.eqb].
  rewrite (read_digits_zfill0 2 _ _ Hmi).
  cbn [mbind option_bind fst snd app list_ascii_of_string expect Ascii.eqb Bool.eqb].
  rewrite (read_digits_zfill0 2 _ _ Hs).
  cbn [mbind option_bind fst snd app list_ascii_of_string expect Ascii.eqb Bool.eqb].
  destruct (microsecond d =? 0) eqn:Hzero.
  - apply N.eqb_eq in Hzero.
    cbn [app read_fraction expect Ascii.eqb Bool.eqb mbind option_bind fst snd].
    change (read_offset _) with (Some (Some 0%Z)).
    cbn [mbind option_bind].
    destruct d; simpl in *. subst. rewrite Hv. reflexivity.
  - cbn [app read_fraction expect Ascii.eqb Bool.eqb mbind option_bind fst snd].
    rewrite (read_digits_zfill0 6 _ _ Hus).
    cbn [mbind option_bind fst snd].
    change (read_offset _) with (Some (Some 0%Z)).
    cbn [mbind option_bind].
    destruct d; simpl in *. rewrite Hv. reflexivity.
Qed.


End Timestamps.

(** ** Round trip through the cache (cache_repo.py) *)



(** ** Connection bootstrap (main.py, lines 51-110) *)

Section Bootstrap.
Import Main.
Local Open Scope Z_scope.

Lemma pow2_finite_upto :
  forallb (fun i => negb (is_infinity (Spec.pow2 (Z.of_nat i)))) (seq 0 1024) = true.
Proof. vm_compute. reflexivity. Qed.

(** Up to [2^1023] the power converts to a float. *)
Lemma of_int_pow2 (k : Z) :
  0 <= k <= 1023 -> PyFloat.of_int (2 ^ k) = Ok (Spec.pow2 k).
Proof.
  intros Hk. unfold PyFloat.of_int. fold (Spec.pow2 k).
  pose proof pow2_finite_upto as H. rewrite forallb_forall in H.
  specialize (H (Z.to_nat k)). rewrite Z2Nat.id in H by lia.
  rewrite (proj1 (negb_true_iff _) (H ltac:(apply in_seq; lia))). reflexivity.
Qed.

Lemma delay_is_backoff (base cap : float) (n : Z) (r : float) :
  1 <= n <= 1024 ->
  delay base cap n r = Ok (Spec.backoff_delay base cap n (uniform 1 1.4 r)).
Proof.
  intros Hn. unfold delay. rewrite of_int_pow2 by lia. reflexivity.
Qed.

Context {A : Type} (make_conn : Z -> result A) (random : Z -> float)
        (retries : Z) (base cap : float).

Let waits (k : Z) : list float :=
  map (fun n => Spec.backoff_delay base cap n (uniform 1 1.4 (random n))) (seqZ 1 k).

Lemma waits_snoc (k : Z) :
  0 <= k ->
  waits (k + 1) =
    waits k ++ [Spec.backoff_delay base cap (k + 1) (uniform 1 1.4 (random (k + 1)))].
Proof.
  intros Hk. unfold waits. rewrite seqZ_app by lia. rewrite map_app.
  replace (k + 1 - k) with 1 by lia. replace (1 + k) with (k + 1) by lia. reflexivity.
Qed.

Lemma retry_loop_step (fuel : nat) (a : Z) (tr : trace) :
  retry_loop make_conn random retries base cap (S fuel) a tr =
    let tr1 := mk_trace (attempts tr + 1) (sleeps tr) in
    match make_conn a with
    | Ok conn => (Ok (Some conn), tr1)
    | Raise e =>
        if negb (isinstance e [Exception]) then (Raise e, tr1)
        else if a =? retries then (Raise e, tr1)
        else
          match delay base cap a (random a) with
          | Raise e' => (Raise e', tr1)
          | Ok d =>
              retry_loop make_conn random retries base cap fuel (a + 1)
                         (mk_trace (attempts tr1) (sleeps tr1 ++ [d]))
          end
    end.
Proof. reflexivity. Qed.

(** The loop from attempt [a] on, entered after [a - 1] failed attempts
    that were each followed by their wait. *)
Lemma retry_loop_spec (fuel : nat) (a : Z) (tr : trace) :
  retries <= 1025 ->
  1 <= a ->
  Z.of_nat (S fuel) = retries - a + 1 ->
  attempts tr = a - 1 ->
  sleeps tr = waits (a - 1) ->
  (forall n, 1 <= n < a -> exists e, make_conn n = Raise e) ->
  let run := retry_loop make_conn random retries base cap (S fuel) a tr in
  a <= attempts run.2 <= retries /\
  sleeps run.2 = waits (attempts run.2 - 1) /\
  (forall n, 1 <= n < attempts run.2 -> exists e, make_conn n = Raise e) /\
  match run.1 with
  | Ok (Some conn) => make_conn (attempts run.2) = Ok conn
  | Ok None => False
  | Raise e => attempts run.2 = retries /\ make_conn retries = Raise e
  end.
Proof.
  intros Hmax. revert a tr. induction fuel as [|fuel IH];
    intros a tr Ha Hfuel Hatt Hsl Hfail; cbv zeta; rewrite retry_loop_step; cbv zeta.
  - assert (a = retries) as -> by lia.
    rewrite Z.eqb_refl. destruct (make_conn retries) as [conn|e] eqn:Hc.
    + cbn. rewrite Hatt. replace (retries - 1 + 1) with retries by lia.
      repeat split; try lia; auto.
    + rewrite every_exn_is_an_Exception. cbn.
      rewrite Hatt. replace (retries - 1 + 1) with retries by lia.
      repeat split; try lia; auto.
  - destruct (make_conn a) as [conn|e] eqn:Hc.
    + cbn. rewrite Hatt. replace (a - 1 + 1) with a by lia.
      repeat split; try lia; auto.
    + rewrite every_exn_is_an_Exception. cbn [negb].
      destruct (a =? retries) eqn:Heq; [apply Z.eqb_eq in Heq; lia|].
      rewrite delay_is_backoff by lia. cbn [attempts sleeps].
      pose proof (IH (a + 1)
        (mk_trace (attempts tr + 1)
           (sleeps tr ++ [Spec.backoff_delay base cap a (uniform 1 1.4 (random a))]))) as H.
      cbv zeta in H. destruct H as (Hrange & Hs & Hf & Hres).
      * lia.
      * lia.
      * cbn. lia.
      * cbn. rewrite Hsl. replace (a + 1 - 1) with (a - 1 + 1) by lia.
        rewrite waits_snoc by lia. replace (a - 1 + 1) with a by lia. reflexivity.
      * intros n Hn. destruct (Z.eq_dec n a) as [->|]; [eauto|]. apply Hfail. lia.
      * repeat split; try lia; auto.
Qed.

End Bootstrap.

(** With at most 1025 attempts configured ([main] uses 6), the
    bootstrap awaits [make_conn] at most [retries] times; every attempt
    before the last one made has failed and was followed by a wait of
    [min(cap, base * 2^(n-1)) * uniform(1.0, 1.4)], [n] being the number of
    the failed attempt; and when the call raises, all [retries] attempts
    were made and the exception is the one of the last attempt. *)
Lemma bootstrap_within_1025_attempts
        {A : Type} (make_conn : Z -> result A) (random : Z -> float)
        (retries : Z) (base cap : float) :
  (retries <= 1025)%Z ->
  let run := Main.connect_with_retries make_conn random retries base cap in
  (0 <= Main.attempts run.2 <= Z.max 0 retries)%Z /\
  Main.sleeps run.2 =
    map (fun n => Spec.backoff_delay base cap n (Main.uniform 1 1.4 (random n)))
        (seqZ 1 (Main.attempts run.2 - 1)) /\
  (forall n, (1 <= n < Main.attempts run.2)%Z -> exists e, make_conn n = Raise e) /\
  match run.1 with
  | Ok (Some conn) => make_conn (Main.attempts run.2) = Ok conn
  | Ok None => (retries <= 0)%Z
  | Raise e => Main.attempts run.2 = retries /\ make_conn retries = Raise e
  end.
Proof.
  intros Hmax. unfold Main.connect_with_retries.
  destruct (Z.to_nat retries) as [|fuel] eqn:Hfuel.
  - cbn. repeat split; lia.
  - pose proof (retry_loop_spec make_conn random retries base cap fuel 1
                  (Main.mk_trace 0 []) Hmax) as H.
    cbv zeta in *.
    assert (Hlen : Z.of_nat (S fuel) = (retries - 1 + 1)%Z) by lia.
    assert (Hnone : forall n, (1 <= n < 1)%Z -> exists e, make_conn n = Raise e) by lia.
    destruct (H ltac:(lia) Hlen eq_refl eq_refl Hnone) as (Hrange & Hs & Hf & Hres).
    repeat split; try lia; auto.
    destruct (Main.retry_loop _ _ _ _ _ _ _ _).1 as [[conn|]|e]; auto. contradiction.
Qed.

(** With the values of [main] and a database that never answers: six
    attempts, the waits 0.5, 1, 2, 4 and 5 seconds times the jitter (here
    the lowest, 1.0), and the last connection error. *)
Example bootstrap_six_failures :
  Main.connect_with_retries
    (fun n : Z => @Raise unit (mk_exn OSError (if (n =? 6)%Z then "last" else "refused")))
    (fun _ => 0%float) Main.default_retries Main.default_base Main.default_cap =
  (Raise (mk_exn OSError "last"), Main.mk_trace 6 [0.5; 1; 2; 4; 5]%float).
Proof. reflexivity. Qed.

(** The jitter for three draws of [random()]: the lowest, the middle
    and the highest below 1. *)
Example jitter_samples :
  map (Main.uniform 1 1.4) [0; 0.5; 0.9999999999999999]%float = [1; 1.2; 1.4]%float.
Proof. vm_compute. reflexivity. Qed.

(** C9.  The bootstrap does not always end with the last connection
    error after the configured number of attempts.  With 1026 attempts
    configured and a database that never answers, the delay after the
    1025th failed attempt needs [2 ** 1024] as a float: the conversion
    raises [OverflowError], and that is what the caller gets, one
    attempt short of the configured number. *)
Theorem bootstrap_overflow_at_1026 :
  let run := Main.connect_with_retries
               (fun _ : Z => @Raise unit (mk_exn OSError "connection refused"))
               (fun _ : Z => 0%float) 1026 Main.default_base Main.default_cap in
  (exists e, run.1 = Raise e /\ cls e = OverflowError) /\
  run.1 <> Raise (mk_exn OSError "connection refused") /\
  Main.attempts run.2 = 1025%Z.
Proof.
  vm_compute. split; [eexists; split; reflexivity|]. split; [discriminate|reflexivity].
Qed.

(** ** What [str] prints, on samples *)

(** [str(0.1)] is ['0.1'], [str(100.0)] is ['100.0'], [str(1e22)] is
    ['1e+22'], [str(0.1 + 0.2)] is ['0.30000000000000004'] and
    [str(5e-324)] is ['5e-324']; each reads back as the float it came
    from. *)
Example Decimal_of_str_samples :
  map FloatRepr.Decimal_of_str [0.1; 100; 1e22; 0.1 + 0.2; 5e-324]%float =
    [PyDecimal.Finite false 1 (-1); PyDecimal.Finite false 1000 (-1);
     PyDecimal.Finite false 1 22; PyDecimal.Finite false 30000000000000004 (-17);
     PyDecimal.Finite false 5 (-324)].
Proof. vm_compute. reflexivity. Qed.

Example to_float_of_str_samples :
  map (fun x => PyDecimal.to_float (FloatRepr.Decimal_of_str x))
      [0.1; 100; 1e22; 0.1 + 0.2; 5e-324; 89.25; 1342.455]%float =
    [0.1; 100; 1e22; 0.1 + 0.2; 5e-324; 89.25; 1342.455]%float.
Proof. vm_compute. reflexivity. Qed.

(** ** Decimal quantisation: truncation for display, half-up for invoicing *)

Section Digits.
Import PyDecimal.
Local Open Scope Z_scope.

Lemma size_nat_bound (p : positive) : Z.pos p < 2 ^ Z.of_nat (Pos.size_nat p).
Proof.
  induction p as [p IH|p IH|]; cbn [Pos.size_nat];
    rewrite ?Nat2Z.inj_succ, ?Z.pow_succ_r by lia; lia.
Qed.

Lemma N_size_nat_bound (c : N) : Z.of_N c < 2 ^ Z.of_nat (N.size_nat c).
Proof. destruct c as [|p]; [reflexivity|]. apply size_nat_bound. Qed.

(** The digit count brackets the coefficient between two powers of ten. *)
Lemma ndigits_fuel_spec (fuel : nat) (c : N) :
  Z.of_N c < 2 ^ Z.of_nat fuel ->
  1 <= ndigits_fuel fuel c /\
  Z.of_N c < 10 ^ ndigits_fuel fuel c /\
  (0 < Z.of_N c -> 10 ^ (ndigits_fuel fuel c - 1) <= Z.of_N c).
Proof.
  revert c. induction fuel as [|fuel IH]; intros c Hc.
  - cbn in *. lia.
  - cbn [ndigits_fuel]. destruct (c <? 10)%N eqn:E.
    + apply N.ltb_lt in E. cbn. lia.
    + apply N.ltb_ge in E.
      rewrite Nat2Z.inj_succ, Z.pow_succ_r in Hc by lia.
      assert (Hdiv : Z.of_N (c / 10) = Z.of_N c / 10) by (rewrite N2Z.inj_div; reflexivity).
      pose proof (Z.div_mod (Z.of_N c) 10 ltac:(lia)) as Hdm.
      pose proof (Z.mod_pos_bound (Z.of_N c) 10 ltac:(lia)) as Hmod.
      destruct (IH (c / 10)%N) as (H1 & H2 & H3); [lia|].
      set (n' := ndigits_fuel fuel (c / 10)) in *.
      replace (1 + n' - 1) with (Z.succ (n' - 1)) by lia.
      replace (1 + n') with (Z.succ n') by lia.
      rewrite !Z.pow_succ_r by lia.
      assert (Hp : 10 ^ n' = 10 * 10 ^ (n' - 1)).
      { rewrite <- Z.pow_succ_r by lia. f_equal. lia. }
      split; [lia|]. split; [lia|]. intros _. specialize (H3 ltac:(lia)). lia.
Qed.

Lemma ndigits_spec (c : N) :
  1 <= ndigits c /\ Z.of_N c < 10 ^ ndigits c /\
  (0 < Z.of_N c -> 10 ^ (ndigits c - 1) <= Z.of_N c).
Proof. apply ndigits_fuel_spec, N_size_nat_bound. Qed.

Lemma ndigits_le (c : N) (n : Z) : 1 <= n -> Z.of_N c < 10 ^ n -> ndigits c <= n.
Proof.
  intros Hn Hc. destruct (ndigits_spec c) as (H1 & _ & H3).
  destruct (Z.eq_dec (Z.of_N c) 0) as [Hz|Hz].
  - assert (c = 0%N) as -> by lia. cbn. lia.
  - specialize (H3 ltac:(lia)).
    destruct (Z_le_gt_dec (ndigits c) n) as [|Hgt]; [assumption|].
    assert (10 ^ n <= 10 ^ (ndigits c - 1)) by (apply Z.pow_le_mono_r; lia). lia.
Qed.

End Digits.

Section Quantize.
Local Open Scope Z_scope.

Import PyDecimal.
Local Abbreviation mag := Spec.magnitude.

Lemma Qabs_value (s : bool) (c : N) (e : Z) : Qabs (value (Finite s c e)) = mag c e.
Proof.
  unfold value, Spec.magnitude.
  assert (Habs : Z.abs (if s then - Z.of_N c else Z.of_N c) = Z.of_N c).
  { destruct s; [rewrite Z.abs_opp|]; apply Z.abs_eq; lia. }
  destruct (0 <=? e) eqn:E; unfold inject_Z; cbn [Qabs].
  - apply Z.leb_le in E.
    rewrite Z.abs_mul, Habs, (Z.abs_eq (10 ^ e)) by (apply Z.pow_nonneg; lia).
    reflexivity.
  - now rewrite Habs.
Qed.

Lemma pow10_pos (k : Z) : 0 <= k -> 0 < 10 ^ k.
Proof. intros. apply Z.pow_pos_nonneg; lia. Qed.

Lemma pos_pow10 (k : Z) : 0 <= k -> Z.pos (Z.to_pos (10 ^ k)) = 10 ^ k.
Proof. intros. apply Z2Pos.id, pow10_pos. assumption. Qed.

(** A magnitude below [10^p] puts the leading digit below position [p]. *)
Lemma mag_lt_adjusted (c : N) (e p : Z) :
  c <> 0%N -> 0 <= p -> (mag c e < inject_Z (10 ^ p))%Q -> adjusted c e < p.
Proof.
  intros Hc Hp Hlt. destruct (ndigits_spec c) as (H1 & _ & H3).
  specialize (H3 ltac:(lia)). unfold adjusted.
  destruct (Z_lt_le_dec (e + ndigits c - 1) p) as [|Hge]; [assumption|exfalso].
  unfold Spec.magnitude in Hlt. destruct (0 <=? e) eqn:E.
  - apply Z.leb_le in E. unfold Qlt in Hlt. cbn in Hlt. rewrite !Z.mul_1_r in Hlt.
    assert (10 ^ p <= 10 ^ (e + (ndigits c - 1))) by (apply Z.pow_le_mono_r; lia).
    rewrite Z.pow_add_r in * by lia.
    pose proof (pow10_pos e E). nia.
  - apply Z.leb_gt in E. unfold Qlt in Hlt. cbn in Hlt.
    rewrite pos_pow10, Z.mul_1_r in Hlt by lia.
    assert (10 ^ (p + - e) <= 10 ^ (ndigits c - 1)) by (apply Z.pow_le_mono_r; lia).
    rewrite Z.pow_add_r in * by lia. lia.
Qed.

Lemma rescale_bound (c : N) (e exp n : Z) (r : rounding) :
  exp <= 0 -> 0 <= n -> adjusted c e - exp + 1 <= n ->
  Z.of_N (rescale c e exp r) < 10 ^ n + match r with ROUND_DOWN => 0 | ROUND_HALF_UP => 1 end.
Proof.
  intros Hexp Hn Hadj. destruct (ndigits_spec c) as (H1 & H2 & _).
  unfold adjusted in Hadj. unfold rescale.
  destruct (exp <=? e) eqn:E.
  - apply Z.leb_le in E. rewrite N2Z.inj_mul, N2Z.inj_pow, Z2N.id by lia. cbn [Z.of_N].
    assert (10 ^ (ndigits c + (e - exp)) <= 10 ^ n) by (apply Z.pow_le_mono_r; lia).
    rewrite Z.pow_add_r in * by lia. pose proof (pow10_pos (e - exp) ltac:(lia)).
    destruct r; nia.
  - apply Z.leb_gt in E.
    set (k := exp - e) in *.
    assert (Hk : 0 < 10 ^ k) by (apply pow10_pos; lia).
    assert (Hkept : Z.of_N (c / 10 ^ Z.to_N k) < 10 ^ n).
    { rewrite N2Z.inj_div, N2Z.inj_pow, Z2N.id by lia. cbn [Z.of_N].
      apply Z.div_lt_upper_bound; [assumption|].
      assert (10 ^ ndigits c <= 10 ^ (k + n)) by (apply Z.pow_le_mono_r; lia).
      rewrite Z.pow_add_r in * by lia. lia. }
    destruct r; [lia|]. destruct (_ <=? _)%N; [rewrite N2Z.inj_add|]; cbn; lia.
Qed.

(** [quantize] succeeds on a finite value whose leading digit is at
    position [10^25] or below. *)
Lemma quantize_ok (s : bool) (c : N) (e exp : Z) (r : rounding) :
  (exp = -2 /\ r = ROUND_DOWN) \/ (exp = 0 /\ r = ROUND_HALF_UP) ->
  c = 0%N \/ adjusted c e <= 25 ->
  quantize (Finite s c e) exp r =
    Ok (Finite s (if (c =? 0)%N then 0%N else rescale c e exp r) exp).
Proof.
  intros Hmode Hadj. unfold quantize. destruct (c =? 0)%N eqn:Hc; [reflexivity|].
  apply N.eqb_neq in Hc. destruct Hadj as [|Hadj]; [contradiction|].
  assert (Hexp : exp <= 0) by lia.
  assert (H1 : (Emax <? adjusted c e) = false) by (apply Z.ltb_ge; unfold Emax; lia).
  assert (H2 : (prec <? adjusted c e - exp + 1) = false) by (apply Z.ltb_ge; unfold prec; lia).
  rewrite H1, H2.
  assert (Hc' : Z.of_N (rescale c e exp r) < 10 ^ 28).
  { destruct Hmode as [[-> ->]|[-> ->]].
    - pose proof (rescale_bound c e (-2) 28 ROUND_DOWN ltac:(lia) ltac:(lia) ltac:(lia)). lia.
    - pose proof (rescale_bound c e 0 26 ROUND_HALF_UP ltac:(lia) ltac:(lia) ltac:(lia)). lia. }
  pose proof (ndigits_le _ 28 ltac:(lia) Hc') as Hnd.
  assert (H3 : (Emax <? adjusted (rescale c e exp r) exp) = false).
  { apply Z.ltb_ge. unfold adjusted, Emax. lia. }
  assert (H4 : (prec <? ndigits (rescale c e exp r)) = false).
  { apply Z.ltb_ge. unfold prec. lia. }
  cbv zeta. rewrite H3, H4. reflexivity.
Qed.

Lemma mag_hundredths (r : N) : mag r (-2) = (Z.of_N r # 100)%Q.
Proof. reflexivity. Qed.

Lemma rescale_down_value (c : N) (e : Z) :
  Z.of_N (rescale c e (-2) ROUND_DOWN) =
    if -2 <=? e then Z.of_N c * 10 ^ (e + 2) else Z.of_N c / 10 ^ (-2 - e).
Proof.
  unfold rescale. destruct (-2 <=? e) eqn:E.
  - apply Z.leb_le in E. rewrite N2Z.inj_mul, N2Z.inj_pow, Z2N.id by lia.
    do 2 f_equal; lia.
  - apply Z.leb_gt in E. rewrite N2Z.inj_div, N2Z.inj_pow, Z2N.id by lia. reflexivity.
Qed.

(** Truncation: nothing is added, and less than a hundredth is lost. *)
Lemma rescale_down_truncates (c : N) (e : Z) :
  (mag (rescale c e (-2) ROUND_DOWN) (-2) <= mag c e)%Q /\
  (mag c e - mag (rescale c e (-2) ROUND_DOWN) (-2) < 1 # 100)%Q.
Proof.
  rewrite mag_hundredths, rescale_down_value. unfold Spec.magnitude.
  destruct (-2 <=? e) eqn:E.
  - apply Z.leb_le in E. destruct (0 <=? e) eqn:E0.
    + apply Z.leb_le in E0. rewrite Z.pow_add_r by lia. change (10 ^ 2) with 100.
      unfold Qle, Qlt, Qminus, Qplus, Qopp, inject_Z; cbn [Qnum Qden]. lia.
    + apply Z.leb_gt in E0. assert (e = -1 \/ e = -2) as [-> | ->] by lia;
        unfold Qle, Qlt, Qminus, Qplus, Qopp; cbn; lia.
  - apply Z.leb_gt in E. replace (0 <=? e) with false by (symmetry; apply Z.leb_gt; lia).
    set (k := -2 - e).
    assert (Hk : 0 < 10 ^ k) by (apply pow10_pos; lia).
    replace (- e) with (k + 2) by lia. rewrite Z.pow_add_r by lia. change (10 ^ 2) with 100.
    pose proof (Z.div_mod (Z.of_N c) (10 ^ k) ltac:(lia)) as Hdm.
    pose proof (Z.mod_pos_bound (Z.of_N c) (10 ^ k) Hk) as Hmod.
    unfold Qle, Qlt, Qminus, Qplus, Qopp. cbn [Qnum Qden].
    rewrite ?Pos2Z.inj_mul, ?Z2Pos.id by lia. split; nia.
Qed.

End Quantize.



(** The samples of the spec: 1342.455 is shown as 1342.45 and 10.999 as
    10.99; a recommended value of 100.5 is invoiced as 101. *)
Example trunc2_1342_455 : Formatters.trunc2 1342.455 = Ok 1342.45%float.
Proof. vm_compute. reflexivity. Qed.

Example trunc2_10_999 : Formatters.trunc2 10.999 = Ok 10.99%float.
Proof. vm_compute. reflexivity. Qed.

Example rounded_to_use_100_5 : MessageHandler.rounded_to_use 100.5 = Ok 101%Z.
Proof. vm_compute. reflexivity. Qed.

(** The value [trunc2] returns is printed by the reply with [:.2f],
    which rounds the float's exact value to two decimals, ties to even. *)
Example format_2f_samples :
  map FloatRepr.format_2f [1342.45; 10.99; 0.125; 0.375; 2.675]%float =
    [PyDecimal.Finite false 134245 (-2); PyDecimal.Finite false 1099 (-2);
     PyDecimal.Finite false 12 (-2); PyDecimal.Finite false 38 (-2);
     PyDecimal.Finite false 267 (-2)].
Proof. vm_compute. reflexivity. Qed.

(** C6.  The display value is not, for every numeric value, the raw
    value cut to two decimals.  [trunc2] cuts the digits that [str]
    prints, and the reply prints the float it returns with [:.2f].  The
    raw value 1000000000000000.375 is printed by [str] as
    1000000000000000.4; cut to two decimals that is 1000000000000000.40,
    whose nearest float is the raw value again; and [:.2f] shows it as
    1000000000000000.38, half a cent above the raw value, where the
    truncation is 1000000000000000.37.  And at [1e26] the two-decimal
    result needs 29 digits, one more than the decimal context holds:
    [trunc2] raises [InvalidOperation] and nothing is shown. *)
Theorem display_value_rounded_up_or_refused :
  let x := 1000000000000000.375%float in
  (FloatRepr.exact_value x == 1000000000000000375 # 1000)%Q /\
  FloatRepr.Decimal_of_str x = PyDecimal.Finite false 10000000000000004 (-1) /\
  Formatters.trunc2 x = Ok x /\
  FloatRepr.format_2f x = PyDecimal.Finite false 100000000000000038 (-2) /\
  (FloatRepr.exact_value x < PyDecimal.value (FloatRepr.format_2f x))%Q /\
  (exists e, Formatters.trunc2 1e26 = Raise e /\ cls e = InvalidOperation) /\
  (exists e, MessageHandler.rounded_to_use 1e28 = Raise e /\ cls e = InvalidOperation).
Proof.
  cbv zeta. split; [vm_compute; reflexivity|]. split; [vm_compute; reflexivity|].
  split; [vm_compute; reflexivity|]. split; [vm_compute; reflexivity|].
  split; [vm_compute; reflexivity|].
  split; eexists; (split; [vm_compute; reflexivity|reflexivity]).
Qed.

(** ** Interleaved refreshes (scheduler.py and cache_repo.py, lines 122-133) *)

Section Interleaving.
Import CacheRepository World Scheduler EventLoop.

(** The two segments are the refresh itself, cut at its first [await]. *)
Lemma refresh_segments_are_update_rate (svc : services) (context : string) (w : world) :
  _update_rate svc context w = (Ok (), run (refresh svc context) w).
Proof.
  unfold _update_rate, refresh, run, request, resume. cbn [fold_left]. run_M.
  destruct (easystaff_get_rate svc) as [[r|]|e]; cbn.
  - unfold use_rate, rate_usable. destruct (PyFloat.truthy r && (0 <? r)%float); run_M.
    + destruct (save_never_raises r (utc_now svc) (disk svc) (cache_file w)) as [ok Hok].
      destruct (save r (utc_now svc) (disk svc) (cache_file w)) as [res f'].
      cbn in Hok. subst res. reflexivity.
    + reflexivity.
  - reflexivity.
  - destruct e as [[] m]; reflexivity.
Qed.

(** What a schedule is made of. *)
Lemma interleavings_In {A} (l r s : list A) :
  In s (interleavings l r) -> forall x, In x s -> In x l \/ In x r.
Proof.
  revert r s. induction l as [|a l IHl]; intros r s Hs x Hx.
  - destruct r; cbn in Hs; destruct Hs as [<-|[]]; auto.
  - induction r as [|b r IHr] in s, Hs, x, Hx |- *.
    + cbn in Hs. destruct Hs as [<-|[]]. auto.
    + cbn [interleavings] in Hs. apply in_app_or in Hs.
      destruct Hs as [Hs|Hs]; apply in_map_iff in Hs; destruct Hs as (s' & <- & Hs').
      * destruct Hx as [<-|Hx]; [left; now left|].
        destruct (IHl _ _ Hs' _ Hx) as [H|H]; [left; now right|now right].
      * destruct Hx as [<-|Hx]; [right; now left|].
        destruct (IHr _ Hs' _ Hx) as [H|H]; [now left|right; now right].
Qed.

Lemma segment_effect (svc : services) (context : string) (seg : segment) (w : world) :
  In seg (refresh svc context) ->
  cache_file (seg w) = cache_file w \/ Spec.written_by svc (cache_file (seg w)).
Proof.
  intros [<-|[<-|[]]].
  - now left.
  - unfold resume. run_M.
    destruct (easystaff_get_rate svc) as [[r|]|e] eqn:Hfetch; cbn.
    + unfold use_rate, rate_usable. rewrite truthy_and_positive.
      destruct (0 <? r)%float eqn:Hpos; run_M; [|now left].
      unfold Spec.written_by.
      destruct (disk svc) eqn:Hdisk; cbn; try (now left); right; exists r;
        (split; [exact Hfetch|split; [exact Hpos|]]); rewrite ?Hdisk; [left|right]; now split.
    + now left.
    + destruct e as [[] m]; now left.
Qed.

Lemma run_invariant (P : file_state -> Prop) (l : list segment) (w : world) :
  (forall seg w', In seg l -> cache_file (seg w') = cache_file w' \/ P (cache_file (seg w'))) ->
  cache_file (run l w) = cache_file w \/ P (cache_file (run l w)).
Proof.
  revert w. induction l as [|seg l IH]; intros w Hstep; [now left|].
  unfold run in *. cbn [fold_left].
  destruct (IH (seg w)) as [H|H].
  - intros seg' w' Hin. apply Hstep. now right.
  - rewrite H. apply Hstep. now left.
  - now right.
Qed.

End Interleaving.

(** C4, as the code has it.  Take any order in which the event loop runs
    the segments of two refreshes, and stop after any number of segments
    (a point where a reader can run).  The cache file is then the file as
    it was before, or the complete record of one of the two refreshes, or,
    only for a refresh whose write failed after the file was opened, a
    truncated file; a reader gets the stored record in the first two
    cases and the empty record in the last. *)
Theorem interleaved_refreshes_leave_old_new_or_failed_write
        (svc1 svc2 : World.services) (context1 context2 : string)
        (w : World.world) (schedule : list EventLoop.segment) (n : nat) :
  In schedule (EventLoop.interleavings (EventLoop.refresh svc1 context1)
                                       (EventLoop.refresh svc2 context2)) ->
  let f := World.cache_file (EventLoop.run (take n schedule) w) in
  EventLoop.observe schedule n w = CacheRepository.load f /\
  (f = World.cache_file w \/ Spec.written_by svc1 f \/ Spec.written_by svc2 f) /\
  (forall svc, Spec.written_by svc f ->
     (World.disk svc = CacheRepository.NoFault /\
      exists r, World.easystaff_get_rate svc = Ok (Some r) /\
                CacheRepository.load f = Ok (CacheRepository.record r (World.utc_now svc))) \/
     (World.disk svc = CacheRepository.WriteFails /\ CacheRepository.load f = Ok ∅)).
Proof.
  intros Hin f. split; [reflexivity|]. split.
  - subst f.
    destruct (run_invariant (fun f => Spec.written_by svc1 f \/ Spec.written_by svc2 f)
                (take n schedule) w) as [H|H]; auto.
    intros seg w' Hseg.
    assert (Hs : In seg schedule).
    { rewrite <- (take_drop n schedule). apply in_or_app. now left. }
    destruct (interleavings_In _ _ _ Hin seg Hs) as [H1|H2].
    + destruct (segment_effect svc1 context1 seg w' H1); auto.
    + destruct (segment_effect svc2 context2 seg w' H2); auto.
  - intros svc (r & Hfetch & _ & [[Hdisk ->]|[Hdisk ->]]).
    + left. split; [exact Hdisk|]. exists r. split; [exact Hfetch|reflexivity].
    + right. split; [exact Hdisk|reflexivity].
Qed.

Lemma interleaved_refreshes_leave_old_new_or_failed_write_witness :
  let now := PyDatetime.mk_datetime 2025 11 11 9 30 0 0 in
  let svc1 := World.mk_services (fun _ => Ok 100%float) (Ok (Some 90.5%float)) now
                                CacheRepository.NoFault in
  let svc2 := World.mk_services (fun _ => Ok 100%float) (Ok (Some 91%float)) now
                                CacheRepository.NoFault in
  let w := World.mk_world CacheRepository.Absent [] in
  let schedule := [EventLoop.request; EventLoop.request;
                   EventLoop.resume svc1 "morning"; EventLoop.resume svc2 "daily"] in
  let f := World.cache_file (EventLoop.run (take 3 schedule) w) in
  EventLoop.observe schedule 3 w = CacheRepository.load f /\
  (f = World.cache_file w \/ Spec.written_by svc1 f \/ Spec.written_by svc2 f) /\
  (forall svc, Spec.written_by svc f ->
     (World.disk svc = CacheRepository.NoFault /\
      exists r, World.easystaff_get_rate svc = Ok (Some r) /\
                CacheRepository.load f = Ok (CacheRepository.record r (World.utc_now svc))) \/
     (World.disk svc = CacheRepository.WriteFails /\ CacheRepository.load f = Ok ∅)).
Proof.
  intros now svc1 svc2 w schedule.
  apply (interleaved_refreshes_leave_old_new_or_failed_write
           svc1 svc2 "morning" "daily" w schedule 3).
  cbn. repeat ((left; reflexivity) || right).
Defined.

(** C4 as stated fails when a write fails.  The cache holds a complete
    record; two refreshes run interleaved; the first one's write fails
    after [open] has truncated the file (a full disk).  At the next
    suspension point the file is not a JSON document, and a reader gets
    the empty record: neither the old record nor a new one. *)
Lemma failed_write_leaves_truncated_file :
  let t0 := PyDatetime.mk_datetime 2025 11 11 9 30 0 0 in
  let t1 := PyDatetime.mk_datetime 2025 11 11 12 0 0 0 in
  let old := CacheRepository.record 89.25 t0 in
  let w := World.mk_world (CacheRepository.Stored (CacheRepository.Document (Json.JObj old))) [] in
  let svc1 := World.mk_services (fun _ => Ok 100%float) (Ok (Some 90.5%float)) t1
                                CacheRepository.WriteFails in
  let svc2 := World.mk_services (fun _ => Ok 100%float) (Ok (Some 91%float)) t1
                                CacheRepository.NoFault in
  let schedule := [EventLoop.request; EventLoop.request;
                   EventLoop.resume svc1 "morning"; EventLoop.resume svc2 "daily"] in
  In schedule (EventLoop.interleavings (EventLoop.refresh svc1 "morning")
                                       (EventLoop.refresh svc2 "daily")) /\
  World.cache_file (EventLoop.run (take 3 schedule) w) =
    CacheRepository.Stored CacheRepository.Malformed /\
  EventLoop.observe schedule 3 w = Ok ∅ /\
  EventLoop.observe schedule 3 w <> Ok old /\
  EventLoop.observe schedule 3 w <> Ok (CacheRepository.record 90.5 t1) /\
  EventLoop.observe schedule 3 w <> Ok (CacheRepository.record 91 t1).
Proof.
  intros t0 t1 old w svc1 svc2 schedule.
  assert (Hobs : EventLoop.observe schedule 3 w = Ok ∅) by (vm_compute; reflexivity).
  split; [cbn; repeat ((left; reflexivity) || right)|].
  split; [vm_compute; reflexivity|].
  split; [exact Hobs|].
  rewrite Hobs.
  repeat split; intros [= H]; apply (f_equal (fun m => m !! "rate")) in H;
    vm_compute in H; discriminate.
Qed.

(** ** Which amounts and which raw values pass the two validations *)

Section Gates.

Lemma SFcompare_refl_finite (s : bool) (m : positive) (e : Z) :
  SFcompare (S754_finite s m e) (S754_finite s m e) = Some Eq.
Proof.
  cbn. rewrite Z.compare_refl. destruct s; [|now rewrite Pos.compare_refl].
  rewrite Pos.compare_refl. reflexivity.
Qed.

(** [not x or x <= 0] fails exactly for a positive number and for NaN. *)
Lemma passes_positivity (x : float) :
  negb (PyFloat.truthy x) || (x <=? 0)%float = false <->
  PyFloat.positive x \/ is_nan x = true.
Proof.
  unfold PyFloat.truthy, PyFloat.positive, is_nan.
  rewrite !FloatAxioms.eqb_spec, FloatAxioms.leb_spec, FloatAxioms.ltb_spec, Prim2SF_zero.
  unfold SFeqb, SFleb, SFltb.
  destruct (Prim2SF x) as [s|s| |s m e].
  - destruct s; cbn; intuition discriminate.
  - destruct s; cbn; intuition discriminate.
  - cbn. intuition discriminate.
  - rewrite SFcompare_refl_finite. destruct s; cbn; intuition discriminate.
Qed.

(** [x <= 0] and [x < 10000] both fail exactly for a number that is at
    least 10000 and for NaN. *)
Lemma passes_amount_checks (x : float) :
  (x <=? 0)%float = false /\ (x <? 10000)%float = false <->
  (10000 <=? x)%float = true \/ is_nan x = true.
Proof.
  unfold is_nan.
  rewrite FloatAxioms.eqb_spec, !FloatAxioms.leb_spec, FloatAxioms.ltb_spec, Prim2SF_zero.
  unfold SFeqb, SFleb, SFltb.
  destruct (SFcompare (Prim2SF x) (Prim2SF 10000)) as [c|] eqn:Hc.
  - rewrite (SFcompare_antisym _ _ _ Hc).
    destruct (Prim2SF x) as [s|s| |s m e].
    + destruct s; cbn in *; injection Hc as <-; cbn; intuition discriminate.
    + destruct s; cbn in *; injection Hc as <-; cbn; intuition discriminate.
    + discriminate.
    + rewrite SFcompare_refl_finite.
      destruct s; [cbn in *; injection Hc as <-; cbn; intuition discriminate|].
      change (SFcompare (S754_finite false m e) (S754_zero false)) with (Some Gt).
      destruct c; cbn; intuition discriminate.
  - destruct (Prim2SF x) as [s|s| |s m e]; try (destruct s; discriminate).
    cbn. intuition discriminate.
Qed.

End Gates.

(** X1.  Validation lets through exactly the amounts of at least
    10000 and NaN: [float("nan")] is neither [<= 0] nor [< 10000], so it
    reaches the providers. *)
Theorem validation_accepts_large_amounts_and_nan (m : MessageHandler.message) (rub_amount : float) :
  MessageHandler.float_of_text m = Ok rub_amount ->
  (MessageHandler.validate_input m = Ok (inr rub_amount) <->
   (10000 <=? rub_amount)%float = true \/ is_nan rub_amount = true).
Proof.
  intros Hm. unfold MessageHandler.validate_input. rewrite Hm. cbn.
  rewrite <- passes_amount_checks.
  destruct (rub_amount <=? 0)%float, (rub_amount <? 10000)%float; cbn;
    intuition (discriminate || reflexivity).
Qed.

Lemma validation_accepts_large_amounts_and_nan_witness :
  MessageHandler.validate_input (MessageHandler.mk_message (Ok nan)) = Ok (inr nan) <->
  (10000 <=? nan)%float = true \/ is_nan nan = true.
Proof.
  apply (validation_accepts_large_amounts_and_nan (MessageHandler.mk_message (Ok nan)) nan).
  reflexivity.
Defined.

(** X2.  The check of line 133 lets a pair of raw values through
    exactly when each of them is above zero or NaN: a NaN from a
    provider is not caught by it. *)
Theorem raw_values_pass_when_positive_or_nan (eur_xe_raw eur_easy_raw : float) :
  MessageHandler.raw_invalid eur_xe_raw eur_easy_raw = false <->
  (PyFloat.positive eur_xe_raw \/ is_nan eur_xe_raw = true) /\
  (PyFloat.positive eur_easy_raw \/ is_nan eur_easy_raw = true).
Proof.
  rewrite <- !passes_positivity. unfold MessageHandler.raw_invalid.
  destruct (negb (PyFloat.truthy eur_xe_raw)), (eur_xe_raw <=? 0)%float,
    (negb (PyFloat.truthy eur_easy_raw)), (eur_easy_raw <=? 0)%float; cbn;
    intuition discriminate.
Qed.

(** ** The conversion handler (message_handlers.py, lines 59-170) *)

Section Handler.
Import World MessageHandler.

Variable ch : chat.

Lemma same_world (w : world) : mk_world (cache_file w) (journal w) = w.
Proof. now destruct w. Qed.

(** The statistics phase: nothing without a repository; otherwise the
    update, and on its failure the error handler, whose outcome is the
    phase's. *)
Lemma update_user_stats_outcome (w : world) :
  _update_user_stats ch w =
    match stats_update ch with
    | None => (Ok (), w)
    | Some (Ok _) => (Ok (), mk_world (cache_file w) (journal w ++ [StatsUpdated]))
    | Some (Raise e) =>
        (handle_error_result ch (journal w ++ [StatsUpdated]) e,
         mk_world (cache_file w) (journal w ++ [StatsUpdated; ErrorHandled e]))
    end.
Proof.
  unfold _update_user_stats. destruct (stats_update ch) as [[[]|e]|]; [reflexivity| |reflexivity].
  unfold try_except_M, handle_error, emit, lift, mbind, M_bind.
  rewrite every_exn_is_an_Exception. cbn [cache_file journal].
  now rewrite <- app_assoc.
Qed.

Lemma stats_phase_appends (w : world) :
  exists evs,
    (_update_user_stats ch w).2 = mk_world (cache_file w) (journal w ++ evs) /\
    Forall Spec.reaches_no_provider evs.
Proof.
  rewrite update_user_stats_outcome. destruct (stats_update ch) as [[[]|e]|].
  - exists [StatsUpdated]. split; [reflexivity|]. repeat constructor.
  - exists [StatsUpdated; ErrorHandled e]. split; [reflexivity|]. repeat constructor.
  - exists []. split; [now rewrite app_nil_r, same_world|constructor].
Qed.

(** A rejection: the reply is made first; only when it raises a
    [ValueError] does the [except] clause make another. *)
Lemma reject_outcome (rejection : reply) (w : world) :
  exists tail,
    (reject ch rejection w).2 =
      mk_world (cache_file w) (journal w ++ Replied rejection :: tail) /\
    Forall Spec.reaches_no_provider tail /\
    (reply_result ch (journal w) rejection = Ok () ->
     reject ch rejection w =
       (Ok (), mk_world (cache_file w) (journal w ++ [Replied rejection]))).
Proof.
  assert (Hplain : forall r,
            exists tail,
              (message_reply ch r w).2 = mk_world (cache_file w) (journal w ++ Replied r :: tail) /\
              Forall Spec.reaches_no_provider tail /\
              (reply_result ch (journal w) r = Ok () ->
               message_reply ch r w = (Ok (), mk_world (cache_file w) (journal w ++ [Replied r])))).
  { intros r. exists []. split; [reflexivity|]. split; [constructor|].
    unfold message_reply. now intros ->. }
  assert (Hguarded : forall r,
            exists tail,
              (try_except_for [ValueError] (message_reply ch r)
                 (fun _ => message_reply ch OnlyNumber) w).2 =
                mk_world (cache_file w) (journal w ++ Replied r :: tail) /\
              Forall Spec.reaches_no_provider tail /\
              (reply_result ch (journal w) r = Ok () ->
               try_except_for [ValueError] (message_reply ch r)
                 (fun _ => message_reply ch OnlyNumber) w =
                 (Ok (), mk_world (cache_file w) (journal w ++ [Replied r])))).
  { intros r. unfold try_except_for, message_reply. cbn [cache_file journal].
    destruct (reply_result ch (journal w) r) as [[]|e].
    - exists []. split; [reflexivity|]. split; [constructor|reflexivity].
    - destruct (isinstance e [ValueError]).
      + exists [Replied OnlyNumber]. split; [cbn; now rewrite <- app_assoc|].
        split; [repeat constructor|discriminate].
      + exists []. split; [reflexivity|]. split; [constructor|discriminate]. }
  destruct rejection; first [apply Hguarded | apply Hplain].
Qed.

(** [reconcile] makes one reply, which is not the wait notice, or raises
    before any. *)
Lemma reconcile_outcome
      (rub_amount eur_xe_raw : float) (rate : Json.json) (cache : gmap string Json.json)
      (w : world) :
  (exists r, r <> ReceivingRate /\
     reconcile ch rub_amount eur_xe_raw rate cache w =
       (reply_result ch (journal w) r, mk_world (cache_file w) (journal w ++ [Replied r]))) \/
  (exists e, reconcile ch rub_amount eur_xe_raw rate cache w = (Raise e, w)).
Proof.
  unfold reconcile, message_reply. run_M.
  destruct (MessageHandler.eur_easy_raw rub_amount rate) as [easy|e]; [|right; now exists e].
  destruct (raw_invalid eur_xe_raw easy); [left; eexists; split; [|reflexivity]; discriminate|].
  destruct (Formatters.trunc2 eur_xe_raw) as [xs|e]; [|right; now exists e].
  destruct (Formatters.trunc2 easy) as [es|e]; [|right; now exists e].
  destruct (Formatters.trunc2 (used_value_raw eur_xe_raw easy)) as [us|e]; [|right; now exists e].
  destruct (MessageHandler.rounded_to_use (used_value_raw eur_xe_raw easy)) as [n|e];
    [|right; now exists e].
  left. eexists. split; [|reflexivity]. discriminate.
Qed.

(** With a rate that equals zero [reconcile] makes the zero/invalid-rate
    reply. *)
Lemma reconcile_zero_rate (rub_amount eur_xe_raw : float) (v : Json.json)
      (cache : gmap string Json.json) (w : world) :
  Json.equals_zero v = true ->
  reconcile ch rub_amount eur_xe_raw v cache w =
    (reply_result ch (journal w) ZeroInvalidRate,
     mk_world (cache_file w) (journal w ++ [Replied ZeroInvalidRate])).
Proof.
  intros H. unfold reconcile.
  unfold mbind at 1. unfold M_bind, lift.
  rewrite (guarded_division_of_zero_rate rub_amount v H), raw_invalid_zero.
  reflexivity.
Qed.

(** The [try] block with its [except] clause: an exception of the body
    is passed to [handle_error], whose outcome is the handler's. *)
Lemma try_except_M_outcome (body : M unit) (w : world) :
  try_except_M body (handle_error ch) w =
    match body w with
    | (Ok _, w') => (Ok (), w')
    | (Raise e, w') =>
        (handle_error_result ch (journal w') e,
         mk_world (cache_file w') (journal w' ++ [ErrorHandled e]))
    end.
Proof.
  unfold try_except_M, handle_error.
  destruct (body w) as [[[]|e] w']; [reflexivity|].
  now rewrite every_exn_is_an_Exception.
Qed.

(** The statistics phase leaves the cache file as it is. *)
Lemma stats_phase_keeps_file (w w1 : world) (r : result unit) :
  _update_user_stats ch w = (r, w1) -> cache_file w1 = cache_file w.
Proof.
  rewrite update_user_stats_outcome.
  destruct (stats_update ch) as [[[]|e]|]; intros [= _ <-]; reflexivity.
Qed.

(** The handler after a statistics phase that returned. *)
Lemma handle_conversion_after_stats (svc : services) (m : message) (w w1 : world) :
  _update_user_stats ch w = (Ok (), w1) ->
  handle_conversion svc ch m w = handle_text svc ch m w1.
Proof. intros H. unfold handle_conversion, mbind, M_bind. now rewrite H. Qed.

(** The handler on an accepted amount, after a statistics phase that
    returned: the [try] block from there, and the error handler on its
    exception. *)
Lemma handle_conversion_valid (svc : services) (m : message) (w w1 : world)
      (rub_amount : float) :
  validate_input m = Ok (inr rub_amount) ->
  _update_user_stats ch w = (Ok (), w1) ->
  handle_conversion svc ch m w =
    match convert svc ch rub_amount w1 with
    | (Ok _, w') => (Ok (), w')
    | (Raise e, w') =>
        (handle_error_result ch (journal w') e,
         mk_world (cache_file w') (journal w' ++ [ErrorHandled e]))
    end.
Proof.
  intros Hvalid Hstats. rewrite (handle_conversion_after_stats svc m w w1 Hstats).
  unfold handle_text, mbind at 1. unfold M_bind at 1, lift at 1.
  rewrite Hvalid. apply try_except_M_outcome.
Qed.

(** The [try] block up to the cache lookup, once XE has answered and
    [load] has returned. *)
Lemma convert_with_cache (svc : services) (rub_amount eur_xe_raw : float)
      (cache : gmap string Json.json) (w : world) :
  xe_get_rate svc rub_amount = Ok eur_xe_raw ->
  CacheRepository.load (cache_file w) = Ok cache ->
  convert svc ch rub_amount w =
    let w0 := mk_world (cache_file w) (journal w ++ [XeRequested rub_amount]) in
    match Json.get cache "rate" with
    | Json.JNull =>
        match reply_result ch (journal w0) ReceivingRate with
        | Raise e => (Raise e, mk_world (cache_file w) (journal w0 ++ [Replied ReceivingRate]))
        | Ok _ =>
            let w2 := mk_world (cache_file w)
                        (journal w0 ++ [Replied ReceivingRate; EasystaffRequested]) in
            match easystaff_get_rate svc with
            | Raise e => (Raise e, w2)
            | Ok None => message_reply ch FailedEasystaff w2
            | Ok (Some rate) =>
                (_ ← cache_save svc rate;
                 cache' ← cache_load;
                 reconcile ch rub_amount eur_xe_raw (Json.JFloat rate) cache') w2
            end
        end
    | easy_rate => reconcile ch rub_amount eur_xe_raw easy_rate cache w0
    end.
Proof.
  intros Hxe Hload. unfold convert.
  unfold mbind at 1. unfold M_bind at 1. unfold emit at 1.
  unfold mbind at 1. unfold M_bind at 1. unfold lift at 1. rewrite Hxe.
  unfold mbind at 1. unfold M_bind at 1. unfold cache_load at 1.
  cbn [cache_file journal]. rewrite Hload. cbv zeta.
  destruct (Json.get cache "rate"); try reflexivity.
  unfold mbind at 1. unfold M_bind at 1. unfold message_reply at 1. cbn [cache_file journal].
  destruct (reply_result ch _ ReceivingRate) as [[]|e]; [|reflexivity].
  unfold mbind at 1. unfold M_bind at 1. unfold emit at 1. cbn [cache_file journal].
  rewrite <- app_assoc. cbn [app].
  unfold mbind at 1. unfold M_bind at 1. unfold lift at 1.
  destruct (easystaff_get_rate svc) as [[rate|]|e]; reflexivity.
Qed.

(** With a rate in the cache the [try] block goes straight to
    [reconcile]. *)
Lemma convert_with_cached_rate (svc : services) (rub_amount eur_xe_raw : float)
      (cache : gmap string Json.json) (w : world) :
  xe_get_rate svc rub_amount = Ok eur_xe_raw ->
  CacheRepository.load (cache_file w) = Ok cache ->
  Json.get cache "rate" <> Json.JNull ->
  convert svc ch rub_amount w =
    reconcile ch rub_amount eur_xe_raw (Json.get cache "rate") cache
      (mk_world (cache_file w) (journal w ++ [XeRequested rub_amount])).
Proof.
  intros Hxe Hload Hrate. rewrite (convert_with_cache svc _ _ _ _ Hxe Hload). cbv zeta.
  destruct (Json.get cache "rate"); [now destruct Hrate|reflexivity..].
Qed.


End Handler.
(** ** Input validation (message_handlers.py, lines 92-100) *)

(** C7.  An amount that is not positive, or is below 10,000, never
    reaches a provider: whatever the statistics update, the replies and
    the error handler do, the run makes no XE request, no Easystaff
    request and no cache write, and the cache file stays as it is.  When
    the statistics phase returns, the first thing the handler does after
    it is the matching validation reply; and when that reply returns,
    the handler returns with nothing else done. *)
Theorem small_amount_rejected_before_providers
        (svc : World.services) (ch : World.chat) (m : MessageHandler.message)
        (w : World.world) (rub_amount : float) :
  MessageHandler.float_of_text m = Ok rub_amount ->
  (rub_amount <=? 0)%float = true \/ (rub_amount <? 10000)%float = true ->
  let run := MessageHandler.handle_conversion svc ch m w in
  exists rejection evs,
    (rejection = World.MustBePositive \/ rejection = World.MinimumAmount) /\
    run.2 = World.mk_world (World.cache_file w) (World.journal w ++ evs) /\
    Forall Spec.reaches_no_provider evs /\
    forall w1, MessageHandler._update_user_stats ch w = (Ok (), w1) ->
      (exists tail,
         World.journal run.2 = World.journal w1 ++ World.Replied rejection :: tail) /\
      (World.reply_result ch (World.journal w1) rejection = Ok () ->
       run = (Ok (), World.mk_world (World.cache_file w)
                       (World.journal w1 ++ [World.Replied rejection]))).
Proof.
  intros Hm Hsmall. cbv zeta.
  assert (Hv : exists rejection,
             (rejection = World.MustBePositive \/ rejection = World.MinimumAmount) /\
             MessageHandler.validate_input m = Ok (inl rejection)).
  { unfold MessageHandler.validate_input. rewrite Hm. cbn.
    destruct (rub_amount <=? 0)%float eqn:Hle; cbn.
    - exists World.MustBePositive. auto.
    - destruct Hsmall as [Hs|Hs]; [discriminate|]. rewrite Hs. cbn.
      exists World.MinimumAmount. auto. }
  destruct Hv as (rejection & Hrej & Hv). exists rejection.
  destruct (stats_phase_appends ch w) as (evs0 & Hw1 & Hev0).
  unfold MessageHandler.handle_conversion, mbind, World.M_bind.
  destruct (MessageHandler._update_user_stats ch w) as [[[]|e] w1] eqn:Hstats;
    cbn [snd] in Hw1; subst w1.
  - unfold MessageHandler.handle_text, mbind, World.M_bind, World.lift. rewrite Hv.
    destruct (reject_outcome ch rejection
                (World.mk_world (World.cache_file w) (World.journal w ++ evs0)))
      as (tail & Hrun & Htail & Hok).
    cbn [World.cache_file World.journal] in *.
    exists (evs0 ++ World.Replied rejection :: tail).
    split; [exact Hrej|]. split; [now rewrite Hrun, <- app_assoc|].
    split; [apply Forall_app; split; [exact Hev0|constructor; [exact I|exact Htail]]|].
    intros w1 [= <-]. cbn [World.cache_file World.journal].
    split; [exists tail; now rewrite Hrun|exact Hok].
  - exists evs0. split; [exact Hrej|]. split; [reflexivity|]. split; [exact Hev0|].
    intros w1 [=].
Qed.

Lemma small_amount_rejected_before_providers_witness :
  let svc := World.mk_services (fun _ => Ok 100%float) (Ok (Some 90%float))
               (PyDatetime.mk_datetime 2025 11 11 9 30 0 0) CacheRepository.NoFault in
  let ch := World.mk_chat (Some (Ok ())) (fun _ _ => Ok ()) (fun _ _ => Ok ()) in
  let w := World.mk_world CacheRepository.Absent [] in
  let run := MessageHandler.handle_conversion svc ch
               (MessageHandler.mk_message (Ok 9999%float)) w in
  exists rejection evs,
    (rejection = World.MustBePositive \/ rejection = World.MinimumAmount) /\
    run.2 = World.mk_world (World.cache_file w) (World.journal w ++ evs) /\
    Forall Spec.reaches_no_provider evs /\
    forall w1, MessageHandler._update_user_stats ch w = (Ok (), w1) ->
      (exists tail,
         World.journal run.2 = World.journal w1 ++ World.Replied rejection :: tail) /\
      (World.reply_result ch (World.journal w1) rejection = Ok () ->
       run = (Ok (), World.mk_world (World.cache_file w)
                       (World.journal w1 ++ [World.Replied rejection]))).
Proof.
  intros svc ch w.
  apply (small_amount_rejected_before_providers svc ch
           (MessageHandler.mk_message (Ok 9999%float)) w 9999%float).
  - reflexivity.
  - right. reflexivity.
Defined.

(** The run of the sample: the statistics update, then the reply about
    the minimum amount. *)
Example small_amount_run :
  MessageHandler.handle_conversion
    (World.mk_services (fun _ => Ok 100%float) (Ok (Some 90%float))
                       (PyDatetime.mk_datetime 2025 11 11 9 30 0 0) CacheRepository.NoFault)
    (World.mk_chat (Some (Ok ())) (fun _ _ => Ok ()) (fun _ _ => Ok ()))
    (MessageHandler.mk_message (Ok 9999%float))
    (World.mk_world CacheRepository.Absent []) =
  (Ok (), World.mk_world CacheRepository.Absent
            [World.StatsUpdated; World.Replied World.MinimumAmount]).
Proof. reflexivity. Qed.

(** ** Reconciliation in the handler (message_handlers.py, lines 129-165) *)



(** The two sample pairs in the handler: 10500 roubles at a rate of 100
    against an XE value of 100 are answered with a divergence of 5 and
    105 recommended; 13000 roubles, with a divergence of 30 and 100
    recommended. *)
Example reconcile_replies :
  let ch := World.mk_chat (Some (Ok ())) (fun _ _ => Ok ()) (fun _ _ => Ok ()) in
  let w := World.mk_world CacheRepository.Absent [] in
  (MessageHandler.reconcile ch 10500 100 (Json.JFloat 100) ∅ w).2 =
    World.mk_world CacheRepository.Absent
      [World.Replied (World.Converted
         (World.mk_conversion 100 105 5 105 105 (Json.JFloat 100) Json.JNull))] /\
  (MessageHandler.reconcile ch 13000 100 (Json.JFloat 100) ∅ w).2 =
    World.mk_world CacheRepository.Absent
      [World.Replied (World.Converted
         (World.mk_conversion 100 130 30 100 100 (Json.JFloat 100) Json.JNull))].
Proof. split; vm_compute; reflexivity. Qed.

(** ** The cache-miss path of a conversion (message_handlers.py, lines 116-127) *)

(** C3.  On an empty cache the handler saves whatever rate the provider
    returns before it validates anything: a fetched rate of zero is
    written to the cache file (and only afterwards answered with the
    zero/invalid reply). *)
Theorem cache_miss_persists_nonpositive_rate :
  let now := PyDatetime.mk_datetime 2025 11 11 9 30 0 0 in
  let svc := World.mk_services (fun _ => Ok 134.5%float) (Ok (Some 0%float)) now
                               CacheRepository.NoFault in
  let ch := World.mk_chat (Some (Ok ())) (fun _ _ => Ok ()) (fun _ _ => Ok ()) in
  let run := MessageHandler.handle_conversion svc ch
               (MessageHandler.mk_message (Ok 12000%float))
               (World.mk_world CacheRepository.Absent []) in
  run.1 = Ok () /\
  World.cache_file run.2 =
    CacheRepository.Stored (CacheRepository.Document (Json.JObj (CacheRepository.record 0 now))) /\
  CacheRepository.record 0 now !! "rate" = Some (Json.JFloat 0) /\
  World.journal run.2 =
    [World.StatsUpdated; World.XeRequested 12000; World.Replied World.ReceivingRate;
     World.EasystaffRequested; World.CacheSaved 0 true; World.Replied World.ZeroInvalidRate].
Proof. repeat split; vm_compute; reflexivity. Qed.

(** ** A rate of zero (message_handlers.py, lines 129-134) *)

(** C10.  A conversion whose amount passed validation and whose XE
    value arrived, when the Easystaff rate it obtains equals zero,
    whether read from the cache or just fetched: the guarded division
    yields 0.0, no exception has reached the error handler up to then,
    and the next thing the handler does is the zero/invalid-rate reply.
    When that reply returns, the handler returns; when it raises, the
    exception goes to the error handler, whose outcome is the
    handler's. *)
Theorem zero_rate_yields_unavailable_reply
        (svc : World.services) (ch : World.chat) (m : MessageHandler.message)
        (w w1 : World.world) (rub_amount eur_xe_raw : float) (cache : gmap string Json.json) :
  MessageHandler.validate_input m = Ok (inr rub_amount) ->
  MessageHandler._update_user_stats ch w = (Ok (), w1) ->
  World.xe_get_rate svc rub_amount = Ok eur_xe_raw ->
  CacheRepository.load (World.cache_file w) = Ok cache ->
  (Json.get cache "rate" <> Json.JNull /\ Json.equals_zero (Json.get cache "rate") = true) \/
  (Json.get cache "rate" = Json.JNull /\
   World.reply_result ch (World.journal w1 ++ [World.XeRequested rub_amount])
     World.ReceivingRate = Ok () /\
   exists rate, World.easystaff_get_rate svc = Ok (Some rate) /\ (rate =? 0)%float = true) ->
  exists (easy_rate : Json.json) (f' : CacheRepository.file_state) (evs : list World.event),
    (easy_rate = Json.get cache "rate" \/
     exists rate, World.easystaff_get_rate svc = Ok (Some rate) /\ easy_rate = Json.JFloat rate) /\
    MessageHandler.eur_easy_raw rub_amount easy_rate = Ok 0%float /\
    (forall e, ~ In (World.ErrorHandled e) evs) /\
    MessageHandler.handle_conversion svc ch m w =
      let j := World.journal w1 ++ evs in
      match World.reply_result ch j World.ZeroInvalidRate with
      | Ok _ => (Ok (), World.mk_world f' (j ++ [World.Replied World.ZeroInvalidRate]))
      | Raise e =>
          (World.handle_error_result ch (j ++ [World.Replied World.ZeroInvalidRate]) e,
           World.mk_world f'
             (j ++ [World.Replied World.ZeroInvalidRate; World.ErrorHandled e]))
      end.
Proof.
  intros Hvalid Hstats Hxe Hload Hrate.
  rewrite (handle_conversion_valid ch svc m w w1 rub_amount Hvalid Hstats).
  pose proof (stats_phase_keeps_file ch w w1 _ Hstats) as Hfile. rewrite <- Hfile in Hload.
  rewrite (convert_with_cache ch svc rub_amount eur_xe_raw cache w1 Hxe Hload).
  cbv zeta. cbn [World.cache_file World.journal].
  destruct Hrate as [[Hnn Hz]|[Hnull (Hwait & rate & Hfetch & Hz)]].
  - exists (Json.get cache "rate"), (World.cache_file w1), [World.XeRequested rub_amount].
    split; [now left|].
    split; [now apply guarded_division_of_zero_rate|].
    split; [intros e [H|[]]; discriminate|].
    assert (Hrec := reconcile_zero_rate ch rub_amount eur_xe_raw (Json.get cache "rate") cache
                      (World.mk_world (World.cache_file w1)
                         (World.journal w1 ++ [World.XeRequested rub_amount])) Hz).
    cbn [World.cache_file World.journal] in Hrec.
    destruct (Json.get cache "rate") eqn:E; try (now destruct Hnn);
      rewrite Hrec;
      (destruct (World.reply_result ch _ World.ZeroInvalidRate) as [[]|e];
       [reflexivity|cbn [World.cache_file World.journal]; now rewrite <- !app_assoc]).
  - rewrite Hnull, Hwait, Hfetch.
    unfold mbind at 1. unfold World.M_bind at 1, World.cache_save at 1.
    cbn [World.cache_file World.journal].
    destruct (save_never_raises rate (World.utc_now svc) (World.disk svc) (World.cache_file w1))
      as [ok Hok].
    destruct (load_after_save rate (World.utc_now svc) (World.disk svc) (World.cache_file w1)
                cache Hload) as [d' Hd'].
    destruct (CacheRepository.save _ _ _ _) as [res f'] eqn:Hsave.
    cbn [fst snd] in Hok, Hd'. subst res.
    unfold mbind at 1. unfold World.M_bind at 1, World.cache_load at 1.
    cbn [World.cache_file World.journal]. rewrite Hd'.
    rewrite (reconcile_zero_rate ch rub_amount eur_xe_raw (Json.JFloat rate) d' _ Hz).
    cbn [World.cache_file World.journal].
    exists (Json.JFloat rate), f',
      [World.XeRequested rub_amount; World.Replied World.ReceivingRate;
       World.EasystaffRequested; World.CacheSaved rate ok].
    split; [right; eauto|].
    split; [now apply guarded_division_of_zero_rate|].
    split; [intros e [H|[H|[H|[H|[]]]]]; discriminate|].
    replace (((World.journal w1 ++ [World.XeRequested rub_amount]) ++
              [World.Replied World.ReceivingRate; World.EasystaffRequested]) ++
             [World.CacheSaved rate ok])
      with (World.journal w1 ++
            [World.XeRequested rub_amount; World.Replied World.ReceivingRate;
             World.EasystaffRequested; World.CacheSaved rate ok])
      by (now rewrite <- !app_assoc).
    destruct (World.reply_result ch _ World.ZeroInvalidRate) as [[]|e];
      [reflexivity|cbn [World.cache_file World.journal]; now rewrite <- !app_assoc].
Qed.

Lemma zero_rate_yields_unavailable_reply_witness :
  let svc := World.mk_services (fun _ => Ok 134.5%float) (Ok (Some 90%float))
               (PyDatetime.mk_datetime 2025 11 11 9 30 0 0) CacheRepository.NoFault in
  let ch := World.mk_chat (Some (Ok ())) (fun _ _ => Ok ()) (fun _ _ => Ok ()) in
  let m := MessageHandler.mk_message (Ok 12000%float) in
  let cache : gmap string Json.json := <["rate" := Json.JInt 0]> ∅ in
  let w := World.mk_world
             (CacheRepository.Stored (CacheRepository.Document (Json.JObj cache))) [] in
  let w1 := World.mk_world (World.cache_file w) [World.StatsUpdated] in
  exists (easy_rate : Json.json) (f' : CacheRepository.file_state) (evs : list World.event),
    (easy_rate = Json.get cache "rate" \/
     exists rate, World.easystaff_get_rate svc = Ok (Some rate) /\ easy_rate = Json.JFloat rate) /\
    MessageHandler.eur_easy_raw 12000 easy_rate = Ok 0%float /\
    (forall e, ~ In (World.ErrorHandled e) evs) /\
    MessageHandler.handle_conversion svc ch m w =
      let j := World.journal w1 ++ evs in
      match World.reply_result ch j World.ZeroInvalidRate with
      | Ok _ => (Ok (), World.mk_world f' (j ++ [World.Replied World.ZeroInvalidRate]))
      | Raise e =>
          (World.handle_error_result ch (j ++ [World.Replied World.ZeroInvalidRate]) e,
           World.mk_world f'
             (j ++ [World.Replied World.ZeroInvalidRate; World.ErrorHandled e]))
      end.
Proof.
  intros svc ch m cache w w1.
  apply (zero_rate_yields_unavailable_reply svc ch m w w1 12000%float 134.5%float cache).
  - reflexivity.
  - reflexivity.
  - reflexivity.
  - reflexivity.
  - left. split; [discriminate | reflexivity].
Defined.

(** ** The conversion handler, path by path *)

Section Paths.
Import World MessageHandler.

Variable ch : chat.

(** What [handle_text] raises comes out of [handle_error], out of a
    validation reply, or out of [float(message.text)]. *)
Lemma handle_text_raises (svc : services) (m : message) (w : world) (e : exn) :
  (handle_text svc ch m w).1 = Raise e ->
  let j := journal (handle_text svc ch m w).2 in
  (exists j0 e0, j = j0 ++ [ErrorHandled e0] /\ handle_error_result ch j0 e0 = Raise e) \/
  (exists j0 r, j = j0 ++ [Replied r] /\
     (r = MustBePositive \/ r = MinimumAmount \/ r = OnlyNumber) /\
     reply_result ch j0 r = Raise e) \/
  (float_of_text m = Raise e /\ isinstance e [ValueError] = false).
Proof.
  assert (Hplain : forall r, r = MustBePositive \/ r = MinimumAmount \/ r = OnlyNumber ->
            (message_reply ch r w).1 = Raise e ->
            exists j0 r', journal (message_reply ch r w).2 = j0 ++ [Replied r'] /\
              (r' = MustBePositive \/ r' = MinimumAmount \/ r' = OnlyNumber) /\
              reply_result ch j0 r' = Raise e).
  { intros r Hr H. exists (journal w), r. auto. }
  assert (Hguarded : forall r, r = MustBePositive \/ r = MinimumAmount ->
            (try_except_for [ValueError] (message_reply ch r)
               (fun _ => message_reply ch OnlyNumber) w).1 = Raise e ->
            exists j0 r',
              journal (try_except_for [ValueError] (message_reply ch r)
                         (fun _ => message_reply ch OnlyNumber) w).2 = j0 ++ [Replied r'] /\
              (r' = MustBePositive \/ r' = MinimumAmount \/ r' = OnlyNumber) /\
              reply_result ch j0 r' = Raise e).
  { intros r Hr. unfold try_except_for, message_reply. cbn [cache_file journal].
    destruct (reply_result ch (journal w) r) as [[]|e1] eqn:H1; [discriminate|].
    destruct (isinstance e1 [ValueError]); cbn [fst snd journal].
    - intros H. exists (journal w ++ [Replied r]), OnlyNumber. auto.
    - intros [= <-]. exists (journal w), r. split; [reflexivity|]. split; [tauto|exact H1]. }
  cbv zeta. unfold handle_text, validate_input, try_except, mbind, M_bind, lift, result_bind.
  destruct (float_of_text m) as [rub|e1].
  - destruct (rub <=? 0)%float; [intros H; right; left; apply Hguarded; auto|].
    destruct (rub <? 10000)%float; [intros H; right; left; apply Hguarded; auto|].
    rewrite try_except_M_outcome.
    destruct (convert svc ch rub w) as [[[]|e0] w2]; [discriminate|].
    cbn [fst snd journal]. intros H. left. exists (journal w2), e0. auto.
  - destruct (isinstance e1 [ValueError]) eqn:Hcls.
    + intros H. right. left. apply Hplain; auto.
    + intros [= <-]. right. right. auto.
Qed.

End Paths.

(** X3.  Whatever the handler raises comes from one of three places:
    the error handler (called for a failed statistics update or for an
    exception of the [try] block, so that no failure of a provider, of
    the cache or of the arithmetic leaves the handler by itself), a
    validation reply, or [float(message.text)] raising something other
    than [ValueError] (a message without text). *)
Theorem handler_raises_only_at_three_places
        (svc : World.services) (ch : World.chat) (m : MessageHandler.message)
        (w : World.world) (e : exn) :
  (MessageHandler.handle_conversion svc ch m w).1 = Raise e ->
  let j := World.journal (MessageHandler.handle_conversion svc ch m w).2 in
  (exists j0 e0,
     j = j0 ++ [World.ErrorHandled e0] /\ World.handle_error_result ch j0 e0 = Raise e) \/
  (exists j0 r,
     j = j0 ++ [World.Replied r] /\
     (r = World.MustBePositive \/ r = World.MinimumAmount \/ r = World.OnlyNumber) /\
     World.reply_result ch j0 r = Raise e) \/
  (MessageHandler.float_of_text m = Raise e /\ isinstance e [ValueError] = false).
Proof.
  unfold MessageHandler.handle_conversion, mbind, World.M_bind.
  rewrite update_user_stats_outcome.
  destruct (World.stats_update ch) as [[[]|e0]|].
  - apply handle_text_raises.
  - destruct (World.handle_error_result ch (World.journal w ++ [World.StatsUpdated]) e0)
      as [[]|e1] eqn:H1.
    + apply handle_text_raises.
    + cbn [fst snd World.journal]. intros [= <-]. left.
      exists (World.journal w ++ [World.StatsUpdated]), e0.
      split; [now rewrite <- app_assoc|exact H1].
  - apply handle_text_raises.
Qed.

Lemma handler_raises_only_at_three_places_witness :
  let svc := World.mk_services (fun _ => Ok 134.5%float) (Ok (Some 90%float))
               (PyDatetime.mk_datetime 2025 11 11 9 30 0 0) CacheRepository.NoFault in
  let ch := World.mk_chat (Some (Ok ())) (fun _ _ => Ok ()) (fun _ _ => Ok ()) in
  let e := mk_exn TypeError "float() argument must be a string or a real number" in
  let m := MessageHandler.mk_message (Raise e) in
  let w := World.mk_world CacheRepository.Absent [] in
  let j := World.journal (MessageHandler.handle_conversion svc ch m w).2 in
  (exists j0 e0,
     j = j0 ++ [World.ErrorHandled e0] /\ World.handle_error_result ch j0 e0 = Raise e) \/
  (exists j0 r,
     j = j0 ++ [World.Replied r] /\
     (r = World.MustBePositive \/ r = World.MinimumAmount \/ r = World.OnlyNumber) /\
     World.reply_result ch j0 r = Raise e) \/
  (MessageHandler.float_of_text m = Raise e /\ isinstance e [ValueError] = false).
Proof.
  intros svc ch e m w.
  apply (handler_raises_only_at_three_places svc ch m w e). reflexivity.
Defined.

(** X4.  When XE fails, the request ends there: the error handler is
    called with that exception right after the XE request, its outcome
    is the handler's, and neither the cache nor Easystaff is touched. *)
Theorem xe_failure_ends_the_request
        (svc : World.services) (ch : World.chat) (m : MessageHandler.message)
        (w w1 : World.world) (rub_amount : float) (e : exn) :
  MessageHandler.validate_input m = Ok (inr rub_amount) ->
  MessageHandler._update_user_stats ch w = (Ok (), w1) ->
  World.xe_get_rate svc rub_amount = Raise e ->
  MessageHandler.handle_conversion svc ch m w =
    (World.handle_error_result ch (World.journal w1 ++ [World.XeRequested rub_amount]) e,
     World.mk_world (World.cache_file w)
       (World.journal w1 ++ [World.XeRequested rub_amount; World.ErrorHandled e])).
Proof.
  intros Hvalid Hstats Hxe.
  rewrite (handle_conversion_valid ch svc m w w1 rub_amount Hvalid Hstats).
  rewrite <- (stats_phase_keeps_file ch w w1 _ Hstats).
  unfold MessageHandler.convert, mbind, World.M_bind, World.emit, World.lift.
  rewrite Hxe. cbn [World.cache_file World.journal]. now rewrite <- app_assoc.
Qed.

Lemma xe_failure_ends_the_request_witness :
  let svc := World.mk_services (fun _ => Raise (mk_exn ValueError "XE rate element not found"))
               (Ok (Some 90%float)) (PyDatetime.mk_datetime 2025 11 11 9 30 0 0)
               CacheRepository.NoFault in
  let ch := World.mk_chat None (fun _ _ => Ok ())
              (fun _ _ => Raise (mk_exn RuntimeError "Telegram server says - Bad Request")) in
  let w := World.mk_world CacheRepository.Absent [] in
  MessageHandler.handle_conversion svc ch (MessageHandler.mk_message (Ok 12000%float)) w =
    (World.handle_error_result ch (World.journal w ++ [World.XeRequested 12000])
       (mk_exn ValueError "XE rate element not found"),
     World.mk_world (World.cache_file w)
       (World.journal w ++
          [World.XeRequested 12000;
           World.ErrorHandled (mk_exn ValueError "XE rate element not found")])).
Proof.
  intros svc ch w.
  apply (xe_failure_ends_the_request svc ch (MessageHandler.mk_message (Ok 12000%float))
           w w 12000%float (mk_exn ValueError "XE rate element not found")); reflexivity.
Defined.

(** X5.  With a rate in the cache (any value but [None] under the key
    "rate") the handler answers from the cache: Easystaff is not
    contacted, the wait notice is not sent, nothing is saved and the
    file stays as it is.  After the XE request the run makes one reply
    and returns; or makes one reply that raises, and ends in the error
    handler; or raises before any reply, and ends in the error
    handler. *)
Theorem cached_rate_is_used_without_fetching
        (svc : World.services) (ch : World.chat) (m : MessageHandler.message)
        (w w1 : World.world) (rub_amount eur_xe_raw : float) (cache : gmap string Json.json) :
  MessageHandler.validate_input m = Ok (inr rub_amount) ->
  MessageHandler._update_user_stats ch w = (Ok (), w1) ->
  World.xe_get_rate svc rub_amount = Ok eur_xe_raw ->
  CacheRepository.load (World.cache_file w) = Ok cache ->
  Json.get cache "rate" <> Json.JNull ->
  let run := MessageHandler.handle_conversion svc ch m w in
  let j := World.journal w1 ++ [World.XeRequested rub_amount] in
  exists evs,
    run.2 = World.mk_world (World.cache_file w) (j ++ evs) /\
    ((exists r, r <> World.ReceivingRate /\ evs = [World.Replied r] /\
        World.reply_result ch j r = Ok () /\ run.1 = Ok ()) \/
     (exists r e, r <> World.ReceivingRate /\
        evs = [World.Replied r; World.ErrorHandled e] /\
        World.reply_result ch j r = Raise e /\
        run.1 = World.handle_error_result ch (j ++ [World.Replied r]) e) \/
     (exists e, evs = [World.ErrorHandled e] /\
        run.1 = World.handle_error_result ch j e)).
Proof.
  intros Hvalid Hstats Hxe Hload Hrate. cbv zeta.
  rewrite (handle_conversion_valid ch svc m w w1 rub_amount Hvalid Hstats).
  pose proof (stats_phase_keeps_file ch w w1 _ Hstats) as Hfile.
  rewrite <- Hfile in Hload. rewrite <- Hfile.
  rewrite (convert_with_cached_rate ch svc rub_amount eur_xe_raw cache w1 Hxe Hload Hrate).
  set (w0 := World.mk_world (World.cache_file w1)
               (World.journal w1 ++ [World.XeRequested rub_amount])).
  destruct (reconcile_outcome ch rub_amount eur_xe_raw (Json.get cache "rate") cache w0)
    as [(r & Hr & ->)|(e & ->)]; subst w0; cbn [World.cache_file World.journal].
  - destruct (World.reply_result ch _ r) as [[]|e] eqn:Hreply.
    + exists [World.Replied r]. split; [reflexivity|]. left. exists r. auto.
    + exists [World.Replied r; World.ErrorHandled e].
      cbn [fst snd World.cache_file World.journal].
      split; [now rewrite <- !app_assoc|]. right. left. exists r, e. auto.
  - exists [World.ErrorHandled e]. split; [reflexivity|]. right. right. exists e. auto.
Qed.

Lemma cached_rate_is_used_without_fetching_witness :
  let svc := World.mk_services (fun _ => Ok 134.5%float) (Ok (Some 90%float))
               (PyDatetime.mk_datetime 2025 11 11 9 30 0 0) CacheRepository.NoFault in
  let ch := World.mk_chat (Some (Ok ())) (fun _ _ => Ok ()) (fun _ _ => Ok ()) in
  let m := MessageHandler.mk_message (Ok 12000%float) in
  let cache : gmap string Json.json := <["rate" := Json.JFloat 89.25]> ∅ in
  let w := World.mk_world
             (CacheRepository.Stored (CacheRepository.Document (Json.JObj cache))) [] in
  let w1 := World.mk_world (World.cache_file w) [World.StatsUpdated] in
  let run := MessageHandler.handle_conversion svc ch m w in
  let j := World.journal w1 ++ [World.XeRequested 12000] in
  exists evs,
    run.2 = World.mk_world (World.cache_file w) (j ++ evs) /\
    ((exists r, r <> World.ReceivingRate /\ evs = [World.Replied r] /\
        World.reply_result ch j r = Ok () /\ run.1 = Ok ()) \/
     (exists r e, r <> World.ReceivingRate /\
        evs = [World.Replied r; World.ErrorHandled e] /\
        World.reply_result ch j r = Raise e /\
        run.1 = World.handle_error_result ch (j ++ [World.Replied r]) e) \/
     (exists e, evs = [World.ErrorHandled e] /\
        run.1 = World.handle_error_result ch j e)).
Proof.
  intros svc ch m cache w w1.
  apply (cached_rate_is_used_without_fetching svc ch m w w1 12000%float 134.5%float cache);
    try reflexivity.
  vm_compute. discriminate.
Defined.

(** X6.  When [load] raises (a cache file that is not valid UTF-8, for
    one), every conversion for which XE answers ends in the error
    handler with that exception, right after the XE request; the handler
    does not fall back to fetching the rate, and the file stays as it
    is. *)
Theorem failing_cache_load_fails_the_conversion
        (svc : World.services) (ch : World.chat) (m : MessageHandler.message)
        (w w1 : World.world) (rub_amount eur_xe_raw : float) (e : exn) :
  MessageHandler.validate_input m = Ok (inr rub_amount) ->
  MessageHandler._update_user_stats ch w = (Ok (), w1) ->
  World.xe_get_rate svc rub_amount = Ok eur_xe_raw ->
  CacheRepository.load (World.cache_file w) = Raise e ->
  MessageHandler.handle_conversion svc ch m w =
    (World.handle_error_result ch (World.journal w1 ++ [World.XeRequested rub_amount]) e,
     World.mk_world (World.cache_file w)
       (World.journal w1 ++ [World.XeRequested rub_amount; World.ErrorHandled e])).
Proof.
  intros Hvalid Hstats Hxe Hload.
  rewrite (handle_conversion_valid ch svc m w w1 rub_amount Hvalid Hstats).
  pose proof (stats_phase_keeps_file ch w w1 _ Hstats) as Hfile.
  rewrite <- Hfile in Hload. rewrite <- Hfile.
  unfold MessageHandler.convert, mbind, World.M_bind, World.emit, World.lift, World.cache_load.
  rewrite Hxe. cbn [World.cache_file World.journal]. rewrite Hload.
  cbn [World.cache_file World.journal]. now rewrite <- app_assoc.
Qed.

Lemma failing_cache_load_fails_the_conversion_witness :
  let svc := World.mk_services (fun _ => Ok 134.5%float) (Ok (Some 90%float))
               (PyDatetime.mk_datetime 2025 11 11 9 30 0 0) CacheRepository.NoFault in
  let ch := World.mk_chat None (fun _ _ => Ok ()) (fun _ _ => Ok ()) in
  let w := World.mk_world (CacheRepository.Stored CacheRepository.Undecodable) [] in
  let e := mk_exn UnicodeDecodeError "'utf-8' codec can't decode byte" in
  MessageHandler.handle_conversion svc ch (MessageHandler.mk_message (Ok 12000%float)) w =
    (World.handle_error_result ch (World.journal w ++ [World.XeRequested 12000]) e,
     World.mk_world (World.cache_file w)
       (World.journal w ++ [World.XeRequested 12000; World.ErrorHandled e])).
Proof.
  intros svc ch w e.
  apply (failing_cache_load_fails_the_conversion svc ch
           (MessageHandler.mk_message (Ok 12000%float)) w w 12000%float 134.5%float e);
    reflexivity.
Defined.

(** X7.  On a cache miss, when the Easystaff fetch raises or returns
    nothing, nothing is saved and the file stays as it is.  The wait
    notice comes first; when it raises, Easystaff is not asked and the
    error handler ends the run; otherwise Easystaff is asked, and the
    run ends with the failure reply (nothing returned) or in the error
    handler (the fetch raised, or the failure reply did). *)
Theorem failed_fetch_saves_nothing
        (svc : World.services) (ch : World.chat) (m : MessageHandler.message)
        (w w1 : World.world) (rub_amount eur_xe_raw : float) (cache : gmap string Json.json) :
  MessageHandler.validate_input m = Ok (inr rub_amount) ->
  MessageHandler._update_user_stats ch w = (Ok (), w1) ->
  World.xe_get_rate svc rub_amount = Ok eur_xe_raw ->
  CacheRepository.load (World.cache_file w) = Ok cache ->
  Json.get cache "rate" = Json.JNull ->
  (forall rate, World.easystaff_get_rate svc <> Ok (Some rate)) ->
  let failed j e :=
    (World.handle_error_result ch j e,
     World.mk_world (World.cache_file w) (j ++ [World.ErrorHandled e])) in
  let j1 := World.journal w1 ++ [World.XeRequested rub_amount] in
  let j2 := j1 ++ [World.Replied World.ReceivingRate; World.EasystaffRequested] in
  MessageHandler.handle_conversion svc ch m w =
    match World.reply_result ch j1 World.ReceivingRate with
    | Raise e => failed (j1 ++ [World.Replied World.ReceivingRate]) e
    | Ok _ =>
        match World.easystaff_get_rate svc with
        | Raise e => failed j2 e
        | Ok _ =>
            match World.reply_result ch j2 World.FailedEasystaff with
            | Raise e => failed (j2 ++ [World.Replied World.FailedEasystaff]) e
            | Ok _ =>
                (Ok (), World.mk_world (World.cache_file w)
                          (j2 ++ [World.Replied World.FailedEasystaff]))
            end
        end
    end.
Proof.
  intros Hvalid Hstats Hxe Hload Hnull Hfetch. cbv zeta.
  rewrite (handle_conversion_valid ch svc m w w1 rub_amount Hvalid Hstats).
  pose proof (stats_phase_keeps_file ch w w1 _ Hstats) as Hfile.
  rewrite <- Hfile in Hload. rewrite <- Hfile.
  rewrite (convert_with_cache ch svc rub_amount eur_xe_raw cache w1 Hxe Hload).
  cbv zeta. rewrite Hnull. cbn [World.cache_file World.journal].
  destruct (World.reply_result ch _ World.ReceivingRate) as [[]|e]; [|reflexivity].
  destruct (World.easystaff_get_rate svc) as [[rate|]|e] eqn:Hget.
  - now destruct (Hfetch rate).
  - unfold World.message_reply. cbn [World.cache_file World.journal].
    destruct (World.reply_result ch _ World.FailedEasystaff) as [[]|e]; reflexivity.
  - reflexivity.
Qed.

Lemma failed_fetch_saves_nothing_witness :
  let svc := World.mk_services (fun _ => Ok 134.5%float)
               (Raise (mk_exn RuntimeError "ERROR occurred: Timeout"))
               (PyDatetime.mk_datetime 2025 11 11 9 30 0 0) CacheRepository.NoFault in
  let ch := World.mk_chat None (fun _ _ => Ok ()) (fun _ _ => Ok ()) in
  let w := World.mk_world CacheRepository.Absent [] in
  MessageHandler.handle_conversion svc ch (MessageHandler.mk_message (Ok 12000%float)) w =
    (Ok (), World.mk_world CacheRepository.Absent
              [World.XeRequested 12000; World.Replied World.ReceivingRate;
               World.EasystaffRequested;
               World.ErrorHandled (mk_exn RuntimeError "ERROR occurred: Timeout")]).
Proof.
  intros svc ch w.
  apply (failed_fetch_saves_nothing svc ch (MessageHandler.mk_message (Ok 12000%float)) w w
           12000%float 134.5%float ∅); try reflexivity.
  intros rate. discriminate.
Defined.

(** ** The cache file *)


(** ** Timestamps with the [Z] suffix *)

Section ZuluTime.
Import PyDatetime Formatters Zulu.

Lemma isoformat_local_part (d : datetime) :
  chars (isoformat d) = local_part d ++ chars "+00:00".
Proof.
  unfold isoformat, chars, local_part. rewrite list_ascii_of_string_of_list_ascii.
  repeat rewrite <- app_assoc. reflexivity.
Qed.

Lemma lstrip_blanks (ws s : list ascii) (c : ascii) :
  Forall (fun x => is_space x = true) ws -> is_space c = false ->
  lstrip (ws ++ c :: s) = c :: s.
Proof.
  intros Hws Hc. induction Hws as [|x ws Hx _ IH]; cbn.
  - now rewrite Hc.
  - now rewrite Hx.
Qed.

Lemma strip_blanks (ws1 ws2 s : list ascii) (c z : ascii) :
  Forall (fun x => is_space x = true) ws1 -> Forall (fun x => is_space x = true) ws2 ->
  is_space c = false -> is_space z = false ->
  strip (ws1 ++ (c :: s ++ [z]) ++ ws2) = c :: s ++ [z].
Proof.
  intros H1 H2 Hc Hz. unfold strip. cbn [app]. rewrite (lstrip_blanks ws1 _ c H1 Hc).
  replace (c :: (s ++ [z]) ++ ws2) with ((c :: s) ++ z :: ws2)
    by (cbn [app]; now rewrite <- app_assoc).
  rewrite rev_app_distr. cbn [rev]. rewrite <- app_assoc. cbn [app].
  rewrite (lstrip_blanks (rev ws2) _ z); [|now apply Forall_rev|exact Hz].
  change (z :: rev s ++ [c]) with ([z] ++ rev (c :: s)).
  rewrite rev_app_distr, rev_involutive. reflexivity.
Qed.

Lemma local_part_head (d : datetime) :
  valid d = true ->
  exists c s, local_part d = c :: s /\ is_space c = false.
Proof.
  intros Hv. destruct (valid_bounds d Hv) as (Hy & _).
  unfold local_part. cbn [zfill app]. eexists _, _. split; [reflexivity|].
  apply digit_not_space. change (10 ^ N.of_nat 3)%N with 1000%N.
  change (10 ^ N.of_nat 4)%N with 10000%N in Hy.
  apply N.Div0.div_lt_upper_bound. lia.
Qed.

End ZuluTime.

(** X11.  [format_datetime] reads a UTC timestamp written with the
    [Z] suffix, also with blanks around it, as that moment with offset
    zero: the text is stripped and the [Z] replaced by [+00:00] before
    [fromisoformat]. *)
Theorem zulu_timestamp_is_read_as_utc
        (d : PyDatetime.datetime) (ws1 ws2 : list ascii) :
  PyDatetime.valid d = true ->
  Forall (fun x => Formatters.is_space x = true) ws1 ->
  Forall (fun x => Formatters.is_space x = true) ws2 ->
  Formatters.format_datetime_parsed
    (Json.JStr (string_of_list_ascii (ws1 ++ Zulu.zulu d ++ ws2))) = Some (d, Some 0%Z).
Proof.
  intros Hv H1 H2. unfold Formatters.format_datetime_parsed.
  destruct (local_part_head d Hv) as (c & s & Hcs & Hc).
  assert (Hne : String.eqb (string_of_list_ascii (ws1 ++ Zulu.zulu d ++ ws2)) "" = false).
  { apply String.eqb_neq. intros Heq.
    apply (f_equal list_ascii_of_string) in Heq.
    rewrite list_ascii_of_string_of_list_ascii in Heq.
    change (list_ascii_of_string "") with (@nil ascii) in Heq.
    apply app_eq_nil in Heq as [_ Heq]. apply app_eq_nil in Heq as [Heq _].
    unfold Zulu.zulu in Heq. rewrite Hcs in Heq. discriminate. }
  rewrite Hne. unfold PyDatetime.chars at 1. rewrite list_ascii_of_string_of_list_ascii.
  unfold Zulu.zulu. rewrite Hcs.
  change ((c :: s) ++ PyDatetime.chars "Z") with (c :: s ++ ["Z"%char]).
  rewrite (strip_blanks ws1 ws2 s c "Z"%char H1 H2 Hc eq_refl).
  unfold Formatters.zulu_to_offset.
  replace (rev (c :: s ++ ["Z"%char])) with ("Z"%char :: rev (c :: s))
    by (change (c :: s ++ ["Z"%char]) with ((c :: s) ++ ["Z"%char]); now rewrite rev_app_distr).
  cbv beta iota. rewrite Ascii.eqb_refl, rev_involutive.
  rewrite <- Hcs, <- isoformat_local_part.
  unfold PyDatetime.chars. rewrite string_of_list_ascii_of_string.
  now apply fromisoformat_isoformat.
Qed.

Lemma zulu_timestamp_is_read_as_utc_witness :
  Formatters.format_datetime_parsed
    (Json.JStr (string_of_list_ascii
       ([" "%char] ++ Zulu.zulu (PyDatetime.mk_datetime 2025 11 11 9 30 0 0)
        ++ [" "%char; "010"%char]))) =
    Some (PyDatetime.mk_datetime 2025 11 11 9 30 0 0, Some 0%Z).
Proof.
  apply (zulu_timestamp_is_read_as_utc (PyDatetime.mk_datetime 2025 11 11 9 30 0 0)
           [" "%char] [" "%char; "010"%char]).
  - reflexivity.
  - repeat constructor.
  - repeat constructor.
Defined.

(** ** [trunc2] at the two ends of its range *)

Section Cents.
Import PyDecimal.
Local Open Scope Z_scope.

Lemma small_magnitude_quantizes (c : N) (e : Z) :
  (Spec.magnitude c e < inject_Z (10 ^ 26))%Q -> c = 0%N \/ adjusted c e <= 25.
Proof.
  intros Hm. destruct (N.eq_dec c 0%N) as [->|Hc]; [now left|right].
  pose proof (mag_lt_adjusted c e 26 Hc ltac:(lia) Hm). lia.
Qed.

End Cents.

(** X12.  A value whose printed decimal is below one hundredth in
    magnitude, of either sign, is shown as plain zero: the truncation
    leaves no digit and the negative zero is normalised. *)
Theorem trunc2_below_a_cent_is_plain_zero (x : float) (s : bool) (c : N) (e : Z) :
  FloatRepr.Decimal_of_str x = PyDecimal.Finite s c e ->
  (Qabs (PyDecimal.value (PyDecimal.Finite s c e)) < 1 # 100)%Q ->
  Formatters.trunc2 x = Ok 0%float.
Proof.
  intros Hx Hsmall. rewrite Qabs_value in Hsmall.
  assert (Hq : PyDecimal.quantize (PyDecimal.Finite s c e) (-2) PyDecimal.ROUND_DOWN =
               Ok (PyDecimal.Finite s 0 (-2))).
  { rewrite quantize_ok.
    - destruct (c =? 0)%N eqn:Hc; [reflexivity|].
      destruct (rescale_down_truncates c e) as [Hle _].
      rewrite mag_hundredths in Hle.
      assert (Hr : (Z.of_N (PyDecimal.rescale c e (-2) PyDecimal.ROUND_DOWN) # 100 < 1 # 100)%Q)
        by (eapply Qle_lt_trans; eassumption).
      unfold Qlt in Hr. cbn in Hr.
      assert (PyDecimal.rescale c e (-2) PyDecimal.ROUND_DOWN = 0%N) as -> by lia.
      reflexivity.
    - now left.
    - apply small_magnitude_quantizes. eapply Qlt_trans; [exact Hsmall|]. reflexivity. }
  unfold Formatters.trunc2, Formatters.trunc2_decimal. rewrite Hx, Hq. cbn [mbind result_bind].
  destruct s; reflexivity.
Qed.

Lemma trunc2_below_a_cent_is_plain_zero_witness :
  Formatters.trunc2 (-0.004)%float = Ok 0%float.
Proof.
  apply (trunc2_below_a_cent_is_plain_zero (-0.004)%float true 4 (-3)).
  - vm_compute. reflexivity.
  - vm_compute. reflexivity.
Defined.

(** X13.  A value whose printed decimal has at most two decimal places
    (and a magnitude below 10^26) is shown unchanged: [trunc2] pads it
    to two places and drops nothing. *)
Theorem trunc2_keeps_two_decimal_values (x : float) (s : bool) (c : N) (e : Z) :
  FloatRepr.Decimal_of_str x = PyDecimal.Finite s c e ->
  (-2 <= e)%Z ->
  (Qabs (PyDecimal.value (PyDecimal.Finite s c e)) < inject_Z (10 ^ 26))%Q ->
  exists c2,
    Formatters.trunc2_decimal x = Ok (PyDecimal.Finite s c2 (-2)) /\
    (PyDecimal.value (PyDecimal.Finite s c2 (-2)) == PyDecimal.value (PyDecimal.Finite s c e))%Q.
Proof.
  intros Hx He Hm. rewrite Qabs_value in Hm.
  unfold Formatters.trunc2_decimal. rewrite Hx, quantize_ok;
    [|now left|now apply small_magnitude_quantizes].
  eexists. split; [reflexivity|].
  assert (Hc2 : Z.of_N (if (c =? 0)%N then 0%N else PyDecimal.rescale c e (-2) PyDecimal.ROUND_DOWN)
                = (Z.of_N c * 10 ^ (e + 2))%Z).
  { destruct (N.eqb_spec c 0) as [->|Hc]; [reflexivity|].
    rewrite rescale_down_value. destruct (Z.leb_spec (-2) e); [reflexivity|lia]. }
  unfold PyDecimal.value. rewrite Hc2. cbn [Z.leb Z.compare Z.opp].
  change (Z.to_pos (10 ^ 2)) with 100%positive.
  destruct (Z.leb_spec 0 e) as [Hpos|Hneg].
  - unfold Qeq, inject_Z. cbn [Qnum Qden].
    replace (e + 2)%Z with (e + 1 + 1)%Z by lia.
    rewrite !Z.pow_add_r, !Z.pow_1_r by lia.
    destruct s; lia.
  - assert (e = -1 \/ e = -2)%Z as [-> | ->] by lia; unfold Qeq; cbn [Qnum Qden];
      [change (10 ^ (-1 + 2))%Z with 10%Z; change (Z.to_pos (10 ^ (- -1))) with 10%positive
      |change (10 ^ (-2 + 2))%Z with 1%Z; change (Z.to_pos (10 ^ (- -2))) with 100%positive];
      destruct s; lia.
Qed.

Lemma trunc2_keeps_two_decimal_values_witness :
  exists c2,
    Formatters.trunc2_decimal 89.25%float = Ok (PyDecimal.Finite false c2 (-2)) /\
    (PyDecimal.value (PyDecimal.Finite false c2 (-2)) ==
     PyDecimal.value (PyDecimal.Finite false 8925 (-2)))%Q.
Proof.
  apply (trunc2_keeps_two_decimal_values 89.25%float false 8925 (-2)).
  - vm_compute. reflexivity.
  - lia.
  - vm_compute. reflexivity.
Defined.

(** ** The bootstrap loop: when it returns nothing, and where it stops *)

Section Attempts.
Import Main.
Local Open Scope Z_scope.

Context {A : Type} (make_conn : Z -> result A) (random : Z -> float)
        (retries : Z) (base cap : float).

(** An iteration that runs returns a connection or raises. *)
Lemma retry_loop_answers (fuel : nat) (a : Z) (tr : trace) :
  Z.of_nat (S fuel) = retries - a + 1 ->
  (retry_loop make_conn random retries base cap (S fuel) a tr).1 <> Ok None.
Proof.
  revert a tr. induction fuel as [|fuel IH]; intros a tr Hfuel; rewrite retry_loop_step; cbv zeta.
  - assert (a = retries) as -> by lia. rewrite Z.eqb_refl.
    destruct (make_conn retries) as [conn|e]; [discriminate|].
    rewrite every_exn_is_an_Exception. discriminate.
  - destruct (make_conn a) as [conn|e]; [discriminate|].
    rewrite every_exn_is_an_Exception. cbn [negb].
    destruct (a =? retries); [discriminate|].
    destruct (delay base cap a (random a)) as [d|e']; [|discriminate].
    apply IH. lia.
Qed.

End Attempts.

(** X14.  [connect_with_retries] returns without a connection and
    without an error exactly when [retries] is zero or negative; it has
    then made no attempt and slept no delay. *)
Theorem bootstrap_returns_nothing_only_without_attempts
        {A : Type} (make_conn : Z -> result A) (random : Z -> float)
        (retries : Z) (base cap : float) :
  let run := Main.connect_with_retries make_conn random retries base cap in
  (run.1 = Ok None <-> (retries <= 0)%Z) /\
  (run.1 = Ok None -> run.2 = Main.mk_trace 0 []).
Proof.
  cbv zeta. unfold Main.connect_with_retries.
  destruct (Z.to_nat retries) as [|fuel] eqn:Hfuel.
  - cbn. split; [split; [lia|reflexivity]|reflexivity].
  - pose proof (retry_loop_answers make_conn random retries base cap fuel 1
                  (Main.mk_trace 0 []) ltac:(lia)) as Hsome.
    split; [split; [intros H; now destruct Hsome|lia]|intros H; now destruct Hsome].
Qed.

(** X15.  With at most 1025 attempts configured, the bootstrap stops
    at the first attempt that succeeds: it returns that connection,
    has made exactly that many attempts, and has slept the backoff
    delay after each of the failures before it. *)
Theorem bootstrap_stops_at_the_first_success
        {A : Type} (make_conn : Z -> result A) (random : Z -> float)
        (retries : Z) (base cap : float) (k : Z) (conn : A) :
  (retries <= 1025)%Z ->
  (1 <= k <= retries)%Z ->
  make_conn k = Ok conn ->
  (forall n, (1 <= n < k)%Z -> exists e, make_conn n = Raise e) ->
  Main.connect_with_retries make_conn random retries base cap =
    (Ok (Some conn),
     Main.mk_trace k (map (fun n => Spec.backoff_delay base cap n (Main.uniform 1 1.4 (random n)))
                          (seqZ 1 (k - 1)))).
Proof.
  intros Hmax Hk Hconn Hfail. unfold Main.connect_with_retries.
  destruct (Z.to_nat retries) as [|fuel] eqn:Hfuel; [lia|].
  pose proof (retry_loop_spec make_conn random retries base cap fuel 1
                (Main.mk_trace 0 []) Hmax) as H.
  cbv zeta in H.
  assert (Hlen : Z.of_nat (S fuel) = (retries - 1 + 1)%Z) by lia.
  assert (Hnone : forall n, (1 <= n < 1)%Z -> exists e, make_conn n = Raise e) by lia.
  destruct (H ltac:(lia) Hlen eq_refl eq_refl Hnone) as (Hrange & Hs & Hf & Hres).
  destruct (Main.retry_loop make_conn random retries base cap (S fuel) 1 (Main.mk_trace 0 []))
    as [r [n sl]].
  cbn [fst snd Main.attempts Main.sleeps] in *.
  assert (Hn : n = k).
  { destruct (Z.lt_trichotomy n k) as [Hlt|[Heq|Hgt]]; [|exact Heq|].
    - destruct (Hfail n ltac:(lia)) as (e & He).
      destruct r as [[c|]|e']; [congruence|contradiction|].
      destruct Hres as [-> _]. lia.
    - destruct (Hf k ltac:(lia)) as (e & He). congruence. }
  subst n. destruct r as [[c|]|e]; [|contradiction|].
  - rewrite Hs. congruence.
  - destruct Hres as [-> Hres]. congruence.
Qed.

Lemma bootstrap_stops_at_the_first_success_witness :
  let make_conn := fun n : Z => if (n =? 3)%Z then Ok "db"%string
                                else Raise (mk_exn OSError "connection refused") in
  Main.connect_with_retries make_conn (fun _ => 0.5%float)
    Main.default_retries Main.default_base Main.default_cap =
    (Ok (Some "db"%string),
     Main.mk_trace 3 (map (fun n => Spec.backoff_delay Main.default_base Main.default_cap n
                                      (Main.uniform 1 1.4 0.5))
                          (seqZ 1 (3 - 1)))).
Proof.
  intros make_conn.
  apply (bootstrap_stops_at_the_first_success make_conn (fun _ => 0.5%float)
           Main.default_retries Main.default_base Main.default_cap 3 "db"%string).
  - unfold Main.default_retries. lia.
  - unfold Main.default_retries. lia.
  - reflexivity.
  - intros n Hn. exists (mk_exn OSError "connection refused"). unfold make_conn.
    destruct (Z.eqb_spec n 3); [lia|reflexivity].
Defined.

(** ** Admin notifications *)

Section Notifications.
Import NotificationService.
Local Open Scope Z_scope.

Variable send_message : nat -> Z -> string -> result unit.
Variable message : string.

Lemma send_one_spec (b : batch) (admin : Z) :
  let ok := succeeded (send_message (length (deliveries b)) admin (prefixed message)) in
  send_one send_message message b admin =
    Ok (mk_batch (success_count b + (if ok then 1 else 0))
                 (fail_count b + (if ok then 0 else 1))
                 (deliveries b ++ [mk_delivery admin (prefixed message) ok])).
Proof.
  unfold send_one, try_except.
  destruct (send_message (length (deliveries b)) admin (prefixed message)) as [[]|e];
    unfold mbind, result_bind; cbn [succeeded].
  - now rewrite Z.add_0_r.
  - rewrite every_exn_is_an_Exception. now rewrite Z.add_0_r.
Qed.

Lemma send_all_spec (admins : list Z) (b : batch) :
  exists b',
    send_all send_message message admins b = Ok b' /\
    deliveries b' =
      deliveries b ++
      imap (fun i admin =>
              mk_delivery admin (prefixed message)
                (succeeded (send_message (length (deliveries b) + i)%nat admin (prefixed message))))
           admins /\
    success_count b' - success_count b =
      Z.of_nat (length (List.filter delivered (deliveries b'))) -
      Z.of_nat (length (List.filter delivered (deliveries b))) /\
    success_count b' + fail_count b' =
      success_count b + fail_count b + Z.of_nat (length admins).
Proof.
  revert b. induction admins as [|admin rest IH]; intros b; cbn [send_all].
  - exists b. cbn. rewrite app_nil_r. repeat split; lia.
  - rewrite send_one_spec. cbn [mbind result_bind].
    set (ok := succeeded (send_message (length (deliveries b)) admin (prefixed message))).
    destruct (IH (mk_batch (success_count b + (if ok then 1 else 0))
                           (fail_count b + (if ok then 0 else 1))
                           (deliveries b ++ [mk_delivery admin (prefixed message) ok])))
      as (b' & Hrun & Hd & Hs & Hsum).
    cbn [deliveries success_count fail_count] in *.
    exists b'. split; [exact Hrun|]. split; [|split].
    + rewrite Hd, <- app_assoc. f_equal. cbn [app imap]. f_equal.
      * unfold ok. now rewrite Nat.add_0_r.
      * apply imap_ext. intros i x _. cbn. rewrite length_app. cbn.
        now replace (length (deliveries b) + 1 + i)%nat with (length (deliveries b) + S i)%nat by lia.
    + rewrite List.filter_app, length_app in Hs. cbn in Hs. destruct ok; cbn in Hs; lia.
    + cbn [length]. destruct ok; lia.
Qed.

End Notifications.

(** X16.  [notify_admins] never raises and sends the prefixed message
    to every administrator once, in the order of [ADMIN_IDS], whether
    or not earlier sends failed; its two counters are the numbers of
    sends that succeeded and that failed. *)
Theorem notify_admins_tries_every_admin
        (send_message : nat -> Z -> string -> result unit)
        (ADMIN_IDS : list Z) (message : string) :
  exists b,
    NotificationService.notify_admins send_message ADMIN_IDS message = Ok b /\
    NotificationService.deliveries b =
      NotificationService.one_send_each send_message ADMIN_IDS message /\
    NotificationService.success_count b =
      Z.of_nat (length (List.filter NotificationService.delivered
                                    (NotificationService.deliveries b))) /\
    (NotificationService.success_count b + NotificationService.fail_count b)%Z =
      Z.of_nat (length ADMIN_IDS).
Proof.
  destruct (send_all_spec send_message message ADMIN_IDS (NotificationService.mk_batch 0 0 []))
    as (b & Hrun & Hd & Hs & Hsum).
  cbn in Hd, Hs, Hsum.
  exists b. split; [|split; [exact Hd|split; lia]].
  unfold NotificationService.notify_admins. destruct ADMIN_IDS; [|exact Hrun].
  cbn in Hrun. exact Hrun.
Qed.

(** ** The error handler *)

Section Alerts.
Import ErrorHandler.
Local Open Scope Z_scope.

Variable send_message : Z -> Z -> alert -> result unit.
Variable a : alert.

Lemma alert_all_spec (admins : list Z) (i : Z) (log : list action) :
  alert_all send_message a (i + Z.of_nat (length admins)) i admins log =
    (Ok (), log ++ paced (imap (fun k admin =>
                                  AdminAlert admin a
                                    (NotificationService.succeeded
                                       (send_message (i + Z.of_nat k) admin a)))
                               admins)).
Proof.
  revert i log. induction admins as [|admin rest IH]; intros i log; cbn [alert_all].
  - cbn. now rewrite app_nil_r.
  - assert (Hone : alert_one send_message a (i + Z.of_nat (length (admin :: rest))) i admin log =
                   (Ok (), log ++ [AdminAlert admin a
                                     (NotificationService.succeeded (send_message i admin a))]
                           ++ match rest with [] => [] | _ => [Slept 0.05] end)).
    { unfold alert_one.
      destruct (send_message i admin a) as [[]|e]; [|rewrite every_exn_is_an_Exception];
        cbn [NotificationService.succeeded];
        (destruct rest as [|r rest'];
         [cbn [length]; rewrite Z.ltb_irrefl; now rewrite app_nil_r
         |cbn [length];
          destruct (Z.ltb_spec (i + 1) (i + Z.of_nat (S (S (length rest'))))); [|lia];
          now rewrite <- app_assoc]). }
    rewrite Hone.
    replace (i + Z.of_nat (length (admin :: rest))) with (i + 1 + Z.of_nat (length rest))
      by (cbn [length]; lia).
    rewrite IH, <- !app_assoc. f_equal. cbn [imap]. rewrite Z.add_0_r.
    assert (Hext : imap (fun k admin0 =>
                           AdminAlert admin0 a
                             (NotificationService.succeeded
                                (send_message (i + 1 + Z.of_nat k) admin0 a))) rest =
                   imap ((fun k admin0 =>
                            AdminAlert admin0 a
                              (NotificationService.succeeded
                                 (send_message (i + Z.of_nat k) admin0 a))) ∘ S) rest).
    { apply imap_ext. intros k x _. cbn. now replace (i + 1 + Z.of_nat k) with (i + Z.pos (Pos.of_succ_nat k)) by lia. }
    rewrite Hext. destruct rest as [|r rest']; reflexivity.
Qed.

End Alerts.

(** X17.  [handle_error] alerts every administrator once, in order and
    whether or not earlier alerts failed, pausing 0.05 s between two
    alerts and not after the last; the reply to the user comes last and
    decides the outcome.  The error number lies in [0, 1000000), also
    for a negative hash. *)
Theorem handle_error_alerts_every_admin_then_replies
        (send_message : Z -> Z -> ErrorHandler.alert -> result unit) (reply : result unit)
        (ADMIN_IDS : list Z) (message : ErrorHandler.incoming) (error : exn)
        (hash : Z) (context : string) :
  let id := ErrorHandler.error_id hash in
  let a := ErrorHandler.mk_alert id (ErrorHandler.from_user_id message) (cls error) (msg error)
                                 (ErrorHandler.context_or_na context) in
  (0 <= id < 1000000)%Z /\
  ErrorHandler.handle_error send_message reply ADMIN_IDS message error hash context =
    (reply,
     ErrorHandler.paced (ErrorHandler.one_alert_each send_message a ADMIN_IDS)
       ++ [ErrorHandler.UserReply id]).
Proof.
  intros id a. split.
  - unfold id, ErrorHandler.error_id. apply Z.mod_pos_bound. lia.
  - unfold ErrorHandler.handle_error. fold id. fold a.
    pose proof (alert_all_spec send_message a ADMIN_IDS 0 []) as H.
    rewrite Z.add_0_l in H. rewrite H. reflexivity.
Qed.

(** ** The database connection wrapper *)

Section Connection.
Import AsyncDatabaseConnection.

Variable drv : driver.

Lemma swallowed {A} (r : result A) (a : A) :
  exists a', try_except r [Exception] (fun _ => Ok a) = Ok a'.
Proof.
  destruct r as [x|e]; cbn [try_except]; [now exists x|].
  rewrite every_exn_is_an_Exception. now exists a.
Qed.

Lemma connect_ok (s s' : db) :
  connect drv s = (Ok (), s') -> exists h, conn s' = Some h.
Proof.
  unfold connect. destruct (conn s) as [h0|].
  - destruct (swallowed (ensure_closed drv (calls s) h0) ()) as (x & ->).
    cbn [calls]. destruct (asyncmy_connect drv _) as [h|e]; [|discriminate].
    intros [= <-]. now exists h.
  - destruct (asyncmy_connect drv _) as [h|e]; [|discriminate].
    intros [= <-]. now exists h.
Qed.

End Connection.

(** X18.  When the health check of [get_cursor] returns, there is a
    connection: [cursor()] does not raise "Connection is not
    established", the block runs with a cursor of that connection, and
    the cursor is closed after the block whether the block returned or
    raised; the outcome is the block's unless the close itself fails. *)
Theorem get_cursor_runs_the_block_and_closes_the_cursor
        {A : Type} (drv : AsyncDatabaseConnection.driver)
        (body : AsyncDatabaseConnection.handle -> AsyncDatabaseConnection.D A)
        (s s1 : AsyncDatabaseConnection.db) :
  AsyncDatabaseConnection.ensure_connected drv s = (Ok (), s1) ->
  exists h,
    AsyncDatabaseConnection.conn s1 = Some h /\
    let s2 := AsyncDatabaseConnection.mk_db
                (Some h)
                (AsyncDatabaseConnection.calls s1 ++ [AsyncDatabaseConnection.CursorOpened h]) in
    AsyncDatabaseConnection.calls (AsyncDatabaseConnection.get_cursor drv body s).2 =
      AsyncDatabaseConnection.calls (body h s2).2 ++ [AsyncDatabaseConnection.CursorClosed h] /\
    (AsyncDatabaseConnection.get_cursor drv body s).1 =
      match AsyncDatabaseConnection.cursor_close drv
              (AsyncDatabaseConnection.calls (body h s2).2) h with
      | Ok _ => (body h s2).1
      | Raise e => Raise e
      end.
Proof.
  intros H.
  assert (Hconn : exists h, AsyncDatabaseConnection.conn s1 = Some h).
  { unfold AsyncDatabaseConnection.ensure_connected in H.
    destruct (AsyncDatabaseConnection.conn s) as [h0|] eqn:Hs.
    - destruct (AsyncDatabaseConnection.ping drv _ h0) as [[]|e].
      + injection H as <-. now exists h0.
      + rewrite every_exn_is_an_Exception in H. now apply connect_ok in H.
    - now apply connect_ok in H. }
  destruct Hconn as (h & Hh). exists h. split; [exact Hh|]. cbv zeta.
  unfold AsyncDatabaseConnection.get_cursor. rewrite H.
  unfold AsyncDatabaseConnection.cursor. rewrite Hh.
  destruct (body h _) as [r s3]. cbn [fst snd].
  destruct (AsyncDatabaseConnection.cursor_close drv _ h); split; reflexivity.
Qed.

Lemma get_cursor_runs_the_block_and_closes_the_cursor_witness :
  let drv := AsyncDatabaseConnection.mk_driver
               (fun calls => Ok (length calls))
               (fun _ _ => Ok ())
               (fun _ _ => Raise (mk_exn OSError "MySQL server has gone away"))
               (fun _ _ => Ok ()) in
  let body := fun (cur : AsyncDatabaseConnection.handle) (st : AsyncDatabaseConnection.db) =>
                (@Raise unit (mk_exn RuntimeError "Duplicate entry"), st) in
  let s := AsyncDatabaseConnection.mk_db (Some 0%nat) [] in
  let s1 := AsyncDatabaseConnection.mk_db (Some 2%nat)
              [AsyncDatabaseConnection.Ping 0%nat; AsyncDatabaseConnection.EnsureClosed 0%nat;
               AsyncDatabaseConnection.Connect (Some 2%nat)] in
  exists h,
    AsyncDatabaseConnection.conn s1 = Some h /\
    let s2 := AsyncDatabaseConnection.mk_db
                (Some h)
                (AsyncDatabaseConnection.calls s1 ++ [AsyncDatabaseConnection.CursorOpened h]) in
    AsyncDatabaseConnection.calls (AsyncDatabaseConnection.get_cursor drv body s).2 =
      AsyncDatabaseConnection.calls (body h s2).2 ++ [AsyncDatabaseConnection.CursorClosed h] /\
    (AsyncDatabaseConnection.get_cursor drv body s).1 =
      match AsyncDatabaseConnection.cursor_close drv
              (AsyncDatabaseConnection.calls (body h s2).2) h with
      | Ok _ => (body h s2).1
      | Raise e => Raise e
      end.
Proof.
  intros drv body s s1.
  apply (get_cursor_runs_the_block_and_closes_the_cursor drv body s s1).
  reflexivity.
Defined.

(** X19.  [close] never raises and always leaves [self.conn] at
    [None], also when the driver fails to close; closing again does
    nothing. *)
Theorem close_always_clears_the_connection
        (drv : AsyncDatabaseConnection.driver) (s : AsyncDatabaseConnection.db) :
  (AsyncDatabaseConnection.close drv s).1 = Ok () /\
  AsyncDatabaseConnection.conn (AsyncDatabaseConnection.close drv s).2 = None /\
  AsyncDatabaseConnection.close drv (AsyncDatabaseConnection.close drv s).2 =
    (Ok (), (AsyncDatabaseConnection.close drv s).2).
Proof.
  unfold AsyncDatabaseConnection.close.
  destruct (AsyncDatabaseConnection.conn s) as [h|] eqn:Hs; cbn [fst snd].
  - split; [|split; reflexivity].
    destruct (swallowed (AsyncDatabaseConnection.ensure_closed drv
                           (AsyncDatabaseConnection.calls s) h) ()) as ([] & ->).
    reflexivity.
  - rewrite Hs. auto.
Qed.

(** X20.  A reconnect never forgets the old connection silently: when
    [connect] is called with a connection in place, that connection is
    closed first, and [self.conn] holds a connection afterwards whether
    or not the new one could be made (the old, closed one if not). *)
Theorem connect_closes_the_old_connection_first
        (drv : AsyncDatabaseConnection.driver) (s : AsyncDatabaseConnection.db)
        (h : AsyncDatabaseConnection.handle) :
  AsyncDatabaseConnection.conn s = Some h ->
  exists made h',
    AsyncDatabaseConnection.calls (AsyncDatabaseConnection.connect drv s).2 =
      AsyncDatabaseConnection.calls s ++
      [AsyncDatabaseConnection.EnsureClosed h; AsyncDatabaseConnection.Connect made] /\
    AsyncDatabaseConnection.conn (AsyncDatabaseConnection.connect drv s).2 = Some h' /\
    (made = None -> h' = h /\ exists e, (AsyncDatabaseConnection.connect drv s).1 = Raise e).
Proof.
  intros Hs. unfold AsyncDatabaseConnection.connect. rewrite Hs.
  destruct (swallowed (AsyncDatabaseConnection.ensure_closed drv
                         (AsyncDatabaseConnection.calls s) h) ()) as ([] & ->).
  cbn [AsyncDatabaseConnection.calls AsyncDatabaseConnection.conn].
  destruct (AsyncDatabaseConnection.asyncmy_connect drv _) as [h'|e]; cbn [fst snd].
  - exists (Some h'), h'. cbn. rewrite <- app_assoc.
    split; [reflexivity|split; [reflexivity|discriminate]].
  - exists None, h. cbn. rewrite <- app_assoc.
    split; [reflexivity|split; [reflexivity|intros _; split; [reflexivity|now exists e]]].
Qed.

Lemma connect_closes_the_old_connection_first_witness :
  let drv := AsyncDatabaseConnection.mk_driver
               (fun _ => Raise (mk_exn OSError "Can't connect to MySQL server"))
               (fun _ _ => Ok ()) (fun _ _ => Ok ()) (fun _ _ => Ok ()) in
  let s := AsyncDatabaseConnection.mk_db (Some 0%nat) [] in
  exists made h',
    AsyncDatabaseConnection.calls (AsyncDatabaseConnection.connect drv s).2 =
      AsyncDatabaseConnection.calls s ++
      [AsyncDatabaseConnection.EnsureClosed 0%nat; AsyncDatabaseConnection.Connect made] /\
    AsyncDatabaseConnection.conn (AsyncDatabaseConnection.connect drv s).2 = Some h' /\
    (made = None -> h' = 0%nat /\ exists e, (AsyncDatabaseConnection.connect drv s).1 = Raise e).
Proof.
  intros drv s.
  apply (connect_closes_the_old_connection_first drv s 0%nat). reflexivity.
Defined.

(** ** The two commands *)

(** X21.  [/stats] makes at most one answer and raises only what that
    answer raises, or what the formatting of the table raises, and then
    nothing is answered.  The database is queried (once, before the
    answer) only for an administrator with the database enabled and a
    repository in place; a failed query is answered with the error text;
    whoever is not an administrator gets the refusal. *)
Theorem cmd_stats_answers_once_and_guards_the_database
        (message_answer : list Commands.action -> Commands.answer -> result unit)
        (ADMIN_IDS : gset Z) (USE_DB : bool) (stats_repo : option Commands.repository)
        (user_id : Z) (log : list Commands.action) :
  let queried := bool_decide (user_id ∈ ADMIN_IDS) && USE_DB &&
                 match stats_repo with Some _ => true | None => false end in
  let log1 := log ++ (if queried then [Commands.StatsQueried] else []) in
  let run := Commands.cmd_stats message_answer ADMIN_IDS USE_DB stats_repo user_id log in
  (exists a,
     run = (message_answer log1 a, log1 ++ [Commands.Answered a]) /\
     (user_id ∉ ADMIN_IDS -> a = Commands.TakeAWalk) /\
     (forall repo e, queried = true -> stats_repo = Some repo ->
        Commands.get_stats repo = Raise e ->
        a = Commands.ErrorRetrieving (String.substring 0 200 (msg e)))) \/
  (exists repo st e,
     queried = true /\ stats_repo = Some repo /\ Commands.get_stats repo = Ok st /\
     Commands.formatted st = Raise e /\ run = (Raise e, log1)).
Proof.
  unfold Commands.cmd_stats, Commands.say.
  destruct (bool_decide (user_id ∈ ADMIN_IDS)) eqn:Hadmin; cbn [negb andb].
  - apply bool_decide_eq_true in Hadmin.
    destruct USE_DB; cbn [negb andb].
    + destruct stats_repo as [repo|].
      * destruct (Commands.get_stats repo) as [st|e] eqn:Hget.
        -- destruct (Commands.formatted st) as [table|e] eqn:Hfmt.
           ++ left. eexists. split; [reflexivity|]. split; [tauto|].
              intros repo' e' _ [= <-]. congruence.
           ++ right. exists repo, st, e. auto.
        -- rewrite every_exn_is_an_Exception.
           left. eexists. split; [reflexivity|]. split; [tauto|].
           intros repo' e' _ [= <-]. congruence.
      * left. rewrite app_nil_r. eexists. split; [reflexivity|]. split; [tauto|]. discriminate.
    + left. rewrite app_nil_r. eexists. split; [reflexivity|]. split; [tauto|]. discriminate.
  - left. rewrite app_nil_r. eexists. split; [reflexivity|]. split; [reflexivity|]. discriminate.
Qed.

(** X22.  [/start] greets first.  When the greeting raises, that
    exception leaves the command and nothing is recorded; when it
    returns, the command returns: the usage is recorded after the
    greeting, only with the database enabled and a repository in place,
    and a failure of that update is swallowed. *)
Theorem cmd_start_greets_first_and_swallows_update_failures
        (message_answer : list Commands.action -> Commands.answer -> result unit)
        (USE_DB : bool) (stats_repo : option Commands.repository) (log : list Commands.action) :
  Commands.cmd_start message_answer USE_DB stats_repo log =
    match message_answer log Commands.Greeting with
    | Raise e => (Raise e, log ++ [Commands.Answered Commands.Greeting])
    | Ok _ =>
        (Ok (), log ++ [Commands.Answered Commands.Greeting]
                    ++ (if USE_DB && match stats_repo with Some _ => true | None => false end
                        then [Commands.StatsUpdated] else []))
    end.
Proof.
  unfold Commands.cmd_start, Commands.say.
  destruct (message_answer log Commands.Greeting) as [[]|e]; [|reflexivity].
  destruct USE_DB; cbn [negb andb]; [|reflexivity].
  destruct stats_repo as [repo|]; [|reflexivity].
  destruct (swallowed (Commands.update_user_stats repo) ()) as ([] & ->).
  now rewrite <- app_assoc.
Qed.

(** ** Strings: strip, find, split *)

Section Strings.
Import PyStr.
Local Open Scope N_scope.

Variable u : unicode.

Lemma lstrip_decompose (s : str) :
  exists ws, s = ws ++ lstrip u s /\ Forall (fun c => isspace u c = true) ws.
Proof.
  induction s as [|c s IH]; cbn.
  - exists []. split; [reflexivity|constructor].
  - destruct (isspace u c) eqn:Hc.
    + destruct IH as (ws & Hs & Hws). exists (c :: ws). split.
      * cbn. now rewrite <- Hs.
      * now constructor.
    + exists []. split; [reflexivity|constructor].
Qed.

Lemma strip_decompose (s : str) :
  exists ws1 ws2, s = ws1 ++ strip u s ++ ws2 /\
    Forall (fun c => isspace u c = true) ws1 /\ Forall (fun c => isspace u c = true) ws2.
Proof.
  unfold strip.
  destruct (lstrip_decompose s) as (ws1 & H1 & Hws1).
  destruct (lstrip_decompose (rev (lstrip u s))) as (ws2 & H2 & Hws2).
  exists ws1, (rev ws2). split; [|split; [exact Hws1|]].
  - rewrite <- rev_app_distr, <- H2, rev_involutive. exact H1.
  - apply List.Forall_forall. intros c Hc. apply in_rev in Hc.
    revert c Hc. apply List.Forall_forall. exact Hws2.
Qed.

Lemma lstrip_no_space (s : str) :
  Forall (fun c => isspace u c = false) s -> lstrip u s = s.
Proof. destruct 1 as [|c s Hc _]; cbn; [reflexivity|now rewrite Hc]. Qed.

Lemma strip_no_space (s : str) :
  Forall (fun c => isspace u c = false) s -> strip u s = s.
Proof.
  intros H. unfold strip. rewrite (lstrip_no_space s H), lstrip_no_space, rev_involutive; [reflexivity|].
  apply List.Forall_forall. intros c Hc. apply in_rev in Hc. revert c Hc. now apply List.Forall_forall.
Qed.

Lemma remove_app (c : char) (s t : str) : remove c (s ++ t) = remove c s ++ remove c t.
Proof. apply List.filter_app. Qed.

Lemma remove_absent (c : char) (s : str) :
  Forall (fun x => x <> c) s -> remove c s = s.
Proof.
  unfold remove. induction 1 as [|x s Hx _ IH]; cbn; [reflexivity|].
  apply N.eqb_neq in Hx. rewrite Hx. cbn. now rewrite IH.
Qed.

Lemma remove_gone (c : char) (s : str) : Forall (fun x => x <> c) (remove c s).
Proof.
  apply List.Forall_forall. intros x Hx. apply List.filter_In in Hx as [_ Hx].
  apply negb_true_iff, N.eqb_neq in Hx. exact Hx.
Qed.

Lemma count_app (c : char) (s t : str) : count c (s ++ t) = (count c s + count c t)%nat.
Proof. unfold count. now rewrite List.filter_app, length_app. Qed.

Lemma count_cons (c x : char) (s : str) :
  count c (x :: s) = ((if (c =? x)%N then 1 else 0) + count c s)%nat.
Proof. unfold count. cbn [List.filter]. now destruct (c =? x). Qed.

Lemma count_absent (c : char) (s : str) : Forall (fun x => x <> c) s -> count c s = 0%nat.
Proof.
  unfold count. induction 1 as [|x s Hx _ IH]; cbn; [reflexivity|].
  assert ((c =? x) = false) as -> by (apply N.eqb_neq; congruence). exact IH.
Qed.

Lemma count_zero_absent (c : char) (s : str) : count c s = 0%nat -> Forall (fun x => x <> c) s.
Proof.
  unfold count. induction s as [|x s IH]; cbn; [constructor|].
  destruct (c =? x) eqn:Hx; cbn; [discriminate|].
  intros H. constructor; [apply N.eqb_neq in Hx; congruence|auto].
Qed.

Lemma contains_absent (c : char) (s : str) :
  contains c s = false <-> Forall (fun x => x <> c) s.
Proof.
  unfold contains. induction s as [|x s IH]; cbn.
  - split; [constructor|reflexivity].
  - rewrite orb_false_iff, IH, Forall_cons, N.eqb_neq. intuition congruence.
Qed.

Lemma contains_In (c : char) (s : str) : contains c s = true <-> In c s.
Proof.
  unfold contains. rewrite existsb_exists. split.
  - intros (x & Hx & Heq). apply N.eqb_eq in Heq. now subst.
  - intros H. exists c. split; [exact H|apply N.eqb_refl].
Qed.

(** The last occurrence. *)
Lemma last_occurrence (c : char) (s : str) :
  In c s -> exists p q, s = p ++ c :: q /\ Forall (fun x => x <> c) q.
Proof.
  induction s as [|x s IH]; [intros []|].
  intros Hin. destruct (contains c s) eqn:Hs.
  - apply contains_In in Hs. destruct (IH Hs) as (p & q & -> & Hq).
    exists (x :: p), q. split; [reflexivity|exact Hq].
  - apply contains_absent in Hs. destruct Hin as [->|Hin].
    + exists [], s. split; [reflexivity|exact Hs].
    + exfalso. rewrite List.Forall_forall in Hs. now apply (Hs c).
Qed.

Lemma rfind_from_app (c : char) (s t : str) (i found : Z) :
  rfind_from c (s ++ t) i found =
    rfind_from c t (i + Z.of_nat (length s))%Z (rfind_from c s i found).
Proof.
  revert i found. induction s as [|x s IH]; intros i found; cbn [app rfind_from length].
  - now rewrite Z.add_0_r.
  - rewrite IH. f_equal. lia.
Qed.

Lemma rfind_from_absent (c : char) (s : str) (i found : Z) :
  Forall (fun x => x <> c) s -> rfind_from c s i found = found.
Proof.
  intros H. revert i found. induction H as [|x s Hx _ IH]; intros i found; cbn; [reflexivity|].
  apply N.eqb_neq in Hx. rewrite Hx. apply IH.
Qed.

Lemma rfind_last (c : char) (p q : str) :
  Forall (fun x => x <> c) q -> rfind c (p ++ c :: q) = Z.of_nat (length p).
Proof.
  intros Hq. unfold rfind. rewrite rfind_from_app. cbn. rewrite N.eqb_refl.
  now rewrite rfind_from_absent.
Qed.

Lemma rfind_absent_tail (c : char) (s t : str) :
  Forall (fun x => x <> c) t -> rfind c (s ++ t) = rfind c s.
Proof. intros Ht. unfold rfind. rewrite rfind_from_app. now apply rfind_from_absent. Qed.

Lemma rfind_from_bound (c : char) (s : str) (i found : Z) :
  (found < i -> rfind_from c s i found < i + Z.of_nat (length s))%Z.
Proof.
  revert i found. induction s as [|x s IH]; intros i found Hf; cbn [rfind_from length]; [lia|].
  specialize (IH (i + 1)%Z (if x =? c then i else found)).
  destruct (x =? c); lia.
Qed.

Lemma rfind_bound (c : char) (s : str) : (rfind c s < Z.of_nat (length s))%Z.
Proof. unfold rfind. pose proof (rfind_from_bound c s 0 (-1)). lia. Qed.

Lemma split_absent (c : char) (s : str) : Forall (fun x => x <> c) s -> split c s = [s].
Proof.
  induction 1 as [|x s Hx _ IH]; cbn; [reflexivity|].
  apply N.eqb_neq in Hx. now rewrite Hx, IH.
Qed.

Lemma split_once (c : char) (a b : str) :
  Forall (fun x => x <> c) a -> Forall (fun x => x <> c) b -> split c (a ++ c :: b) = [a; b].
Proof.
  intros Ha Hb. induction Ha as [|x a Hx _ IH]; cbn.
  - now rewrite N.eqb_refl, split_absent.
  - apply N.eqb_neq in Hx. now rewrite Hx, IH.
Qed.

Lemma ascii_digit_range (c : char) : ascii_digit c = true <-> 48 <= c <= 57.
Proof. unfold ascii_digit. rewrite andb_true_iff, !N.leb_le. reflexivity. Qed.

Lemma ascii_tables_plain : plain ascii_tables.
Proof.
  split; intros c; cbn.
  - auto.
  - unfold ascii_digit, NBSP, NNBSP, DOT, COMMA, MINUS.
    rewrite !orb_true_iff, !andb_true_iff, !N.leb_le, !N.eqb_eq, andb_false_iff, !N.leb_gt.
    lia.
Qed.

End Strings.

(** ** [_normalize_number] *)

Section XeTexts.
Import PyStr XeService.
Local Open Scope N_scope.

Variable u : unicode.

Lemma keep_ascii_number_shape (s : str) :
  Forall (fun c => ascii_digit c || (c =? DOT) || (c =? MINUS) = true) (keep_ascii_number s).
Proof.
  apply List.Forall_forall. intros c Hc. now apply List.filter_In in Hc as [_ Hc].
Qed.

Lemma keep_ascii_number_id (s : str) :
  Forall (fun c => ascii_digit c || (c =? DOT) || (c =? MINUS) = true) s ->
  keep_ascii_number s = s.
Proof.
  unfold keep_ascii_number. induction 1 as [|x s Hx _ IH]; cbn; [reflexivity|].
  now rewrite Hx, IH.
Qed.

Lemma single_dot_shape (P : char -> Prop) (s : str) :
  Forall P s -> Forall P (single_dot s) /\ (count DOT (single_dot s) <= 1)%nat.
Proof.
  intros HP. unfold single_dot. destruct (1 <? count DOT s)%nat eqn:Hmany.
  - apply Nat.ltb_lt in Hmany.
    assert (Hin : In DOT s).
    { apply contains_In. destruct (contains DOT s) eqn:Hc; [reflexivity|].
      apply contains_absent, count_absent in Hc. lia. }
    destruct (last_occurrence DOT s Hin) as (p & q & -> & Hq).
    rewrite (rfind_last DOT p q Hq), Nat2Z.id.
    rewrite take_app_length, drop_app_length. split.
    + apply Forall_app in HP as [Hp Hqq]. apply Forall_app. split; [|exact Hqq].
      apply List.Forall_forall. intros c Hc. apply List.filter_In in Hc as [Hc _].
      revert c Hc. now apply List.Forall_forall.
    + rewrite count_app, (count_absent DOT (remove DOT p) (remove_gone DOT p)).
      change (DOT :: q) with ([DOT] ++ q). rewrite count_app, (count_absent DOT q Hq).
      cbn. lia.
  - apply Nat.ltb_ge in Hmany. split; [exact HP|exact Hmany].
Qed.

Lemma single_dot_id (s : str) : (count DOT s <= 1)%nat -> single_dot s = s.
Proof.
  intros H. unfold single_dot.
  destruct (1 <? count DOT s)%nat eqn:Hmany; [apply Nat.ltb_lt in Hmany; lia|reflexivity].
Qed.

(** A text made of ASCII digits, commas and dots passes the first three
    steps unchanged. *)
Hypothesis Hplain : plain u.

Lemma number_char_no_space (c : char) : number_char c -> isspace u c = false.
Proof.
  intros Hc. destruct (isspace u c) eqn:Hs; [|reflexivity].
  destruct (spaces_apart u Hplain c Hs) as (Hd & Hdot & Hcomma & _).
  destruct Hc as [Hc|[Hc|Hc]]; [|congruence|congruence].
  destruct (ascii_digits_known u Hplain c Hc). congruence.
Qed.

Lemma number_char_cases (c : char) :
  number_char c -> c <> SPACE /\ c <> NBSP /\ c <> NNBSP /\ c <> MINUS.
Proof.
  unfold number_char, SPACE, NBSP, NNBSP, MINUS, COMMA, DOT. rewrite ascii_digit_range. lia.
Qed.

Lemma first_steps_id (t : str) :
  Forall number_char t ->
  remove NNBSP (remove NBSP (remove SPACE (keep_number_chars u (strip u t)))) = t.
Proof.
  intros Ht. rewrite strip_no_space.
  2:{ eapply Forall_impl; [exact Ht|]. apply number_char_no_space. }
  assert (keep_number_chars u t = t) as ->.
  { unfold keep_number_chars. induction Ht as [|x t Hx _ IH]; cbn; [reflexivity|].
    rewrite IH. destruct Hx as [Hx | [-> | ->] ].
    - destruct (ascii_digits_known u Hplain x Hx) as [_ Hdec]. now rewrite Hdec.
    - rewrite !orb_true_r. reflexivity.
    - rewrite !orb_true_r. reflexivity. }
  assert (Hno : forall c, c = SPACE \/ c = NBSP \/ c = NNBSP -> remove c t = t).
  { intros c Hc. apply remove_absent. eapply Forall_impl; [exact Ht|].
    intros x Hx. apply number_char_cases in Hx. intuition congruence. }
  rewrite !Hno by tauto. reflexivity.
Qed.

Lemma digits_number_chars (s : str) :
  Forall (fun c => ascii_digit c = true) s -> Forall number_char s.
Proof. intros H. eapply Forall_impl; [exact H|]. intros c Hc. now left. Qed.

Lemma digits_without (sep : char) (s : str) :
  sep = COMMA \/ sep = DOT \/ sep = MINUS ->
  Forall (fun c => ascii_digit c = true) s -> Forall (fun c => c <> sep) s.
Proof.
  intros Hsep H. eapply Forall_impl; [exact H|]. intros c Hc. apply ascii_digit_range in Hc.
  unfold COMMA, DOT, MINUS in Hsep. lia.
Qed.

Lemma digits_shape (s : str) :
  Forall (fun c => ascii_digit c = true) s ->
  Forall (fun c => ascii_digit c || (c =? DOT) || (c =? MINUS) = true) s.
Proof. intros H. eapply Forall_impl; [exact H|]. intros c ->. reflexivity. Qed.

Lemma digits_isdigit (s : str) :
  s <> [] -> Forall (fun c => ascii_digit c = true) s -> str_isdigit u s = true.
Proof.
  intros Hne Hs. destruct s as [|x s]; [congruence|]. unfold str_isdigit.
  apply forallb_forall. intros c Hc. rewrite List.Forall_forall in Hs.
  now destruct (ascii_digits_known u Hplain c (Hs c Hc)).
Qed.

Lemma replace_absent (c d : char) (s : str) :
  Forall (fun x => x <> c) s -> replace c d s = s.
Proof.
  unfold replace. induction 1 as [|x s Hx _ IH]; cbn; [reflexivity|].
  apply N.eqb_neq in Hx. now rewrite Hx, IH.
Qed.

End XeTexts.

Section XeSeparators.
Import PyStr XeService.
Local Open Scope N_scope.

Variable u : unicode.
Hypothesis Hplain : plain u.

(** A text of digits with at most one dot passes the last two steps
    unchanged. *)
Lemma last_steps_id (s : str) :
  Forall (fun c => ascii_digit c || (c =? DOT) || (c =? MINUS) = true) s ->
  (count DOT s <= 1)%nat ->
  single_dot (keep_ascii_number s) = s.
Proof. intros Hs Hdots. now rewrite keep_ascii_number_id, single_dot_id. Qed.

Lemma grouped_shape (p : str) :
  Forall (fun ch => ascii_digit ch = true \/ ch = COMMA) p ->
  Forall (fun c => ascii_digit c = true) (remove COMMA p).
Proof.
  intros Hp. apply List.Forall_forall. intros x Hx. apply List.filter_In in Hx as [Hin Hx].
  rewrite List.Forall_forall in Hp. destruct (Hp x Hin) as [Hd| ->]; [exact Hd|].
  now rewrite N.eqb_refl in Hx.
Qed.

Lemma remove_replaced (p : str) :
  Forall (fun ch => ascii_digit ch = true \/ ch = COMMA) p ->
  remove DOT (replace COMMA DOT p) = remove COMMA p.
Proof.
  unfold remove, replace. induction 1 as [|x p Hx _ IH]; cbn; [reflexivity|].
  rewrite IH. destruct Hx as [Hx| ->]; [|reflexivity].
  apply ascii_digit_range in Hx.
  assert ((x =? COMMA) = false) as -> by (apply N.eqb_neq; unfold COMMA; lia).
  assert ((x =? DOT) = false) as -> by (apply N.eqb_neq; unfold DOT; lia).
  reflexivity.
Qed.

Lemma decimal_tail (c : str) :
  Forall (fun ch => ascii_digit ch = true) c ->
  forall d, Forall (fun ch => ascii_digit ch = true) d ->
  Forall (fun ch => ascii_digit ch || (ch =? DOT) || (ch =? MINUS) = true) (d ++ [DOT] ++ c) /\
  count DOT (d ++ [DOT] ++ c) = 1%nat.
Proof.
  intros Hc d Hd. split.
  - apply Forall_app. split; [now apply digits_shape|].
    apply Forall_app. split; [repeat constructor|now apply digits_shape].
  - rewrite !count_app, (count_absent DOT d), (count_absent DOT c); [reflexivity| |];
      apply digits_without; auto.
Qed.

Lemma resolve_us (p c : str) :
  Forall (fun ch => ascii_digit ch = true \/ ch = COMMA) p -> In COMMA p ->
  Forall (fun ch => ascii_digit ch = true) c ->
  resolve_separators u (p ++ [DOT] ++ c) = remove COMMA p ++ [DOT] ++ c.
Proof.
  intros Hp Hin Hc. unfold resolve_separators.
  assert (Hcomma : contains COMMA (p ++ [DOT] ++ c) = true).
  { apply contains_In, in_app_iff. now left. }
  assert (Hdot : contains DOT (p ++ [DOT] ++ c) = true).
  { apply contains_In, in_app_iff. right. now left. }
  rewrite Hcomma, Hdot. cbn [andb].
  assert (Hc_comma : Forall (fun x => x <> COMMA) ([DOT] ++ c)).
  { constructor; [discriminate|]. apply digits_without; auto. }
  destruct (last_occurrence COMMA p Hin) as (p1 & p2 & -> & Hp2).
  replace ((p1 ++ COMMA :: p2) ++ [DOT] ++ c) with (p1 ++ COMMA :: (p2 ++ [DOT] ++ c))
    by now rewrite <- app_assoc.
  rewrite (rfind_last COMMA p1 (p2 ++ [DOT] ++ c)) by (apply Forall_app; auto).
  replace (p1 ++ COMMA :: (p2 ++ [DOT] ++ c)) with ((p1 ++ COMMA :: p2) ++ DOT :: c)
    by now rewrite <- app_assoc.
  rewrite (rfind_last DOT (p1 ++ COMMA :: p2) c) by (apply digits_without; auto).
  rewrite length_app. cbn [length].
  destruct (Z.ltb_spec (Z.of_nat (length p1)) (Z.of_nat (length p1 + S (length p2)))); [|lia].
  rewrite remove_app. f_equal.
  change (DOT :: c) with ([DOT] ++ c). now apply remove_absent.
Qed.

Lemma resolve_eu (p c : str) :
  Forall (fun ch => ascii_digit ch = true \/ ch = COMMA) p -> In COMMA p ->
  Forall (fun ch => ascii_digit ch = true) c ->
  resolve_separators u (replace COMMA DOT p ++ [COMMA] ++ c) = remove COMMA p ++ [DOT] ++ c.
Proof.
  intros Hp Hin Hc. unfold resolve_separators.
  assert (Hin' : In DOT (replace COMMA DOT p)).
  { unfold replace. apply in_map_iff. exists COMMA. split; [reflexivity|exact Hin]. }
  assert (Hcomma : contains COMMA (replace COMMA DOT p ++ [COMMA] ++ c) = true).
  { apply contains_In, in_app_iff. right. now left. }
  assert (Hdot : contains DOT (replace COMMA DOT p ++ [COMMA] ++ c) = true).
  { apply contains_In, in_app_iff. now left. }
  rewrite Hcomma, Hdot. cbn [andb].
  assert (Hc_dot : Forall (fun x => x <> DOT) ([COMMA] ++ c)).
  { constructor; [discriminate|]. apply digits_without; auto. }
  rewrite (rfind_absent_tail DOT _ _ Hc_dot).
  change ([COMMA] ++ c) with (COMMA :: c).
  rewrite (rfind_last COMMA (replace COMMA DOT p) c) by (apply digits_without; auto).
  pose proof (rfind_bound DOT (replace COMMA DOT p)) as Hb.
  destruct (Z.ltb_spec (Z.of_nat (length (replace COMMA DOT p))) (rfind DOT (replace COMMA DOT p)));
    [lia|].
  rewrite remove_app, (remove_replaced p Hp).
  change (COMMA :: c) with ([COMMA] ++ c) in *. rewrite (remove_absent DOT _ Hc_dot).
  unfold replace at 1. rewrite map_app. f_equal.
  - apply (replace_absent COMMA DOT). apply remove_gone.
  - cbn. f_equal. apply (replace_absent COMMA DOT). apply digits_without; auto.
Qed.

Lemma resolve_lone (sep : char) (a b : str) :
  sep = COMMA \/ sep = DOT -> a <> [] -> b <> [] ->
  Forall (fun ch => ascii_digit ch = true) a -> Forall (fun ch => ascii_digit ch = true) b ->
  resolve_separators u (a ++ [sep] ++ b) =
    if (length b =? 3)%nat then a ++ b else a ++ [DOT] ++ b.
Proof.
  intros Hsep Ha Hb Hda Hdb. unfold resolve_separators.
  assert (Hsplit : forall c, c = COMMA \/ c = DOT -> split c (a ++ [c] ++ b) = [a; b]).
  { intros c Hc. apply split_once; apply digits_without; tauto. }
  assert (Hhas : forall c d, c <> d -> c = COMMA \/ c = DOT ->
                             contains c (a ++ [d] ++ b) = false).
  { intros c d Hcd Hc. apply contains_absent. apply Forall_app. split.
    - apply digits_without; tauto.
    - constructor; [congruence|]. apply digits_without; tauto. }
  assert (Hself : forall c, contains c (a ++ [c] ++ b) = true).
  { intros c. apply contains_In, in_app_iff. right. now left. }
  destruct Hsep as [->| ->].
  - rewrite Hself, (Hhas DOT COMMA) by (auto; discriminate). cbn [andb].
    rewrite Hsplit by auto. rewrite (digits_isdigit u Hplain a Ha Hda), (digits_isdigit u Hplain b Hb Hdb).
    cbn [andb]. destruct (length b =? 2)%nat eqn:H2; [|reflexivity].
    apply Nat.eqb_eq in H2. rewrite H2. reflexivity.
  - rewrite Hself, (Hhas COMMA DOT) by (auto; discriminate). cbn [andb].
    rewrite Hsplit by auto. rewrite (digits_isdigit u Hplain a Ha Hda), (digits_isdigit u Hplain b Hb Hdb).
    cbn [andb]. reflexivity.
Qed.

End XeSeparators.

(** X23.  Whatever the text, the string [_normalize_number] passes to
    [float] holds only ASCII digits, dots and minus signs, and at most
    one dot. *)
Theorem normalized_is_plain_number_text (u : PyStr.unicode) (text : PyStr.str) :
  Forall (fun c => PyStr.ascii_digit c || (c =? PyStr.DOT)%N || (c =? PyStr.MINUS)%N = true)
         (XeService.normalized u text) /\
  (PyStr.count PyStr.DOT (XeService.normalized u text) <= 1)%nat.
Proof. unfold XeService.normalized. apply single_dot_shape, keep_ascii_number_shape. Qed.

(** X24.  With both separators present the rightmost one is the decimal
    point: digit groups joined by commas and followed by a dot and digits
    ("1,234.56") and the same text with the separators exchanged
    ("1.234,56") both become the groups run together, a dot, the
    decimals ("1234.56"). *)
Theorem rightmost_separator_is_decimal (u : PyStr.unicode) (p c : PyStr.str) :
  PyStr.plain u ->
  Forall (fun ch => PyStr.ascii_digit ch = true \/ ch = PyStr.COMMA) p ->
  In PyStr.COMMA p ->
  Forall (fun ch => PyStr.ascii_digit ch = true) c ->
  XeService.normalized u (p ++ [PyStr.DOT] ++ c) =
    PyStr.remove PyStr.COMMA p ++ [PyStr.DOT] ++ c /\
  XeService.normalized u (PyStr.replace PyStr.COMMA PyStr.DOT p ++ [PyStr.COMMA] ++ c) =
    PyStr.remove PyStr.COMMA p ++ [PyStr.DOT] ++ c.
Proof.
  intros Hplain Hp Hin Hc.
  pose proof (decimal_tail c Hc _ (grouped_shape p Hp)) as [Hshape Hone].
  assert (Hnum : Forall PyStr.number_char p).
  { eapply Forall_impl; [exact Hp|]. intros x [Hx| ->]; [now left|right; now left]. }
  assert (Hnumc : Forall PyStr.number_char c) by now apply digits_number_chars.
  unfold XeService.normalized. split.
  - rewrite (first_steps_id u Hplain).
    + rewrite (resolve_us u p c Hp Hin Hc). apply last_steps_id; [exact Hshape|lia].
    + apply Forall_app. split; [exact Hnum|]. constructor; [right; now right|exact Hnumc].
  - rewrite (first_steps_id u Hplain).
    + rewrite (resolve_eu u p c Hp Hin Hc). apply last_steps_id; [exact Hshape|lia].
    + apply Forall_app. split.
      * unfold PyStr.replace. apply Forall_map. eapply Forall_impl; [exact Hnum|].
        intros x Hx. cbn. destruct (x =? PyStr.COMMA)%N; [right; now right|exact Hx].
      * constructor; [right; now left|exact Hnumc].
Qed.

Lemma rightmost_separator_is_decimal_witness :
  XeService.normalized PyStr.ascii_tables
    (PyStr.of_string "1,234" ++ [PyStr.DOT] ++ PyStr.of_string "56") =
    PyStr.remove PyStr.COMMA (PyStr.of_string "1,234") ++ [PyStr.DOT] ++ PyStr.of_string "56" /\
  XeService.normalized PyStr.ascii_tables
    (PyStr.replace PyStr.COMMA PyStr.DOT (PyStr.of_string "1,234") ++ [PyStr.COMMA]
       ++ PyStr.of_string "56") =
    PyStr.remove PyStr.COMMA (PyStr.of_string "1,234") ++ [PyStr.DOT] ++ PyStr.of_string "56".
Proof.
  apply (rightmost_separator_is_decimal PyStr.ascii_tables
           (PyStr.of_string "1,234") (PyStr.of_string "56")).
  - exact ascii_tables_plain.
  - vm_compute.
    repeat (apply List.Forall_cons; [first [left; reflexivity|right; reflexivity]|]).
    apply List.Forall_nil.
  - vm_compute. auto.
  - repeat constructor.
Defined.

(** X25.  A single separator, comma or dot, between two runs of digits
    is taken for a thousands separator and dropped exactly when three
    digits follow it ("134.537" becomes "134537"); otherwise it is the
    decimal point. *)
Theorem lone_separator_before_three_digits_is_dropped
        (u : PyStr.unicode) (sep : PyStr.char) (a b : PyStr.str) :
  PyStr.plain u ->
  sep = PyStr.COMMA \/ sep = PyStr.DOT ->
  a <> [] -> b <> [] ->
  Forall (fun ch => PyStr.ascii_digit ch = true) a ->
  Forall (fun ch => PyStr.ascii_digit ch = true) b ->
  XeService.normalized u (a ++ [sep] ++ b) =
    if (length b =? 3)%nat then a ++ b else a ++ [PyStr.DOT] ++ b.
Proof.
  intros Hplain Hsep Ha Hb Hda Hdb. unfold XeService.normalized.
  rewrite (first_steps_id u Hplain).
  - rewrite (resolve_lone u Hplain sep a b Hsep Ha Hb Hda Hdb).
    destruct (length b =? 3)%nat.
    + apply last_steps_id.
      * apply Forall_app. split; now apply digits_shape.
      * rewrite count_app, !count_absent; [lia| |]; apply digits_without; auto.
    + destruct (decimal_tail b Hdb a Hda) as [Hshape Hone].
      apply last_steps_id; [exact Hshape|lia].
  - apply Forall_app. split; [now apply digits_number_chars|].
    constructor; [|now apply digits_number_chars].
    destruct Hsep as [->| ->]; [right; now left|right; now right].
Qed.

Lemma lone_separator_before_three_digits_is_dropped_witness :
  XeService.normalized PyStr.ascii_tables
    (PyStr.of_string "134" ++ [PyStr.DOT] ++ PyStr.of_string "537") =
    PyStr.of_string "134" ++ PyStr.of_string "537".
Proof.
  apply (lone_separator_before_three_digits_is_dropped PyStr.ascii_tables PyStr.DOT
           (PyStr.of_string "134") (PyStr.of_string "537")).
  - exact ascii_tables_plain.
  - now right.
  - discriminate.
  - discriminate.
  - repeat constructor.
  - repeat constructor.
Defined.

(** ** [_parse_rate_text] *)

Section EasystaffTexts.
Import PyStr EasystaffService.
Local Open Scope N_scope.

Variable u : unicode.

(** The three removals and the replacement, one character at a time. *)
Let pre (s : str) : str :=
  replace COMMA DOT (remove NNBSP (remove NBSP (remove SPACE s))).

Lemma pre_app (s t : str) : pre (s ++ t) = pre s ++ pre t.
Proof. unfold pre, replace. now rewrite !remove_app, map_app. Qed.

Lemma pre_In (s : str) (x : char) :
  In x (pre s) -> (In x s /\ x <> COMMA) \/ (x = DOT /\ In COMMA s).
Proof.
  unfold pre, replace. intros Hx. apply in_map_iff in Hx as (y & Hy & Hin).
  assert (Hys : In y s).
  { unfold remove in Hin. repeat (apply List.filter_In in Hin as [Hin _]). exact Hin. }
  destruct (y =? COMMA) eqn:Hyc.
  - apply N.eqb_eq in Hyc. subst y. right. split; [now symmetry|exact Hys].
  - apply N.eqb_neq in Hyc. subst x. left. now split.
Qed.

Lemma unspaced_pre (text : option str) : unspaced u text = pre (strip u (default [] text)).
Proof. reflexivity. Qed.

Lemma keep_well (acc : str) (ch : char) :
  match acc with
  | [] => True
  | c :: rest => isdigit u c || (c =? DOT) || (c =? MINUS) = true /\
                 Forall (fun x => isdigit u x || (x =? DOT) = true) rest
  end ->
  match keep u acc ch with
  | [] => True
  | c :: rest => isdigit u c || (c =? DOT) || (c =? MINUS) = true /\
                 Forall (fun x => isdigit u x || (x =? DOT) = true) rest
  end.
Proof.
  unfold keep. destruct acc as [|c rest].
  - intros _. rewrite andb_true_r.
    destruct (isdigit u ch || (ch =? DOT) || (ch =? MINUS)) eqn:Hk; cbn; [|exact I].
    split; [exact Hk|constructor].
  - intros [Hc Hrest]. rewrite andb_false_r, orb_false_r.
    destruct (isdigit u ch || (ch =? DOT)) eqn:Hk; cbn; [|now split].
    split; [exact Hc|]. apply Forall_app. split; [exact Hrest|now repeat constructor].
Qed.

Lemma keep_dots (s acc : str) :
  count DOT (fold_left (keep u) s acc) = (count DOT acc + count DOT s)%nat.
Proof.
  revert acc. induction s as [|x s IH]; intros acc; cbn [fold_left].
  - unfold count at 3. cbn. lia.
  - rewrite IH. change (x :: s) with ([x] ++ s). rewrite (count_app DOT [x] s).
    unfold keep. destruct (N.eqb_spec x DOT) as [->|Hx].
    + rewrite orb_true_r. cbn [orb]. rewrite count_app. lia.
    + assert (Hz : count DOT [x] = 0%nat) by (apply count_absent; repeat constructor; exact Hx).
      destruct (isdigit u x || false || _); [rewrite count_app|]; lia.
Qed.

Lemma replace_dots (s : str) :
  count DOT (replace COMMA DOT s) = (count DOT s + count COMMA s)%nat.
Proof.
  induction s as [|x s IH]; [reflexivity|].
  change (replace COMMA DOT (x :: s))
    with ((if x =? COMMA then DOT else x) :: replace COMMA DOT s).
  rewrite !count_cons, IH.
  destruct (N.eqb_spec x COMMA) as [Hc|Hc].
  - subst x. cbn. lia.
  - destruct (N.eqb_spec COMMA x) as [Hc'|Hc']; [congruence|].
    destruct (DOT =? x); lia.
Qed.

Lemma remove_count (c d : char) (s : str) : c <> d -> count c (remove d s) = count c s.
Proof.
  intros Hcd. induction s as [|x s IH]; [reflexivity|].
  rewrite count_cons, <- IH. unfold remove. cbn [List.filter].
  destruct (N.eqb_spec x d) as [Hx|Hx]; cbn [negb].
  - subst x. destruct (N.eqb_spec c d); [congruence|reflexivity].
  - now rewrite count_cons.
Qed.

Lemma strip_count (c : char) (s : str) : isspace u c = false -> count c (strip u s) = count c s.
Proof.
  intros Hc. destruct (strip_decompose u s) as (ws1 & ws2 & Hs & H1 & H2).
  rewrite Hs at 2. rewrite !count_app.
  rewrite (count_absent c ws1), (count_absent c ws2); [lia| |];
    (eapply Forall_impl; [eassumption|]); intros x Hx ->; congruence.
Qed.

Hypothesis Hplain : plain u.

(** Characters the loop never keeps once something has been kept. *)
Lemma keep_inert (s acc : str) :
  Forall (fun ch => isdigit u ch = false /\ ch <> DOT /\ ch <> COMMA) s ->
  acc <> [] \/ Forall (fun ch => ch <> MINUS) s ->
  fold_left (keep u) (pre s) acc = acc.
Proof.
  intros Hs Hminus.
  assert (Hpre : Forall (fun ch => isdigit u ch = false /\ ch <> DOT /\
                                   (acc <> [] \/ ch <> MINUS)) (pre s)).
  { apply List.Forall_forall. intros x Hx. rewrite List.Forall_forall in Hs.
    apply pre_In in Hx as [[Hx _]|[_ Hx]].
    - destruct (Hs x Hx) as (Hd & Hdot & _). repeat split; auto.
      destruct Hminus as [Hacc|Hm]; [now left|right].
      rewrite List.Forall_forall in Hm. now apply Hm.
    - destruct (Hs COMMA Hx) as (_ & _ & Hc). congruence. }
  clear Hs Hminus. induction Hpre as [|x t (Hd & Hdot & Hm) _ IH]; cbn [fold_left]; [reflexivity|].
  assert (keep u acc x = acc) as ->; [|exact IH].
  unfold keep. rewrite Hd. apply N.eqb_neq in Hdot. rewrite Hdot. cbn [orb].
  destruct acc as [|c rest]; [|now rewrite andb_false_r].
  destruct Hm as [Hm|Hm]; [congruence|]. apply N.eqb_neq in Hm. now rewrite Hm.
Qed.

Lemma spaces_inert (ws acc : str) :
  Forall (fun c => isspace u c = true) ws -> fold_left (keep u) (pre ws) acc = acc.
Proof.
  intros Hws. apply keep_inert; [|right];
    (eapply Forall_impl; [exact Hws|]); intros c Hc;
    destruct (spaces_apart u Hplain c Hc) as (? & ? & ? & ?); auto.
Qed.

Lemma cleaned_unstripped (t : str) : cleaned u (Some t) = fold_left (keep u) (pre t) [].
Proof.
  unfold cleaned. rewrite unspaced_pre. cbn [default].
  destruct (strip_decompose u t) as (ws1 & ws2 & Ht & H1 & H2).
  rewrite Ht at 2. rewrite !pre_app, !fold_left_app.
  now rewrite (spaces_inert ws1 [] H1), (spaces_inert ws2 _ H2).
Qed.

End EasystaffTexts.

(** X26.  Whatever the text, the string [_parse_rate_text] passes to
    [float] holds only digits and dots, after at most one minus sign in
    first place. *)
Theorem cleaned_is_digits_dots_and_leading_minus (u : PyStr.unicode) (text : option PyStr.str) :
  match EasystaffService.cleaned u text with
  | [] => True
  | c :: rest =>
      PyStr.isdigit u c || (c =? PyStr.DOT)%N || (c =? PyStr.MINUS)%N = true /\
      Forall (fun x => PyStr.isdigit u x || (x =? PyStr.DOT)%N = true) rest
  end.
Proof.
  unfold EasystaffService.cleaned.
  generalize (EasystaffService.unspaced u text). intros s.
  assert (H : match @nil PyStr.char with
              | [] => True
              | c :: rest =>
                  PyStr.isdigit u c || (c =? PyStr.DOT)%N || (c =? PyStr.MINUS)%N = true /\
                  Forall (fun x => PyStr.isdigit u x || (x =? PyStr.DOT)%N = true) rest
              end) by exact I.
  revert H. generalize (@nil PyStr.char). induction s as [|x s IH]; intros acc Hacc; cbn [fold_left].
  - exact Hacc.
  - apply IH. now apply keep_well.
Qed.

(** X27.  [_parse_rate_text] never drops a separator: the string passed
    to [float] has one dot for every dot and every comma of the text, so
    a rate written with a thousands separator ("1,234.56") arrives with
    two dots. *)
Theorem every_comma_and_dot_becomes_a_dot (u : PyStr.unicode) (text : option PyStr.str) :
  PyStr.isspace u PyStr.DOT = false ->
  PyStr.isspace u PyStr.COMMA = false ->
  PyStr.count PyStr.DOT (EasystaffService.cleaned u text) =
    (PyStr.count PyStr.DOT (default [] text) + PyStr.count PyStr.COMMA (default [] text))%nat.
Proof.
  intros Hdot Hcomma. unfold EasystaffService.cleaned, EasystaffService.unspaced.
  rewrite keep_dots, replace_dots.
  rewrite !remove_count by discriminate.
  rewrite !(strip_count u) by assumption. reflexivity.
Qed.

Lemma every_comma_and_dot_becomes_a_dot_witness :
  PyStr.count PyStr.DOT
    (EasystaffService.cleaned PyStr.ascii_tables (Some (PyStr.of_string "1,234.56"))) =
    (PyStr.count PyStr.DOT (default [] (Some (PyStr.of_string "1,234.56"))) +
     PyStr.count PyStr.COMMA (default [] (Some (PyStr.of_string "1,234.56"))))%nat.
Proof.
  apply (every_comma_and_dot_becomes_a_dot PyStr.ascii_tables
           (Some (PyStr.of_string "1,234.56"))); reflexivity.
Defined.

(** X28.  Text after the number is ignored: once something has been
    kept, appending characters that are no digits, dots or commas (a
    unit such as " RUB/EUR") does not change the string passed to
    [float]. *)
Theorem trailing_unit_is_ignored (u : PyStr.unicode) (number suffix : PyStr.str) :
  PyStr.plain u ->
  EasystaffService.cleaned u (Some number) <> [] ->
  Forall (fun ch => PyStr.isdigit u ch = false /\ ch <> PyStr.DOT /\ ch <> PyStr.COMMA) suffix ->
  EasystaffService.cleaned u (Some (number ++ suffix)) = EasystaffService.cleaned u (Some number).
Proof.
  intros Hplain Hkept Hsuffix.
  rewrite !(cleaned_unstripped u Hplain) in *.
  rewrite pre_app, fold_left_app.
  apply (keep_inert u); [exact Hsuffix|now left].
Qed.

Lemma trailing_unit_is_ignored_witness :
  EasystaffService.cleaned PyStr.ascii_tables
    (Some (PyStr.of_string "89.25" ++ PyStr.of_string " RUB/EUR")) =
  EasystaffService.cleaned PyStr.ascii_tables (Some (PyStr.of_string "89.25")).
Proof.
  apply (trailing_unit_is_ignored PyStr.ascii_tables
           (PyStr.of_string "89.25") (PyStr.of_string " RUB/EUR")).
  - exact ascii_tables_plain.
  - vm_compute. discriminate.
  - vm_compute. repeat (apply List.Forall_cons; [repeat split; discriminate|]).
    apply List.Forall_nil.
Defined.

Section EasystaffDecimals.
Import PyStr EasystaffService.
Local Open Scope N_scope.

Variable u : unicode.
Hypothesis Hplain : plain u.

Lemma keep_kept (s acc : str) :
  Forall (fun ch => isdigit u ch || (ch =? DOT) = true) s ->
  fold_left (keep u) s acc = acc ++ s.
Proof.
  intros Hs. revert acc. induction Hs as [|x s Hx _ IH]; intros acc; cbn [fold_left].
  - now rewrite app_nil_r.
  - unfold keep at 2. rewrite Hx. cbn [orb]. rewrite IH, <- app_assoc. reflexivity.
Qed.

Lemma replace_app (c d : char) (s t : str) :
  replace c d (s ++ t) = replace c d s ++ replace c d t.
Proof. unfold replace. apply map_app. Qed.

Lemma unspaced_number (t : str) :
  Forall number_char t -> unspaced u (Some t) = replace COMMA DOT t.
Proof.
  intros Ht. unfold unspaced. cbn [default]. rewrite strip_no_space.
  2:{ eapply Forall_impl; [exact Ht|]. now apply number_char_no_space. }
  assert (Hno : forall c, c = SPACE \/ c = NBSP \/ c = NNBSP -> remove c t = t).
  { intros c Hc. apply remove_absent. eapply Forall_impl; [exact Ht|].
    intros x Hx. apply number_char_cases in Hx. intuition congruence. }
  rewrite !Hno by tauto. reflexivity.
Qed.

End EasystaffDecimals.

(** X29.  A decimal comma is read as a decimal point: for two runs of
    ASCII digits around a comma or a dot ("89,25" or "89.25") the
    string passed to [float] is the first run, a dot, the second run. *)
Theorem decimal_comma_is_read_as_a_point
        (u : PyStr.unicode) (sep : PyStr.char) (a b : PyStr.str) :
  PyStr.plain u ->
  sep = PyStr.COMMA \/ sep = PyStr.DOT ->
  Forall (fun ch => PyStr.ascii_digit ch = true) a ->
  Forall (fun ch => PyStr.ascii_digit ch = true) b ->
  EasystaffService.cleaned u (Some (a ++ [sep] ++ b)) = a ++ [PyStr.DOT] ++ b.
Proof.
  intros Hplain Hsep Ha Hb. unfold EasystaffService.cleaned.
  rewrite (unspaced_number u Hplain).
  - assert (Hrep : PyStr.replace PyStr.COMMA PyStr.DOT (a ++ [sep] ++ b) = a ++ [PyStr.DOT] ++ b).
    { rewrite !replace_app.
      rewrite (replace_absent PyStr.COMMA PyStr.DOT a), (replace_absent PyStr.COMMA PyStr.DOT b)
        by (apply digits_without; auto).
      destruct Hsep as [->| ->]; reflexivity. }
    rewrite Hrep. rewrite (keep_kept u (a ++ [PyStr.DOT] ++ b) []); [reflexivity|].
    apply Forall_app. split; [|apply Forall_app; split; [repeat constructor|]].
    + eapply Forall_impl; [exact Ha|]. intros c Hc.
      now destruct (PyStr.ascii_digits_known u Hplain c Hc) as [-> _].
    + cbn. now rewrite orb_true_r.
    + eapply Forall_impl; [exact Hb|]. intros c Hc.
      now destruct (PyStr.ascii_digits_known u Hplain c Hc) as [-> _].
  - apply Forall_app. split; [now apply digits_number_chars|].
    constructor; [|now apply digits_number_chars].
    destruct Hsep as [->| ->]; [right; now left|right; now right].
Qed.

Lemma decimal_comma_is_read_as_a_point_witness :
  EasystaffService.cleaned PyStr.ascii_tables
    (Some (PyStr.of_string "89" ++ [PyStr.COMMA] ++ PyStr.of_string "25")) =
    PyStr.of_string "89" ++ [PyStr.DOT] ++ PyStr.of_string "25".
Proof.
  apply (decimal_comma_is_read_as_a_point PyStr.ascii_tables PyStr.COMMA
           (PyStr.of_string "89") (PyStr.of_string "25")).
  - exact ascii_tables_plain.
  - now left.
  - repeat constructor.
  - repeat constructor.
Defined.
